(** * Fortune trading bot: backtest ledger, sizing, aggregation, indicators

    A shallow embedding of the algorithmic core of the bot:
    - [BaseStrategy]      : [strategies/base_strategy.py], the indicator calculator;
    - [StrategyManager]   : [strategies/strategy_manager.py], the signal aggregator;
    - [RiskManager]       : [utils/risk_management.py], position sizing;
    - [BacktestEngine]    : [utils/backtest.py], the simulation ledger;
    - [PortfolioManager]  : [utils/portfolio.py], the paper order path;
    - [RiskFilter], [RiskMetrics] : [utils/risk_management.py], the signal
      filter, the daily counters and the drawdown of the risk metrics;
    - [PortfolioReport]   : [utils/portfolio.py], balance, positions and value;
    - [FortuneBot]        : [main.py], one trading cycle;
    - [StrategyRunner]    : [strategies/strategy_manager.py], running the
      strategies on the market data;
    - [StrategyPerformance] : [strategies/base_strategy.py], the performance
      history and its metrics;
    - [RSIStrategy], [MACDStrategy], [DCAStrategy], [GridStrategy] : the
      strategies of [strategies/].

    Number model.  Python floats are modelled by exact rationals [Q]; rounding
    is not modelled.  Where the code can produce the IEEE special values
    (a division by zero in a pandas column, [float('inf')]), the type [fnum]
    adds them to the rationals.  Equalities between computed amounts are
    therefore stated with [==] (equality of rationals).

    Division.  A division of Python numbers raises ZeroDivisionError on a
    zero divisor, a division of numpy floats answers with an infinity or NaN.
    The paper orders divide Python floats, and the failing division is
    modelled as the exception it is.  The backtest ledger holds numpy floats
    (every amount computed from the close of a bar) next to the Python
    number it was created with; the metrics model both divisions, by the
    kind of the operands.  The amounts of the ledger itself are rationals:
    the fills are modelled for bars with a non-zero close, where no amount is
    infinite or NaN. *)

From Stdlib Require Import QArith Qminmax Qabs Lqa Lia ZArith.
From stdpp Require Import gmap strings list.

(** ** Numbers with the special values of a float *)

Inductive fnum : Type :=
  | Fin (q : Q)
  | PInf
  | NInf
  | NaN.

Definition is_fin (x : fnum) : bool :=
  match x with Fin _ => true | _ => false end.

Definition is_nan (x : fnum) : bool :=
  match x with NaN => true | _ => false end.

Definition Qltb (a b : Q) : bool := negb (Qle_bool b a).

Definition fneg (x : fnum) : fnum :=
  match x with
  | Fin a => Fin (- a)
  | PInf => NInf
  | NInf => PInf
  | NaN => NaN
  end.

Definition fadd (x y : fnum) : fnum :=
  match x, y with
  | NaN, _ | _, NaN => NaN
  | Fin a, Fin b => Fin (a + b)
  | PInf, NInf | NInf, PInf => NaN
  | PInf, _ | _, PInf => PInf
  | NInf, _ | _, NInf => NInf
  end.

Definition fsub (x y : fnum) : fnum := fadd x (fneg y).

Definition fmul (x y : fnum) : fnum :=
  match x, y with
  | NaN, _ | _, NaN => NaN
  | Fin a, Fin b => Fin (a * b)
  | Fin a, PInf | PInf, Fin a =>
      if Qeq_bool a 0 then NaN else if Qltb 0 a then PInf else NInf
  | Fin a, NInf | NInf, Fin a =>
      if Qeq_bool a 0 then NaN else if Qltb 0 a then NInf else PInf
  | PInf, PInf | NInf, NInf => PInf
  | PInf, NInf | NInf, PInf => NaN
  end.

(** Division as numpy and pandas do it on float64: a zero divisor gives an
    infinity, or NaN for 0/0 (the sign of a zero is not modelled: a zero
    divisor counts as +0). *)
Definition fdiv (x y : fnum) : fnum :=
  match x, y with
  | NaN, _ | _, NaN => NaN
  | Fin a, Fin b =>
      if Qeq_bool b 0
      then (if Qeq_bool a 0 then NaN else if Qltb 0 a then PInf else NInf)
      else Fin (a / b)
  | Fin _, (PInf | NInf) => Fin 0
  | (PInf | NInf), (PInf | NInf) => NaN
  | PInf, Fin b => if Qltb b 0 then NInf else PInf
  | NInf, Fin b => if Qltb b 0 then PInf else NInf
  end.

(** [x > y] on floats: false as soon as one side is NaN. *)
Definition fgtb (x y : fnum) : bool :=
  match x, y with
  | NaN, _ | _, NaN => false
  | Fin a, Fin b => Qltb b a
  | PInf, PInf => false
  | PInf, _ => true
  | _, PInf => false
  | NInf, _ => false
  | Fin _, NInf => true
  end.

Definition Qsum (l : list Q) : Q := foldr Qplus 0%Q l.

(** [np.mean] of a non-empty list. *)
Definition Qmean (l : list Q) : Q := (Qsum l / inject_Z (Z.of_nat (length l)))%Q.

(** A computable stand-in for the float square root (six decimal digits),
    used where a development needs a concrete instance of the square root its
    definitions take as a parameter. *)
Definition Qsqrt_approx (q : Q) : Q :=
  (Z.sqrt (Qnum q * Zpos (Qden q) * 10 ^ 12) # (Qden q * 1000000))%Z.

(** ** The shared data model *)

(** One OHLCV row of the DataFrame; [timestamp] is the row's index. *)
Record Bar : Type := mkBar {
  timestamp : Z;
  open : Q;
  high : Q;
  low : Q;
  close : Q;
  volume : Q
}.

(** The keys of a signal dict that the engine and the aggregator read;
    [reason] stands for the keys that are only carried along. *)
Record Signal : Type := mkSignal {
  strategy : string;
  symbol : string;
  side : string;
  confidence : Q;
  reason : string
}.

(** ** strategies/base_strategy.py *)

Module BaseStrategy.
Local Open Scope Q_scope.

(** The DataFrame [calculate_indicators] returns: the rows it was given and
    one float column per indicator, all of the length of [rows]. *)
Record IndicatorFrame : Type := mkFrame {
  rows : list Bar;
  rsi : list fnum;
  macd : list fnum;
  macd_signal : list fnum;
  macd_histogram : list fnum;
  bb_middle : list fnum;
  bb_upper : list fnum;
  bb_lower : list fnum;
  sma_20 : list fnum;
  sma_50 : list fnum;
  ema_12 : list fnum;
  ema_26 : list fnum;
  volume_sma : list fnum
}.

(** [Series.diff()]: NaN on the first row, then the difference to the
    previous row. *)
Fixpoint diff_from (prev : Q) (s : list Q) : list fnum :=
  match s with
  | [] => []
  | x :: r => Fin (x - prev) :: diff_from x r
  end.

Definition diff (s : list Q) : list fnum :=
  match s with
  | [] => []
  | x :: r => NaN :: diff_from x r
  end.

(** [delta.where(delta > 0, 0)]: the value where the condition holds, 0
    elsewhere; NaN > 0 is false, so the result holds no NaN. *)
Definition gains (delta : list fnum) : list Q :=
  map (fun d => match d with Fin x => if Qltb 0 x then x else 0 | _ => 0 end) delta.

(** [-delta.where(delta < 0, 0)] *)
Definition losses (delta : list fnum) : list Q :=
  map (fun d => - match d with Fin x => if Qltb x 0 then x else 0 | _ => 0 end) delta.

(** The rows [i-w+1 .. i] of a series (fewer when the series starts later). *)
Definition window (w i : nat) (s : list Q) : list Q :=
  drop (S i - w) (take (S i) s).

(** [Series.rolling(window=w).mean()]: pandas takes [min_periods = w] by
    default, so a row has a value once [w] observations are in its window
    and is NaN before. *)
Definition rolling_mean (w : nat) (s : list Q) : list fnum :=
  map (fun i =>
         let obs := window w i s in
         if (length obs <? w)%nat then NaN else Fin (Qmean obs))
      (seq 0 (length s)).

Section Indicators.

(** The square root used by the rolling standard deviation. *)
Variable sqrtQ : Q -> Q.

(** [Series.rolling(window=w).std()]: the sample standard deviation
    (divisor [w - 1]) of the window, NaN before [w] observations. *)
Definition rolling_std (w : nat) (s : list Q) : list fnum :=
  map (fun i =>
         let obs := window w i s in
         if (length obs <? w)%nat then NaN
         else
           let m := Qmean obs in
           Fin (sqrtQ (Qsum (map (fun x => (x - m) * (x - m)) obs)
                       / inject_Z (Z.of_nat (w - 1)))))
      (seq 0 (length s)).

(** Numerator and denominator of the exponentially weighted mean of the
    rows seen so far, the most recent first: the weights are
    [(1-alpha)^0, (1-alpha)^1, ...]. *)
Fixpoint ewm_sums (decay : Q) (recent_first : list Q) : Q * Q :=
  match recent_first with
  | [] => (0, 0)
  | x :: r =>
      let '(num, den) := ewm_sums decay r in
      (x + decay * num, 1 + decay * den)
  end.

(** [Series.ewm(span=span).mean()]: pandas takes [adjust=True] and
    [min_periods=0] by default, so every row has a value, the weighted mean
    of the rows up to it with [alpha = 2/(span+1)]. *)
Definition ewm_mean (span : nat) (s : list Q) : list Q :=
  let alpha := 2 / (inject_Z (Z.of_nat span) + 1) in
  map (fun i =>
         let '(num, den) := ewm_sums (1 - alpha) (rev (take (S i) s)) in
         num / den)
      (seq 0 (length s)).

(** [BaseStrategy.calculate_indicators] *)
Definition calculate_indicators (data : list Bar) : IndicatorFrame :=
  let close_col := map close data in
  let delta := diff close_col in
  let gain := rolling_mean 14 (gains delta) in
  let loss := rolling_mean 14 (losses delta) in
  let rs := zip_with fdiv gain loss in
  let rsi := map (fun r => fsub (Fin 100) (fdiv (Fin 100) (fadd (Fin 1) r))) rs in
  let exp1 := ewm_mean 12 close_col in
  let exp2 := ewm_mean 26 close_col in
  let macd := zip_with Qminus exp1 exp2 in
  let macd_signal := ewm_mean 9 macd in
  let macd_histogram := zip_with Qminus macd macd_signal in
  let bb_middle := rolling_mean 20 close_col in
  let bb_std := rolling_std 20 close_col in
  let bb_upper := zip_with fadd bb_middle (map (fun x => fmul x (Fin 2)) bb_std) in
  let bb_lower := zip_with fsub bb_middle (map (fun x => fmul x (Fin 2)) bb_std) in
  {| rows := data;
     rsi := rsi;
     macd := map Fin macd;
     macd_signal := map Fin macd_signal;
     macd_histogram := map Fin macd_histogram;
     bb_middle := bb_middle;
     bb_upper := bb_upper;
     bb_lower := bb_lower;
     sma_20 := rolling_mean 20 close_col;
     sma_50 := rolling_mean 50 close_col;
     ema_12 := map Fin (ewm_mean 12 close_col);
     ema_26 := map Fin (ewm_mean 26 close_col);
     volume_sma := rolling_mean 20 (map volume data) |}.

End Indicators.

End BaseStrategy.

(** ** strategies/strategy_manager.py *)

Module StrategyManager.
Local Open Scope Q_scope.

(** [signals_by_symbol]: a dict keeps its keys in the order of their first
    insertion, so it is an association list here. *)
Fixpoint append_to_group (signals_by_symbol : list (string * list Signal))
    (sym : string) (signal : Signal) : list (string * list Signal) :=
  match signals_by_symbol with
  | [] => [(sym, [signal])]
  | (k, g) :: rest =>
      if String.eqb k sym then (k, g ++ [signal]) :: rest
      else (k, g) :: append_to_group rest sym signal
  end.

Definition group_by_symbol (signals : list Signal) : list (string * list Signal) :=
  foldl (fun d signal => append_to_group d (symbol signal) signal) [] signals.

(** [symbol_signals.sort(key=lambda x: x['confidence'], reverse=True)]:
    Python's sort is stable, also with [reverse=True], and a stable sort has
    one result; this insertion sort computes it. *)
Fixpoint insert_by_confidence (x : Signal) (sorted : list Signal) : list Signal :=
  match sorted with
  | [] => [x]
  | y :: r =>
      if Qle_bool (confidence y) (confidence x) then x :: y :: r
      else y :: insert_by_confidence x r
  end.

Definition sort_by_confidence (signals : list Signal) : list Signal :=
  foldr insert_by_confidence [] signals.

(** [StrategyManager._signals_are_coherent] *)
Definition _signals_are_coherent (signals : list Signal) : bool :=
  if (length signals <=? 1)%nat then true
  else
    let sides := map side signals in
    bool_decide (size (list_to_set sides : gset string) = 1%nat).

(** [StrategyManager._filter_and_prioritize_signals] *)
Definition _filter_and_prioritize_signals (signals : list Signal) : list Signal :=
  match signals with
  | [] => []
  | _ :: _ =>
      foldl
        (fun best_signals '(sym, symbol_signals) =>
           let sorted := sort_by_confidence symbol_signals in
           if _signals_are_coherent sorted
           then best_signals ++ take 1 sorted
           else best_signals)
        [] (group_by_symbol signals)
  end.

End StrategyManager.

(** ** utils/risk_management.py *)

Module RiskManager.
Local Open Scope Q_scope.

(** A recorded trade result: [t.get('strategy')] and [t['profit']]. *)
Record TradeResult : Type := mkTradeResult {
  tr_strategy : option string;
  tr_profit : Q
}.

(** The keys of the config dict that the manager reads. *)
Record Config : Type := mkConfig {
  daily_loss_limit : option Q;
  cfg_max_drawdown : option Q;
  position_sizing : option string;
  default_risk_per_trade : option Q
}.

Record state : Type := mkState {
  config : Config;
  daily_pnl : Q;
  daily_trades : nat;
  max_daily_loss : Q;
  max_drawdown : Q;
  position_sizing_method : string;
  trade_history : list TradeResult
}.

(** [RiskManager.__init__] *)
Definition init (config : Config) : state :=
  {| config := config;
     daily_pnl := 0;
     daily_trades := 0;
     max_daily_loss := default (5 # 100) (daily_loss_limit config);
     max_drawdown := default (15 # 100) (cfg_max_drawdown config);
     position_sizing_method := default "kelly" (position_sizing config);
     trade_history := [] |}.

(** [RiskManager._fixed_position_size] *)
Definition _fixed_position_size (account_balance : Q) : Q :=
  Qmin 100 (account_balance * (1 # 10)).

(** [RiskManager._percentage_position_size] *)
Definition _percentage_position_size (self : state) (signal : Signal)
    (account_balance : Q) : Q :=
  let risk_per_trade := default (2 # 100) (default_risk_per_trade (config self)) in
  account_balance * risk_per_trade.

Definition is_strategy (strategy_name : string) (t : TradeResult) : bool :=
  match tr_strategy t with
  | Some s => String.eqb s strategy_name
  | None => false
  end.

(** [RiskManager._get_strategy_stats]: (win_rate, avg_win, avg_loss). *)
Definition _get_strategy_stats (self : state) (strategy_name : string) : Q * Q * Q :=
  let strategy_trades := List.filter (is_strategy strategy_name) (trade_history self) in
  match strategy_trades with
  | [] => (1 # 2, 1, 1)
  | _ :: _ =>
      let wins := List.filter (fun t => Qltb 0 (tr_profit t)) strategy_trades in
      let losses := List.filter (fun t => Qltb (tr_profit t) 0) strategy_trades in
      let win_rate :=
        inject_Z (Z.of_nat (length wins))
        / inject_Z (Z.of_nat (length strategy_trades)) in
      let avg_win :=
        match wins with [] => 1 | _ :: _ => Qmean (map tr_profit wins) end in
      let avg_loss :=
        match losses with [] => 1 | _ :: _ => Qabs (Qmean (map tr_profit losses)) end in
      (win_rate, avg_win, avg_loss)
  end.

(** [max(0, min(0.25, kelly_fraction))] *)
Definition clamp_kelly (kelly_fraction : Q) : Q :=
  Qmax 0 (Qmin (25 # 100) kelly_fraction).

(** [RiskManager._kelly_position_size]; a [Signal] always carries its
    strategy, so the default of [signal.get('strategy', 'unknown')] is not
    needed. *)
Definition _kelly_position_size (self : state) (signal : Signal)
    (account_balance : Q) : Q :=
  let strategy_name := strategy signal in
  let '(win_rate, avg_win, avg_loss) := _get_strategy_stats self strategy_name in
  if Qeq_bool win_rate 0 || Qeq_bool avg_loss 0 then
    _percentage_position_size self signal account_balance
  else
    let b := avg_win / avg_loss in
    let p := win_rate in
    let q := 1 - win_rate in
    let kelly_fraction := (b * p - q) / b in
    let kelly_fraction := clamp_kelly kelly_fraction in
    account_balance * kelly_fraction.

(** [RiskManager._volatility_adjusted_size] *)
Definition _volatility_adjusted_size (self : state) (signal : Signal)
    (account_balance : Q) : Q :=
  let base_size := _percentage_position_size self signal account_balance in
  let confidence_multiplier := (1 # 2) + confidence signal in
  base_size * confidence_multiplier.

(** [RiskManager.calculate_position_size] *)
Definition calculate_position_size (self : state) (signal : Signal)
    (account_balance : Q) : Q :=
  if String.eqb (position_sizing_method self) "fixed" then
    _fixed_position_size account_balance
  else if String.eqb (position_sizing_method self) "percentage" then
    _percentage_position_size self signal account_balance
  else if String.eqb (position_sizing_method self) "kelly" then
    _kelly_position_size self signal account_balance
  else if String.eqb (position_sizing_method self) "volatility" then
    _volatility_adjusted_size self signal account_balance
  else _fixed_position_size account_balance.

(** [RiskManager.record_trade]: the history keeps the last 1000 results. *)
Definition record_trade (self : state) (trade_result : TradeResult) : state :=
  let history := trade_history self ++ [trade_result] in
  {| config := config self;
     daily_pnl := daily_pnl self;
     daily_trades := daily_trades self;
     max_daily_loss := max_daily_loss self;
     max_drawdown := max_drawdown self;
     position_sizing_method := position_sizing_method self;
     trade_history :=
       if (1000 <? length history)%nat
       then drop (length history - 1000) history
       else history |}.

End RiskManager.

(** ** utils/backtest.py *)

Module BacktestEngine.
Local Open Scope Q_scope.

Record Position : Type := mkPosition {
  quantity : Q;
  avg_price : Q;
  entry_time : Z
}.

Record Trade : Type := mkTrade {
  t_timestamp : Z;
  t_symbol : string;
  t_side : string;
  t_quantity : Q;
  t_price : Q;
  t_profit : Q;
  t_strategy : string
}.

(** A number of the ledger is a Python number or a numpy float64. The
    capital is the Python number the engine was created with until the first
    fill; every amount computed from the close of a bar is a numpy float, and
    so is every number computed from one. The two kinds divide differently:
    Python raises ZeroDivisionError on a zero divisor, numpy answers with an
    infinity or NaN. *)
Inductive num_kind : Type := PyNumber | NpFloat.

Definition is_python (k : num_kind) : bool :=
  match k with PyNumber => true | NpFloat => false end.

(** A point of the equity curve; [ep_kind] is the kind of ['equity']. *)
Record EquityPoint : Type := mkEquityPoint {
  ep_timestamp : Z;
  ep_equity : Q;
  ep_capital : Q;
  ep_kind : num_kind
}.

(** The attributes of a [BacktestEngine] object; [capital_kind] is the kind
    of [self.capital]. *)
Record state : Type := mkState {
  initial_capital : Q;
  capital : Q;
  capital_kind : num_kind;
  positions : gmap string Position;
  trades : list Trade;
  equity_curve : list EquityPoint
}.

(** [BacktestEngine.__init__], called with a Python number. *)
Definition init (initial_capital : Q) : state :=
  {| initial_capital := initial_capital;
     capital := initial_capital;
     capital_kind := PyNumber;
     positions := ∅;
     trades := [];
     equity_curve := [] |}.

(** [position_size = self.capital * 0.02 / current_price], for a non-zero
    close (at a close of 0 numpy answers with an infinity or NaN). *)
Definition position_size (self : state) (current_bar : Bar) : Q :=
  capital self * (2 # 100) / close current_bar.

(** [BacktestEngine._execute_backtest_trade]. The code divides by the close
    of the bar and, when it averages into a position, by the new quantity,
    both in numpy floats: a zero divisor gives an infinity or NaN there,
    which a ledger of rationals does not hold. The model follows the code
    where these divisors are not zero, and the statements about the amounts
    of a fill assume a positive close. A fill leaves a numpy float in
    [self.capital]. *)
Definition _execute_backtest_trade (self : state) (signal : Signal)
    (current_bar : Bar) : state :=
  let symbol := symbol signal in
  let side := side signal in
  let current_price := close current_bar in
  let position_size := position_size self current_bar in
  if String.eqb side "buy" then
    let cost := position_size * current_price in
    if Qle_bool cost (capital self) then
      let capital' := capital self - cost in
      let position' :=
        match positions self !! symbol with
        | Some p =>
            let old_qty := quantity p in
            let old_price := avg_price p in
            let new_qty := old_qty + position_size in
            let new_avg_price :=
              ((old_qty * old_price) + (position_size * current_price)) / new_qty in
            {| quantity := new_qty;
               avg_price := new_avg_price;
               entry_time := entry_time p |}
        | None =>
            {| quantity := position_size;
               avg_price := current_price;
               entry_time := timestamp current_bar |}
        end in
      {| initial_capital := initial_capital self;
         capital := capital';
         capital_kind := NpFloat;
         positions := <[symbol := position']> (positions self);
         trades := trades self;
         equity_curve := equity_curve self |}
    else self
  else if String.eqb side "sell" then
    match positions self !! symbol with
    | Some position =>
        let sell_quantity := Qmin position_size (quantity position) in
        let proceeds := sell_quantity * current_price in
        let profit := (current_price - avg_price position) * sell_quantity in
        let position' :=
          {| quantity := quantity position - sell_quantity;
             avg_price := avg_price position;
             entry_time := entry_time position |} in
        let trade :=
          {| t_timestamp := timestamp current_bar;
             t_symbol := symbol;
             t_side := side;
             t_quantity := sell_quantity;
             t_price := current_price;
             t_profit := profit;
             t_strategy := strategy signal |} in
        {| initial_capital := initial_capital self;
           capital := capital self + proceeds;
           capital_kind := NpFloat;
           positions :=
             if Qle_bool (quantity position') (1 # 1000)
             then delete symbol (positions self)
             else <[symbol := position']> (positions self);
           trades := trades self ++ [trade];
           equity_curve := equity_curve self |}
    | None => self
    end
  else self.

(** [BacktestEngine._calculate_current_equity]: every open position is
    valued at the close of the current bar. *)
Definition _calculate_current_equity (self : state) (current_bar : Bar) : Q :=
  map_fold
    (fun (_ : string) (position : Position) (equity : Q) =>
       let current_price := close current_bar in
       let position_value := quantity position * current_price in
       equity + position_value)
    (capital self) (positions self).

(** The kind of the equity [_calculate_current_equity] returns: the kind of
    the capital, and a numpy float as soon as the value of one position was
    added to it. *)
Definition current_equity_kind (self : state) : num_kind :=
  map_fold (fun (_ : string) (_ : Position) (_ : num_kind) => NpFloat)
           (capital_kind self) (positions self).

(** What [run_backtest] and [_calculate_performance_metrics] hand back: the
    dict [{'error': msg}], the dict of metrics, or an exception. *)
Record PerformanceMetrics : Type := mkMetrics {
  total_trades : nat;
  winning_trades : nat;
  losing_trades : nat;
  win_rate : Q;
  total_return : fnum;
  profit_factor : fnum;
  sharpe_ratio : fnum;
  max_drawdown : fnum;
  avg_profit : Q;
  max_profit : Q;
  max_loss : Q;
  m_initial_capital : Q;
  final_equity : Q;
  m_equity_curve : list EquityPoint;
  m_trades : list Trade
}.

Inductive result : Type :=
  | Error (msg : string)
  | Metrics (m : PerformanceMetrics)
  | Raise (exn : string).

Definition fsum (l : list fnum) : fnum := foldr fadd (Fin 0) l.

(** [np.mean]: NaN on an empty list (0/0). *)
Definition fmean (l : list fnum) : fnum :=
  fdiv (fsum l) (Fin (inject_Z (Z.of_nat (length l)))).

(** [x / y] on numbers of the ledger: Python's division when both operands
    are Python numbers ([None] is its ZeroDivisionError), numpy's as soon as
    one of them is a numpy float. *)
Definition divide (python : bool) (x y : Q) : option fnum :=
  if python
  then (if Qeq_bool y 0 then None else Some (Fin (x / y)))
  else Some (fdiv (Fin x) (Fin y)).

(** Period returns: [(equity[i] - equity[i-1]) / equity[i-1]] for i >= 1. *)
Fixpoint period_returns (curve : list EquityPoint) : option (list fnum) :=
  match curve with
  | prev :: (cur :: _) as rest =>
      match divide (is_python (ep_kind cur) && is_python (ep_kind prev))
                   (ep_equity cur - ep_equity prev) (ep_equity prev),
            period_returns rest with
      | Some ret, Some returns => Some (ret :: returns)
      | _, _ => None
      end
  | _ => Some []
  end.

(** The drawdown loop: the running peak, with its kind, and the largest
    drawdown so far. *)
Definition drawdown_step (acc : option (num_kind * Q * fnum)) (point : EquityPoint)
    : option (num_kind * Q * fnum) :=
  match acc with
  | Some (peak_kind, peak, max_drawdown) =>
      let value := ep_equity point in
      let '(peak_kind', peak') :=
        if Qltb peak value then (ep_kind point, value) else (peak_kind, peak) in
      match divide (is_python peak_kind' && is_python (ep_kind point))
                   (peak' - value) peak' with
      | Some drawdown =>
          Some (peak_kind', peak',
                if fgtb drawdown max_drawdown then drawdown else max_drawdown)
      | None => None
      end
  | None => None
  end.

Definition Qmax_list (d : Q) (l : list Q) : Q := foldl Qmax d l.
Definition Qmin_list (d : Q) (l : list Q) : Q := foldl Qmin d l.

Section Run.

(** The state of the strategy manager (the strategies keep private state
    across calls) and its [analyze_market], given the bars seen so far; the
    run is modelled for any such function. *)
Variable SM : Type.
Variable analyze_market : SM -> list Bar -> list Signal * SM.

(** The square root used by [np.std]. *)
Variable sqrtQ : Q -> Q.

Definition fsqrt (x : fnum) : fnum :=
  match x with
  | Fin q => Fin (sqrtQ q)
  | PInf => PInf
  | _ => NaN
  end.

(** [np.std] (population standard deviation). *)
Definition fstd (l : list fnum) : fnum :=
  let m := fmean l in
  fsqrt (fmean (map (fun x => fmul (fsub x m) (fsub x m)) l)).

(** [BacktestEngine._calculate_performance_metrics]. The initial capital
    is a Python number and an equity is one until the first fill; the three
    quotients of equities (the total return, the period returns and the
    drawdowns) are Python's when both operands are, and then raise
    ZeroDivisionError on a zero divisor. The profits of the trades are numpy
    floats. *)
Definition _calculate_performance_metrics (self : state) : result :=
  match trades self with
  | [] => Error "Aucun trade exécuté"
  | _ :: _ =>
      let profits := map t_profit (trades self) in
      match last (equity_curve self), equity_curve self with
      | Some last_point, first_point :: _ =>
        match divide (is_python (ep_kind last_point))
                     (ep_equity last_point - initial_capital self)
                     (initial_capital self),
              period_returns (equity_curve self),
              foldl drawdown_step
                    (Some (ep_kind first_point, ep_equity first_point, Fin 0))
                    (equity_curve self) with
        | Some total_return, Some returns, Some (_, _, max_drawdown) =>
          let winning_trades := List.filter (fun p => Qltb 0 p) profits in
          let win_rate :=
            inject_Z (Z.of_nat (length winning_trades))
            / inject_Z (Z.of_nat (length profits)) in
          let gross_profit := Qsum winning_trades in
          let gross_loss := Qabs (Qsum (List.filter (fun p => Qltb p 0) profits)) in
          let profit_factor :=
            if Qltb 0 gross_loss then Fin (gross_profit / gross_loss) else PInf in
          let sharpe_ratio :=
            if fgtb (fstd returns) (Fin 0)
            then fdiv (fmean returns) (fstd returns)
            else Fin 0 in
          Metrics
            {| total_trades := length (trades self);
               winning_trades := length winning_trades;
               losing_trades := length profits - length winning_trades;
               win_rate := win_rate;
               total_return := total_return;
               profit_factor := profit_factor;
               sharpe_ratio := sharpe_ratio;
               max_drawdown := max_drawdown;
               avg_profit := Qmean profits;
               max_profit := Qmax_list (hd 0 profits) profits;
               max_loss := Qmin_list (hd 0 profits) profits;
               m_initial_capital := initial_capital self;
               final_equity := ep_equity last_point;
               m_equity_curve := equity_curve self;
               m_trades := trades self |}
        | _, _, _ => Raise "ZeroDivisionError"
        end
      | _, _ => Raise "IndexError"
      end
  end.

(** One iteration of the loop [for i in range(len(test_data))]. *)
Definition bar_step (test_data : list Bar) (acc : SM * state) (i : nat)
    : SM * state :=
  let current_data := take (S i) test_data in
  if (length current_data <? 50)%nat then acc
  else
    match last current_data with
    | Some current_bar =>
        let '(signals, sm') := analyze_market (fst acc) current_data in
        let self' :=
          foldl (fun self signal => _execute_backtest_trade self signal current_bar)
                (snd acc) signals in
        let current_equity := _calculate_current_equity self' current_bar in
        (sm',
         {| initial_capital := initial_capital self';
            capital := capital self';
            capital_kind := capital_kind self';
            positions := positions self';
            trades := trades self';
            equity_curve :=
              equity_curve self'
              ++ [ {| ep_timestamp := timestamp current_bar;
                      ep_equity := current_equity;
                      ep_capital := capital self';
                      ep_kind := current_equity_kind self' |} ] |})
    | None => acc
    end.

(** The loop of [run_backtest] over the first [n] row numbers. *)
Definition simulate (test_data : list Bar) (n : nat) (acc : SM * state)
    : SM * state :=
  foldl (bar_step test_data) acc (seq 0 n).

(** The rows with [start_date <= index <= end_date]. *)
Definition filter_period (data : list Bar) (start_date end_date : Z) : list Bar :=
  List.filter
    (fun b => (start_date <=? timestamp b)%Z && (timestamp b <=? end_date)%Z) data.

(** [BacktestEngine.run_backtest]: the result and the engine as the run
    leaves it. *)
Definition run_backtest (sm : SM) (self : state) (data : list Bar)
    (start_date end_date : Z) : result * state :=
  let test_data := filter_period data start_date end_date in
  if (length test_data =? 0)%nat
  then (Error "Aucune donnée pour la période spécifiée", self)
  else
    let self' := snd (simulate test_data (length test_data) (sm, self)) in
    (_calculate_performance_metrics self', self').

End Run.

End BacktestEngine.

(** ** utils/portfolio.py *)

Module PortfolioManager.
Local Open Scope Q_scope.

Record Position : Type := mkPosition {
  quantity : Q;
  avg_price : Q;
  pos_side : string;
  entry_time : string
}.

Record TradeRecord : Type := mkTradeRecord {
  tr_timestamp : string;
  tr_symbol : string;
  tr_side : string;
  tr_quantity : Q;
  tr_price : Q;
  tr_amount : Q;
  tr_profit : Q
}.

(** The attributes of a [PortfolioManager] that orders read and write;
    [saved] is the snapshot last written to [data/portfolio.json]. *)
Record state : Type := mkState {
  mode : string;
  balance : Q;
  positions : gmap string Position;
  trade_history : list TradeRecord;
  saved : option (Q * gmap string Position * list TradeRecord)
}.

(** The dict an order returns: [{'success': False, 'error': ...}] or the
    dict of a fill with ['success': True]; [order_id] is the number in
    ["paper_<n>"]. [Raised] is an exception that leaves
    [_place_paper_order], with its message; [place_order] catches it and
    answers [{'success': False, 'error': message}]. *)
Inductive OrderResult : Type :=
  | Rejected (error : string)
  | Filled (order_id : nat) (symbol side : string) (quantity price profit : Q)
  | Raised (message : string).

Definition success (r : OrderResult) : bool :=
  match r with Filled _ _ _ _ _ _ => true | _ => false end.

(** [PortfolioManager._get_current_price] *)
Definition _get_current_price (symbol : string) : Q :=
  if String.eqb symbol "BTCUSDT" then 45000
  else if String.eqb symbol "ETHUSDT" then 3000
  else if String.eqb symbol "ADAUSDT" then 1 # 2
  else if String.eqb symbol "DOTUSDT" then 8
  else if String.eqb symbol "LINKUSDT" then 15
  else 100.

(** [price or self._get_current_price(symbol)]: [None] and 0 are falsy. *)
Definition price_or_current (price : option Q) (symbol : string) : Q :=
  match price with
  | Some p => if Qeq_bool p 0 then _get_current_price symbol else p
  | None => _get_current_price symbol
  end.

(** The tail of [_place_paper_order]: record the trade, save the
    portfolio, return the fill. *)
Definition record_and_save (self : state) (now : string) (symbol side : string)
    (quantity current_price amount profit : Q) : OrderResult * state :=
  let trade_record :=
    {| tr_timestamp := now;
       tr_symbol := symbol;
       tr_side := side;
       tr_quantity := quantity;
       tr_price := current_price;
       tr_amount := amount;
       tr_profit := profit |} in
  let history := trade_history self ++ [trade_record] in
  (Filled (length history) symbol side quantity current_price profit,
   {| mode := mode self;
      balance := balance self;
      positions := positions self;
      trade_history := history;
      saved := Some (balance self, positions self, history) |}).

Definition with_ledger (self : state) (balance' : Q)
    (positions' : gmap string Position) : state :=
  {| mode := mode self;
     balance := balance';
     positions := positions';
     trade_history := trade_history self;
     saved := saved self |}.

(** [PortfolioManager._place_paper_order]; [now] is [datetime.now()], and
    any side other than ['buy'] takes the sell branch. The amounts are Python
    floats: the fill price is never zero ([price or ...]), and the one
    division that can fail is the averaging of a buy into a held position,
    by a new quantity of zero; Python raises ZeroDivisionError there, after
    the balance was debited and before anything else is written. *)
Definition _place_paper_order (self : state) (now : string) (symbol side : string)
    (amount : Q) (price : option Q) (order_type : string) : OrderResult * state :=
  let current_price := price_or_current price symbol in
  if String.eqb side "buy" then
    let cost := amount in
    let quantity' := cost / current_price in
    if Qltb (balance self) cost then (Rejected "Solde insuffisant", self)
    else
      let balance' := balance self - cost in
      match positions self !! symbol with
      | Some p =>
          let old_qty := quantity p in
          let old_price := avg_price p in
          let new_qty := old_qty + quantity' in
          if Qeq_bool new_qty 0
          then (Raised "float division by zero",
                with_ledger self balance' (positions self))
          else
            let new_avg_price :=
              ((old_qty * old_price) + (quantity' * current_price)) / new_qty in
            let position' :=
              {| quantity := new_qty;
                 avg_price := new_avg_price;
                 pos_side := pos_side p;
                 entry_time := entry_time p |} in
            record_and_save
              (with_ledger self balance' (<[symbol := position']> (positions self)))
              now symbol side quantity' current_price amount 0
      | None =>
          let position' :=
            {| quantity := quantity';
               avg_price := current_price;
               pos_side := "long";
               entry_time := now |} in
          record_and_save
            (with_ledger self balance' (<[symbol := position']> (positions self)))
            now symbol side quantity' current_price amount 0
      end
  else
    match positions self !! symbol with
    | None => (Rejected "Aucune position à vendre", self)
    | Some position =>
        let sell_quantity := Qmin (amount / current_price) (quantity position) in
        let proceeds := sell_quantity * current_price in
        let profit := (current_price - avg_price position) * sell_quantity in
        let position' :=
          {| quantity := quantity position - sell_quantity;
             avg_price := avg_price position;
             pos_side := pos_side position;
             entry_time := entry_time position |} in
        record_and_save
          (with_ledger self (balance self + proceeds)
             (if Qle_bool (quantity position') (1 # 1000)
              then delete symbol (positions self)
              else <[symbol := position']> (positions self)))
          now symbol side sell_quantity current_price amount
          (if String.eqb side "sell" then profit else 0)
    end.

(** [PortfolioManager.place_order]: an exception of the order becomes the
    dict [{'success': False, 'error': str(e)}]; what the order wrote before
    it raised stays written. *)
Definition place_order (self : state) (now : string) (symbol side : string)
    (amount : Q) (price : option Q) (order_type : string) : OrderResult * state :=
  if String.eqb (mode self) "paper"
  then
    let outcome := _place_paper_order self now symbol side amount price order_type in
    match outcome.1 with
    | Raised message => (Rejected message, outcome.2)
    | _ => outcome
    end
  else (Rejected "Mode réel non implémenté", self).

End PortfolioManager.

(** ** More float operations

    Comparisons are false as soon as one side is NaN; [pymin] and [pymax]
    are Python's built-in [min(a, b)] and [max(a, b)], which return [a]
    unless [b] compares strictly below (above) it. *)

Definition fltb (x y : fnum) : bool := fgtb y x.

Definition fleb (x y : fnum) : bool :=
  match x, y with
  | NaN, _ | _, NaN => false
  | Fin a, Fin b => Qle_bool a b
  | NInf, _ => true
  | _, PInf => true
  | _, _ => false
  end.

Definition fgeb (x y : fnum) : bool := fleb y x.

Definition fabs (x : fnum) : fnum :=
  match x with
  | Fin a => Fin (Qabs a)
  | PInf | NInf => PInf
  | NaN => NaN
  end.

Definition pymin (a b : fnum) : fnum := if fltb b a then b else a.

Definition pymax (a b : fnum) : fnum := if fgtb b a then b else a.

(** The rational a finite float stands for (0 for the special values; used
    where the float is shown to be finite). *)
Definition to_Q (x : fnum) : Q :=
  match x with Fin q => q | _ => 0%Q end.

(** ** utils/risk_management.py: the signal filter *)

Module RiskFilter.
Import RiskManager.
Local Open Scope Q_scope.

Section Filter.

(** The values of the [current_positions] dict, of which the filter reads
    the ['side'] key. *)
Variable P : Type.
Variable side_of : P -> string.

(** [RiskManager._should_execute_signal] *)
Definition _should_execute_signal (self : state) (signal : Signal)
    (current_positions : gmap string P) : bool :=
  if Qltb (daily_pnl self) (- max_daily_loss self) then false
  else if (5 <=? size current_positions)%nat then false
  else if match current_positions !! symbol signal with
          | Some position => negb (String.eqb (side_of position) (side signal))
          | None => false
          end
       then false
  else if Qltb (confidence signal) (5 # 10) then false
  else true.

(** [RiskManager.filter_signals] *)
Definition filter_signals (self : state) (signals : list Signal)
    (current_positions : gmap string P) : list Signal :=
  List.filter (fun signal => _should_execute_signal self signal current_positions)
              signals.

End Filter.

(** [RiskManager.update_daily_pnl] *)
Definition update_daily_pnl (self : state) (pnl : Q) : state :=
  {| config := config self;
     daily_pnl := daily_pnl self + pnl;
     daily_trades := daily_trades self + 1;
     max_daily_loss := max_daily_loss self;
     max_drawdown := max_drawdown self;
     position_sizing_method := position_sizing_method self;
     trade_history := trade_history self |}.

(** [RiskManager.reset_daily_stats] *)
Definition reset_daily_stats (self : state) : state :=
  {| config := config self;
     daily_pnl := 0;
     daily_trades := 0;
     max_daily_loss := max_daily_loss self;
     max_drawdown := max_drawdown self;
     position_sizing_method := position_sizing_method self;
     trade_history := trade_history self |}.

End RiskFilter.

(** ** utils/portfolio.py: the portfolio value *)

Module PortfolioReport.
Import PortfolioManager.
Local Open Scope Q_scope.

(** [PortfolioManager.get_balance] *)
Definition get_balance (self : state) : Q := balance self.

(** [PortfolioManager.get_current_positions]: a copy of the mapping. *)
Definition get_current_positions (self : state) : gmap string Position :=
  positions self.

(** [PortfolioManager.get_portfolio_value]: every position is valued at the
    table price of its symbol. *)
Definition get_portfolio_value (self : state) : Q :=
  map_fold
    (fun (symbol : string) (position : Position) (total_value : Q) =>
       let current_price := _get_current_price symbol in
       let position_value := quantity position * current_price in
       total_value + position_value)
    (balance self) (positions self).

End PortfolioReport.

(** ** main.py: one trading cycle *)

Module FortuneBot.
Local Open Scope Q_scope.

Section Cycle.

(** [signal.get('price')] and [signal.get('type', 'market')]: two keys of
    the signal dict that the [Signal] record does not carry. *)
Variable price_of : Signal -> option Q.
Variable type_of : Signal -> string.

(** [FortuneBot.execute_trade]; [now] is the clock the order reads. What it
    writes to the log and to the trading memory is not modelled. *)
Definition execute_trade (risk_manager : RiskManager.state)
    (portfolio : PortfolioManager.state) (now : string) (signal : Signal)
    : PortfolioManager.state :=
  let position_size :=
    RiskManager.calculate_position_size
      risk_manager signal (PortfolioReport.get_balance portfolio) in
  (PortfolioManager.place_order portfolio now (symbol signal) (side signal)
     position_size (price_of signal) (type_of signal)).2.

(** [FortuneBot.trading_cycle], from the signals [analyze_market] returned:
    the risk filter, against the positions as they are before the first
    order, then one order per signal that is left. *)
Definition trading_cycle (risk_manager : RiskManager.state)
    (portfolio : PortfolioManager.state) (now : string) (signals : list Signal)
    : PortfolioManager.state :=
  let filtered_signals :=
    RiskFilter.filter_signals PortfolioManager.Position PortfolioManager.pos_side
      risk_manager signals (PortfolioReport.get_current_positions portfolio) in
  foldl (fun portfolio signal => execute_trade risk_manager portfolio now signal)
        portfolio filtered_signals.

End Cycle.

End FortuneBot.

(** ** strategies/strategy_manager.py: running the strategies *)

Module StrategyRunner.
Local Open Scope Q_scope.

Section Analyze.

(** A strategy object, and its [analyze]: the list of signals it returns
    ([None] when it raises or returns something else than a list) and the
    strategy as the call leaves it. *)
Variable S : Type.
Variable analyze : S -> list Bar -> option (list Signal) * S.

(** The loop over [self.strategies.items()] with the gathering of the
    results: a strategy is run on [market_data[strategy_name]] when that key
    exists, and the signals of the runs that returned a list are collected
    in the order of the strategies. *)
Definition run_strategy (market_data : gmap string (list Bar))
    (acc : list Signal * list (string * S)) (entry : string * S)
    : list Signal * list (string * S) :=
  match market_data !! entry.1 with
  | Some data =>
      let '(result, strategy') := analyze entry.2 data in
      (match result with
       | Some signals => acc.1 ++ signals
       | None => acc.1
       end,
       acc.2 ++ [(entry.1, strategy')])
  | None => (acc.1, acc.2 ++ [entry])
  end.

(** [StrategyManager.analyze_market]: the filtered signals, and the
    strategies as the calls leave them. *)
Definition analyze_market (strategies : list (string * S))
    (market_data : gmap string (list Bar))
    : list Signal * list (string * S) :=
  let '(all_signals, strategies') :=
    foldl (run_strategy market_data) ([], []) strategies in
  (StrategyManager._filter_and_prioritize_signals all_signals, strategies').

End Analyze.

End StrategyRunner.

(** ** The rows of an indicator frame *)

Module Frame.
Import BaseStrategy.

(** [data.iloc[i]]: the bar and the indicator values of one row. *)
Record Row : Type := mkRow {
  bar : Bar;
  row_rsi : fnum;
  row_macd : fnum;
  row_macd_signal : fnum;
  row_macd_histogram : fnum;
  row_bb_middle : fnum;
  row_bb_upper : fnum;
  row_bb_lower : fnum;
  row_sma_20 : fnum;
  row_sma_50 : fnum;
  row_ema_12 : fnum;
  row_ema_26 : fnum;
  row_volume_sma : fnum
}.

Definition iloc (f : IndicatorFrame) (i : nat) : option Row :=
  b ← rows f !! i;
  v1 ← rsi f !! i;
  v2 ← macd f !! i;
  v3 ← macd_signal f !! i;
  v4 ← macd_histogram f !! i;
  v5 ← bb_middle f !! i;
  v6 ← bb_upper f !! i;
  v7 ← bb_lower f !! i;
  v8 ← sma_20 f !! i;
  v9 ← sma_50 f !! i;
  v10 ← ema_12 f !! i;
  v11 ← ema_26 f !! i;
  v12 ← volume_sma f !! i;
  Some (mkRow b v1 v2 v3 v4 v5 v6 v7 v8 v9 v10 v11 v12).

(** [data.iloc[-k]] for k >= 1: [None] stands for the IndexError of a frame
    with fewer than k rows. *)
Definition iloc_back (f : IndicatorFrame) (k : nat) : option Row :=
  if (length (rows f) <? k)%nat then None else iloc f (length (rows f) - k).

End Frame.

(** ** strategies/rsi_strategy.py *)

Module RSIStrategy.
Import Frame.
Local Open Scope Q_scope.

Record Params : Type := mkParams {
  rsi_period : nat;
  oversold_threshold : Q;
  overbought_threshold : Q;
  min_volume_ratio : Q
}.

(** [RSIStrategy.get_default_params] *)
Definition get_default_params : Params :=
  {| rsi_period := 14;
     oversold_threshold := 30;
     overbought_threshold := 70;
     min_volume_ratio := 12 # 10 |}.

(** [RSIStrategy._calculate_confidence] *)
Definition _calculate_confidence (data_point : Row) (side : string) : fnum :=
  let base_confidence := Fin (6 # 10) in
  let rsi_factor :=
    if String.eqb side "buy"
    then pymin (Fin 1) (fdiv (fsub (Fin 40) (row_rsi data_point)) (Fin 10))
    else pymin (Fin 1) (fdiv (fsub (row_rsi data_point) (Fin 60)) (Fin 10)) in
  let volume_factor :=
    pymin (Fin 1)
          (fdiv (Fin (volume (bar data_point))) (row_volume_sma data_point)) in
  let confidence :=
    fadd (fadd base_confidence (fmul rsi_factor (Fin (2 # 10))))
         (fmul volume_factor (Fin (2 # 10))) in
  pymin (Fin 1) (pymax (Fin (1 # 10)) confidence).

Section Analyze.

Variable sqrtQ : Q -> Q.

(** The symbol of a signal is [latest.name], the index label of the latest
    row; [label] is that label as a symbol. [fmt2] is the rendering
    [f"{x:.2f}"] of a float. *)
Variable label : Z -> string.
Variable fmt2 : fnum -> string.

(** [RSIStrategy.analyze]; [None] is the IndexError of [data.iloc[-2]] on a
    one-row frame. The keys ['type'], ['stop_loss'] and ['take_profit'] of
    the signal are not part of [Signal]. *)
Definition analyze (params : Params) (data : list Bar) : option (list Signal) :=
  if (length data <? rsi_period params + 1)%nat then Some []
  else
    let frame := BaseStrategy.calculate_indicators sqrtQ data in
    latest ← iloc_back frame 1;
    previous ← iloc_back frame 2;
    if fleb (row_rsi previous) (Fin (oversold_threshold params))
       && fgtb (row_rsi latest) (Fin (oversold_threshold params))
       && fgtb (Fin (volume (bar latest)))
               (fmul (row_volume_sma latest) (Fin (min_volume_ratio params)))
    then
      Some [ {| strategy := "RSI";
                symbol := label (timestamp (bar latest));
                side := "buy";
                confidence := to_Q (_calculate_confidence latest "buy");
                reason := "RSI sortie survente: " ++ fmt2 (row_rsi latest) |} ]
    else if fgeb (row_rsi previous) (Fin (overbought_threshold params))
            && fltb (row_rsi latest) (Fin (overbought_threshold params))
            && fgtb (Fin (volume (bar latest)))
                    (fmul (row_volume_sma latest) (Fin (min_volume_ratio params)))
    then
      Some [ {| strategy := "RSI";
                symbol := label (timestamp (bar latest));
                side := "sell";
                confidence := to_Q (_calculate_confidence latest "sell");
                reason := "RSI sortie surachat: " ++ fmt2 (row_rsi latest) |} ]
    else Some [].

End Analyze.

End RSIStrategy.

(** ** strategies/macd_strategy.py *)

Module MACDStrategy.
Import Frame.
Local Open Scope Q_scope.

Record Params : Type := mkParams {
  fast_period : nat;
  slow_period : nat;
  signal_period : nat;
  min_histogram_change : Q
}.

(** [MACDStrategy.get_default_params] *)
Definition get_default_params : Params :=
  {| fast_period := 12;
     slow_period := 26;
     signal_period := 9;
     min_histogram_change := 1 # 1000 |}.

(** [MACDStrategy._calculate_confidence] *)
Definition _calculate_confidence (data_point : Row) (side : string) : fnum :=
  let base_confidence := Fin (65 # 100) in
  let macd_strength := fabs (row_macd_histogram data_point) in
  let macd_factor := pymin (Fin (3 # 10)) (fmul macd_strength (Fin 100)) in
  let trend_factor :=
    if String.eqb side "buy" && fgtb (row_sma_20 data_point) (row_sma_50 data_point)
    then Fin (1 # 10)
    else if String.eqb side "sell"
            && fltb (row_sma_20 data_point) (row_sma_50 data_point)
    then Fin (1 # 10)
    else Fin 0 in
  let confidence := fadd (fadd base_confidence macd_factor) trend_factor in
  pymin (Fin 1) (pymax (Fin (1 # 10)) confidence).

Section Analyze.

Variable sqrtQ : Q -> Q.
Variable label : Z -> string.
Variable fmt4 : fnum -> string.

(** [MACDStrategy.analyze] *)
Definition analyze (params : Params) (data : list Bar) : option (list Signal) :=
  if (length data <? slow_period params + signal_period params)%nat then Some []
  else
    let frame := BaseStrategy.calculate_indicators sqrtQ data in
    latest ← iloc_back frame 1;
    previous ← iloc_back frame 2;
    if fleb (row_macd previous) (row_macd_signal previous)
       && fgtb (row_macd latest) (row_macd_signal latest)
       && fgtb (row_macd_histogram latest) (Fin (min_histogram_change params))
    then
      Some [ {| strategy := "MACD";
                symbol := label (timestamp (bar latest));
                side := "buy";
                confidence := to_Q (_calculate_confidence latest "buy");
                reason := "MACD croisement haussier: " ++ fmt4 (row_macd latest) |} ]
    else if fgeb (row_macd previous) (row_macd_signal previous)
            && fltb (row_macd latest) (row_macd_signal latest)
            && fltb (row_macd_histogram latest)
                    (Fin (- min_histogram_change params))
    then
      Some [ {| strategy := "MACD";
                symbol := label (timestamp (bar latest));
                side := "sell";
                confidence := to_Q (_calculate_confidence latest "sell");
                reason := "MACD croisement baissier: " ++ fmt4 (row_macd latest) |} ]
    else Some [].

End Analyze.

End MACDStrategy.

(** ** strategies/dca_strategy.py *)

Module DCAStrategy.
Local Open Scope Q_scope.

Record Params : Type := mkParams {
  interval_hours : Q;
  base_amount : Q;
  volatility_multiplier : Q;
  trend_filter : bool;
  max_drawdown_stop : Q
}.

(** [DCAStrategy.get_default_params] *)
Definition get_default_params : Params :=
  {| interval_hours := 24;
     base_amount := 50;
     volatility_multiplier := 15 # 10;
     trend_filter := true;
     max_drawdown_stop := 20 # 100 |}.

(** [DCAStrategy._calculate_current_portfolio_value] *)
Definition _calculate_current_portfolio_value : Q := 0.

(** [DCAStrategy._check_max_drawdown], on the amounts of the purchase
    history. *)
Definition _check_max_drawdown (params : Params) (purchase_history : list Q) : bool :=
  match purchase_history with
  | [] => false
  | _ :: _ =>
      let total_invested := Qsum purchase_history in
      let current_value := _calculate_current_portfolio_value in
      if Qltb 0 current_value then
        let drawdown := (total_invested - current_value) / total_invested in
        Qltb (max_drawdown_stop params) drawdown
      else false
  end.

(** [DCAStrategy._calculate_purchase_amount], from the volatility it reads
    off the frame (the last row of the 20-bar rolling deviation of the
    returns, NaN when there are not enough rows). *)
Definition _calculate_purchase_amount (params : Params) (volatility : fnum) : fnum :=
  let base_amount := Fin (base_amount params) in
  let volatility_factor :=
    pymin (Fin 2)
          (fmul (fmul volatility (Fin (volatility_multiplier params))) (Fin 100)) in
  let adjusted_amount := fmul base_amount volatility_factor in
  pymax (fmul base_amount (Fin (5 # 10)))
        (pymin (fmul base_amount (Fin 2)) adjusted_amount).

End DCAStrategy.

(** ** strategies/grid_strategy.py *)

Module GridStrategy.
Local Open Scope Q_scope.

Record Params : Type := mkParams {
  grid_size : Q;
  num_levels : Z;
  base_amount : Q;
  volatility_threshold : Q
}.

(** [GridStrategy.get_default_params] *)
Definition get_default_params : Params :=
  {| grid_size := 1 # 100;
     num_levels := 10;
     base_amount := 100;
     volatility_threshold := 2 # 100 |}.

Record Level : Type := mkLevel {
  price : Q;
  level_side : string;
  active : bool;
  filled : bool
}.

(** [range(lo, hi)] *)
Definition range (lo hi : Z) : list Z :=
  map (fun k => (lo + Z.of_nat k)%Z) (seq 0 (Z.to_nat (hi - lo))).

(** [GridStrategy._setup_grid]: the new [grid_levels]; [//] is the floor
    division. *)
Definition _setup_grid (params : Params) (center_price : Q) : list Level :=
  map (fun i =>
         {| price := center_price * (1 + inject_Z i * grid_size params);
            level_side := if (i <? 0)%Z then "buy" else "sell";
            active := true;
            filled := false |})
      (range (- num_levels params / 2) (num_levels params / 2 + 1)).

(** [GridStrategy._should_place_order] *)
Definition _should_place_order (current_price : Q) (level : Level) : bool :=
  if negb (active level) || filled level then false
  else
    let price_diff :=
      fdiv (fabs (Fin (current_price - price level))) (Fin (price level)) in
    fltb price_diff (Fin (1 # 1000)).

Section Signals.

Variable fmt4 : fnum -> string.

(** [GridStrategy._create_grid_signal]; the keys ['type'], ['price'] and
    ['amount'] of the signal are not part of [Signal]. *)
Definition _create_grid_signal (level : Level) (current_price : Q) : Signal :=
  {| strategy := "Grid";
     symbol := "UNKNOWN";
     side := level_side level;
     confidence := 8 # 10;
     reason := "Grid level " ++ level_side level ++ " à " ++ fmt4 (Fin (price level)) |}.

(** The loop of [analyze] over [self.grid_levels]. *)
Definition grid_signals (grid_levels : list Level) (current_price : Q) : list Signal :=
  flat_map (fun level =>
              if _should_place_order current_price level
              then [_create_grid_signal level current_price]
              else [])
           grid_levels.

End Signals.

End GridStrategy.

(** ** utils/risk_management.py: the drawdown of the risk metrics *)

Module RiskMetrics.
Local Open Scope Q_scope.

(** [np.cumsum] *)
Fixpoint cumsum_from (acc : Q) (l : list Q) : list Q :=
  match l with
  | [] => []
  | x :: rest => (acc + x) :: cumsum_from (acc + x) rest
  end.

Definition cumsum (l : list Q) : list Q := cumsum_from 0 l.

(** [np.maximum.accumulate] *)
Fixpoint maximum_accumulate_from (m : Q) (l : list Q) : list Q :=
  match l with
  | [] => []
  | x :: rest =>
      let m' := if Qltb m x then x else m in
      m' :: maximum_accumulate_from m' rest
  end.

Definition maximum_accumulate (l : list Q) : list Q :=
  match l with
  | [] => []
  | x :: rest => x :: maximum_accumulate_from x rest
  end.

(** [np.min]: NaN as soon as one entry is NaN; no value on an empty array. *)
Definition np_min2 (a b : fnum) : fnum :=
  match a, b with
  | NaN, _ | _, NaN => NaN
  | _, _ => if fltb b a then b else a
  end.

Definition np_min (l : list fnum) : option fnum :=
  match l with
  | [] => None
  | x :: rest => Some (foldl np_min2 x rest)
  end.

(** [RiskManager._calculate_max_drawdown] *)
Definition _calculate_max_drawdown (profits : list Q) : fnum :=
  match profits with
  | [] => Fin 0
  | _ :: _ =>
      let cumulative := cumsum profits in
      let running_max := maximum_accumulate cumulative in
      let drawdown :=
        zip_with (fun c m => fdiv (fsub (Fin c) (Fin m)) (Fin m))
                 cumulative running_max in
      match np_min drawdown with
      | Some lowest => fabs lowest
      | None => Fin 0
      end
  end.

End RiskMetrics.

(** ** strategies/base_strategy.py: the performance history *)

Module StrategyPerformance.
Local Open Scope Q_scope.

(** The dict [get_performance_metrics] returns on a non-empty history. *)
Record Metrics : Type := mkMetrics {
  total_trades : nat;
  win_rate : Q;
  avg_profit : Q;
  max_profit : Q;
  max_loss : Q;
  total_profit : Q
}.

(** [BaseStrategy.update_performance], on the ['profit'] of the trade
    result (the only key the metrics read). *)
Definition update_performance (performance_history : list Q) (profit : Q) : list Q :=
  performance_history ++ [profit].

(** Python's [max], [min] and [sum] of a list. *)
Definition py_max (x : Q) (rest : list Q) : Q :=
  foldl (fun best y => if Qltb best y then y else best) x rest.

Definition py_min (x : Q) (rest : list Q) : Q :=
  foldl (fun best y => if Qltb y best then y else best) x rest.

Definition py_sum (l : list Q) : Q := foldl Qplus 0 l.

(** [BaseStrategy.get_performance_metrics]; [None] is the empty dict. *)
Definition get_performance_metrics (performance_history : list Q) : option Metrics :=
  match performance_history with
  | [] => None
  | p :: rest =>
      let profits := performance_history in
      Some {| total_trades := length performance_history;
              win_rate := inject_Z (Z.of_nat (length (List.filter (fun p => Qltb 0 p) profits)))
                          / inject_Z (Z.of_nat (length profits));
              avg_profit := Qmean profits;
              max_profit := py_max p rest;
              max_loss := py_min p rest;
              total_profit := py_sum profits |}
  end.

End StrategyPerformance.

(** * Specification-level definitions

    The notions the statements below are phrased with, and the concrete
    ledgers, histories and series they are evaluated on. *)

Section BacktestEngineSpec.
Import BacktestEngine.
Local Open Scope Q_scope.

(** The mark-to-market sum of [_calculate_current_equity], for any cash and
    any positions mapping. *)
Definition mark_to_market (price : Q) (cash : Q) (m : gmap string Position) : Q :=
  map_fold (fun (_ : string) (p : Position) (acc : Q) => acc + quantity p * price)
           cash m.


(** A bar whose four prices are the same, with unit volume. *)
Definition flat_bar (t : Z) (price : Q) : Bar :=
  {| timestamp := t; open := price; high := price; low := price;
     close := price; volume := 1 |}.

(** A signal of the RSI strategy for a symbol and a side. *)
Definition market_signal (sym sd : string) : Signal :=
  {| strategy := "RSI"; symbol := sym; side := sd;
     confidence := 7 # 10; reason := "" |}.


(** A strategy manager that never signals. *)
Definition silent_manager (_ : unit) (_ : list Bar) : list Signal * unit := ([], tt).

End BacktestEngineSpec.

Section BaseStrategySpec.
Import BaseStrategy.
Local Open Scope Q_scope.

(** The RSI of a row from its relative strength. *)
Definition rsi_of (rs : fnum) : fnum :=
  fsub (Fin 100) (fdiv (Fin 100) (fadd (Fin 1) rs)).

(** Fifteen bars, each closing one above the previous one. *)
Definition rising_bars : list Bar :=
  map (fun i => flat_bar (Z.of_nat i) (inject_Z (Z.of_nat (100 + i)))) (seq 0 15).

(** Fourteen bars closing at 100. *)
Definition steady_bars : list Bar :=
  map (fun i => flat_bar (Z.of_nat i) 100) (seq 0 14).

End BaseStrategySpec.

Section StrategyManagerSpec.
Import StrategyManager.
Local Open Scope Q_scope.

(** The signals of the input that name a symbol, in input order. *)
Definition group_of (sym : string) (signals : list Signal) : list Signal :=
  filter (fun s => symbol s = sym) signals.

(** The list a symbol maps to in the grouping dict ([[]] when absent). *)
Fixpoint group_get (d : list (string * list Signal)) (sym : string) : list Signal :=
  match d with
  | [] => []
  | (k, g) :: rest => if String.eqb k sym then g else group_get rest sym
  end.

(** What one group contributes to [best_signals]. *)
Definition pick (symbol_signals : list Signal) : list Signal :=
  let sorted := sort_by_confidence symbol_signals in
  if _signals_are_coherent sorted then take 1 sorted else [].

(** The output, group after group in the order of the dict. *)
Fixpoint picks (d : list (string * list Signal)) : list Signal :=
  match d with
  | [] => []
  | (_, g) :: rest => pick g ++ picks rest
  end.

End StrategyManagerSpec.

Section RiskManagerSpec.
Import RiskManager.
Local Open Scope Q_scope.

(** The trades of a strategy in the history. *)
Definition history_of (self : state) (strategy_name : string) : list TradeResult :=
  List.filter (is_strategy strategy_name) (trade_history self).

(** Its winning trades. *)
Definition wins_of (self : state) (strategy_name : string) : list TradeResult :=
  List.filter (fun t => Qltb 0 (tr_profit t)) (history_of self strategy_name).

(** Three wins of 100 and two losses of 50 recorded for the strategy. *)
Definition sixty_percent_history : list TradeResult :=
  [ mkTradeResult (Some "RSI") 100; mkTradeResult (Some "RSI") (-50);
    mkTradeResult (Some "RSI") 100; mkTradeResult (Some "MACD") 7;
    mkTradeResult (Some "RSI") (-50); mkTradeResult (Some "RSI") 100 ].

End RiskManagerSpec.

Section PortfolioManagerSpec.
Import PortfolioManager.
Local Open Scope Q_scope.

(** A paper portfolio with its initial balance of 10000 and no position. *)
Definition fresh_portfolio : state :=
  {| mode := "paper"; balance := 10000; positions := ∅;
     trade_history := []; saved := None |}.

End PortfolioManagerSpec.

Section BacktestEngineInvariants.
Import BacktestEngine.
Local Open Scope Q_scope.

(** A ledger without overdraft and without short position. *)
Definition ledger_ok (self : state) : Prop :=
  0 <= capital self /\
  map_Forall (fun (_ : string) (p : Position) => 0 <= quantity p) (positions self).

(** Once a trade is on the ledger, so is an equity point. *)
Definition curve_covers_trades (self : state) : Prop :=
  trades self = [] \/ equity_curve self <> [].

(** Every Python number on the ledger of an engine created with the capital
    [c0] is [c0] itself: the capital until the first fill, and the equity
    points recorded until then. *)
Definition python_numbers_are (c0 : Q) (self : state) : Prop :=
  initial_capital self = c0 /\
  (capital_kind self = PyNumber -> capital self = c0) /\
  Forall (fun point => ep_kind point = PyNumber -> ep_equity point = c0)
         (equity_curve self).

(** A strategy manager that keeps a call counter and signals a buy of X on
    its even calls and a sell of X on its odd calls. *)
Definition alternating_manager (calls : nat) (_ : list Bar) : list Signal * nat :=
  ([market_signal "X" (if Nat.even calls then "buy" else "sell")], S calls).

(** A strategy manager that is silent on its first call, signals a buy of X
    on its second and a sell of X from then on. *)
Definition late_manager (calls : nat) (_ : list Bar) : list Signal * nat :=
  (match calls with
   | O => []
   | S O => [market_signal "X" "buy"]
   | _ => [market_signal "X" "sell"]
   end, S calls).

(** Fifty-two bars closing at 100. *)
Definition fifty_two_bars : list Bar :=
  map (fun i => flat_bar (Z.of_nat i) 100) (seq 0 52).

(** The run of the alternating manager over the fifty-two bars: a buy on bar
    50, a sell on bar 51, a buy on bar 52. *)
Definition alternating_run : result * state :=
  run_backtest nat alternating_manager Qsqrt_approx 0%nat (init 10000)
               fifty_two_bars 0 100.

End BacktestEngineInvariants.

Section RiskManagerMoreSpec.
Import RiskManager.
Local Open Scope Q_scope.

(** The configured risk per trade, 0.02 when the key is absent. *)
Definition risk_per_trade (self : state) : Q :=
  default (2 # 100) (default_risk_per_trade (config self)).

(** A manager with three wins of 100 and two losses of 50 for RSI. *)
Definition sixty_percent_manager : state :=
  foldl record_trade (init (mkConfig None None None None)) sixty_percent_history.

End RiskManagerMoreSpec.

Section PortfolioManagerMoreSpec.
Import PortfolioManager.
Local Open Scope Q_scope.

(** A portfolio without overdraft, whose positions are all long and of
    non-negative quantity. *)
Definition portfolio_ok (self : state) : Prop :=
  0 <= balance self /\
  map_Forall (fun (_ : string) (p : Position) =>
                0 <= quantity p /\ pos_side p = "long") (positions self).

(** The sum [get_portfolio_value] computes, for any cash and any mapping:
    cash plus the value [f symbol position] of every position. *)
Definition weighted_sum {A} (f : string -> A -> Q) (cash : Q) (m : gmap string A) : Q :=
  map_fold (fun (k : string) (p : A) (acc : Q) => acc + f k p) cash m.

(** The table value of a position. *)
Definition table_value (symbol : string) (p : Position) : Q :=
  quantity p * _get_current_price symbol.

End PortfolioManagerMoreSpec.

Section StrategiesMoreSpec.
Local Open Scope Q_scope.

(** Twenty bars falling by one from 200, then a bar that rises by ten on
    twice the volume: the RSI leaves the oversold zone on the last bar. *)
Definition rebound_bars : list Bar :=
  map (fun i => flat_bar (Z.of_nat i) (inject_Z (200 - Z.of_nat i))) (seq 0 20)
  ++ [ {| timestamp := 20; open := 181; high := 191; low := 181;
          close := 191; volume := 2 |} ].

(** Thirty-four bars closing at 100, then one closing at 110: the MACD line
    crosses above its signal line on the last bar. *)
Definition breakout_bars : list Bar :=
  map (fun i => flat_bar (Z.of_nat i) 100) (seq 0 34) ++ [flat_bar 34 110].

(** The symbol and the float rendering used in the examples. *)
Definition btc_label (_ : Z) : string := "BTCUSDT".
Definition no_digits (_ : fnum) : string := "".

End StrategiesMoreSpec.

Section GridMoreSpec.
Import GridStrategy.
Local Open Scope Q_scope.

(** The level [i] steps from the center of a fresh grid. *)
Definition level_at (params : Params) (center_price : Q) (i : Z) : Level :=
  {| price := center_price * (1 + inject_Z i * grid_size params);
     level_side := if (i <? 0)%Z then "buy" else "sell";
     active := true;
     filled := false |}.

End GridMoreSpec.


(** * Theorems *)

(** ** The simulation ledger *)

Section BacktestEngineProofs.
Import BacktestEngine.
Local Open Scope Q_scope.

Lemma equity_is_mark_to_market self b :
  _calculate_current_equity self b = mark_to_market (close b) (capital self) (positions self).
Proof. reflexivity. Qed.

Lemma mtm_step_proper price (j : string) (z : Position) :
  Proper (Qeq ==> Qeq) (fun acc : Q => acc + quantity z * price).
Proof. intros x y Hxy. rewrite Hxy. reflexivity. Qed.

Lemma mtm_insert_fresh price cash (m : gmap string Position) k p :
  m !! k = None ->
  mark_to_market price cash (<[k := p]> m)
  == mark_to_market price cash m + quantity p * price.
Proof.
  intros Hk. unfold mark_to_market.
  apply (map_fold_insert Qeq
           (fun (_ : string) (p : Position) (acc : Q) => acc + quantity p * price)).
  - intros j z. apply mtm_step_proper; exact j.
  - intros. ring.
  - exact Hk.
Qed.

Lemma mtm_delete price cash (m : gmap string Position) k p :
  m !! k = Some p ->
  mark_to_market price cash m
  == mark_to_market price cash (delete k m) + quantity p * price.
Proof.
  intros Hk. unfold mark_to_market.
  apply (map_fold_delete Qeq
           (fun (_ : string) (p : Position) (acc : Q) => acc + quantity p * price)).
  - intros j z. apply mtm_step_proper; exact j.
  - intros. ring.
  - exact Hk.
Qed.

Lemma mtm_replace price cash (m : gmap string Position) k p p' :
  m !! k = Some p ->
  mark_to_market price cash (<[k := p']> m)
  == mark_to_market price cash m - quantity p * price + quantity p' * price.
Proof.
  intros Hk. rewrite <- (insert_delete_eq m k p').
  rewrite mtm_insert_fresh by apply lookup_delete_eq.
  rewrite (mtm_delete price cash m k p Hk). ring.
Qed.

Lemma mtm_cash price (m : gmap string Position) :
  forall cash x,
    mark_to_market price (cash + x) m == mark_to_market price cash m + x.
Proof.
  induction m as [|k p m Hk IH] using map_ind; intros cash x.
  - unfold mark_to_market. rewrite !map_fold_empty. reflexivity.
  - rewrite !mtm_insert_fresh by exact Hk. rewrite IH. ring.
Qed.

Lemma mtm_cash_eq price (m : gmap string Position) cash cash' :
  cash == cash' -> mark_to_market price cash m == mark_to_market price cash' m.
Proof.
  revert cash cash'.
  induction m as [|k p m Hk IH] using map_ind; intros cash cash' H.
  - unfold mark_to_market. rewrite !map_fold_empty. exact H.
  - rewrite !mtm_insert_fresh by exact Hk. rewrite (IH _ _ H). reflexivity.
Qed.

(** What a sell on an open position does, field by field. *)
Lemma sell_fill self signal b p :
  side signal = "sell" ->
  positions self !! symbol signal = Some p ->
  let sold := Qmin (position_size self b) (quantity p) in
  _execute_backtest_trade self signal b
  = {| initial_capital := initial_capital self;
       capital := capital self + sold * close b;
       capital_kind := NpFloat;
       positions :=
         if Qle_bool (quantity p - sold) (1 # 1000)
         then delete (symbol signal) (positions self)
         else <[symbol signal :=
                  {| quantity := quantity p - sold;
                     avg_price := avg_price p;
                     entry_time := entry_time p |}]> (positions self);
       trades :=
         trades self
         ++ [ {| t_timestamp := timestamp b;
                 t_symbol := symbol signal;
                 t_side := "sell";
                 t_quantity := sold;
                 t_price := close b;
                 t_profit := (close b - avg_price p) * sold;
                 t_strategy := strategy signal |} ];
       equity_curve := equity_curve self |}.
Proof.
  intros Hside Hp sold. unfold _execute_backtest_trade.
  rewrite Hside, Hp. reflexivity.
Qed.

(** What an affordable buy does, field by field. *)
Lemma buy_fill self signal b :
  side signal = "buy" ->
  position_size self b * close b <= capital self ->
  _execute_backtest_trade self signal b
  = {| initial_capital := initial_capital self;
       capital := capital self - position_size self b * close b;
       capital_kind := NpFloat;
       positions :=
         <[symbol signal :=
             match positions self !! symbol signal with
             | Some p =>
                 {| quantity := quantity p + position_size self b;
                    avg_price :=
                      (quantity p * avg_price p + position_size self b * close b)
                      / (quantity p + position_size self b);
                    entry_time := entry_time p |}
             | None =>
                 {| quantity := position_size self b;
                    avg_price := close b;
                    entry_time := timestamp b |}
             end]> (positions self);
       trades := trades self;
       equity_curve := equity_curve self |}.
Proof.
  intros Hside Hcost. unfold _execute_backtest_trade. rewrite Hside.
  apply Qle_bool_iff in Hcost. simpl String.eqb. cbv iota.
  rewrite Hcost. reflexivity.
Qed.

Lemma buy_cost self b :
  0 < close b -> position_size self b * close b == capital self * (2 # 100).
Proof. intros Hc. unfold position_size. field. lra. Qed.

Lemma position_size_pos self b :
  0 < capital self -> 0 < close b -> 0 < position_size self b.
Proof.
  intros Hcap Hc. unfold position_size.
  apply Qlt_shift_div_l; [exact Hc|]. lra.
Qed.



Lemma fill_keeps_equity_curve self signal b :
  equity_curve (_execute_backtest_trade self signal b) = equity_curve self.
Proof.
  unfold _execute_backtest_trade.
  destruct (String.eqb (side signal) "buy").
  - destruct (Qle_bool _ _); reflexivity.
  - destruct (String.eqb (side signal) "sell"); [|reflexivity].
    destruct (positions self !! symbol signal); reflexivity.
Qed.






(** A sell on an open position whose remainder is below the dust threshold
    removes the position, whether or not the whole quantity was sold. *)
Lemma sell_removes_dust self signal b p :
  side signal = "sell" ->
  positions self !! symbol signal = Some p ->
  quantity p - Qmin (position_size self b) (quantity p) < 1 # 1000 ->
  positions (_execute_backtest_trade self signal b) !! symbol signal = None.
Proof.
  intros Hside Hp Hrem. rewrite (sell_fill self signal b p Hside Hp). simpl.
  assert (H : Qle_bool (quantity p - Qmin (position_size self b) (quantity p))
                       (1 # 1000) = true) by (apply Qle_bool_iff; lra).
  rewrite H. apply lookup_delete_eq.
Qed.

(** C10, as the code has it. A fill at a bar's (positive) close leaves the
    mark-to-market equity at that close unchanged for every buy, and for
    every sell that keeps the position open or sells all of it; a sell that
    leaves a remainder of at most 0.001 deletes the position, and the equity
    drops by that remainder valued at the close. *)
Theorem fill_preserves_equity_up_to_dust self signal b :
  0 < close b ->
  let self' := _execute_backtest_trade self signal b in
  let equity := _calculate_current_equity self b in
  let equity' := _calculate_current_equity self' b in
  (side signal = "buy" -> equity' == equity) /\
  (side signal = "sell" -> positions self !! symbol signal = None ->
   equity' == equity) /\
  (side signal = "sell" ->
   forall p, positions self !! symbol signal = Some p ->
     let remaining := quantity p - Qmin (position_size self b) (quantity p) in
     (1 # 1000 < remaining -> equity' == equity) /\
     (remaining <= 1 # 1000 -> equity' == equity - remaining * close b)).
Proof.
  intros Hc self' equity equity'. subst self' equity equity'.
  rewrite !equity_is_mark_to_market. repeat split.
  - intros Hside. unfold _execute_backtest_trade. rewrite Hside. simpl String.eqb.
    cbv iota. cbv zeta. destruct (Qle_bool _ _); [|reflexivity]. simpl.
    unfold Qminus at 1. rewrite mtm_cash.
    destruct (positions self !! symbol signal) as [p|] eqn:Hp.
    + rewrite (mtm_replace _ _ _ _ p _ Hp). simpl. ring.
    + rewrite (mtm_insert_fresh _ _ _ _ _ Hp). simpl. ring.
  - intros Hside Hnone. unfold _execute_backtest_trade.
    rewrite Hside, Hnone. reflexivity.
  - intros Hrem. rewrite (sell_fill self signal b p H H0). simpl.
    assert (Hkeep : Qle_bool (quantity p - Qmin (position_size self b) (quantity p))
                             (1 # 1000) = false).
    { destruct (Qle_bool _ _) eqn:E; [|reflexivity].
      apply Qle_bool_iff in E. lra. }
    rewrite Hkeep, mtm_cash, (mtm_replace _ _ _ _ p _ H0). simpl. ring.
  - intros Hrem. rewrite (sell_fill self signal b p H H0). simpl.
    apply Qle_bool_iff in Hrem. rewrite Hrem.
    rewrite mtm_cash, (mtm_delete _ (capital self) _ _ p H0). ring.
Qed.

Lemma fill_preserves_equity_up_to_dust_witness :
  let self := _execute_backtest_trade (init 10000) (market_signal "X" "buy")
                                      (flat_bar 1 50000) in
  let b := flat_bar 2 50000 in
  _calculate_current_equity
    (_execute_backtest_trade self (market_signal "X" "buy") b) b
  == _calculate_current_equity self b.
Proof.
  intros self b.
  destruct (fill_preserves_equity_up_to_dust self (market_signal "X" "buy") b)
    as [Hbuy _].
  - reflexivity.
  - apply Hbuy. reflexivity.
Defined.

(** C10 as stated fails: two percent of 10000 buys 0.004 units at 50000;
    the next sell, at the same close, sells 0.00392 of them, the remaining
    0.00008 are deleted as dust, and the equity drops from 10000 to 9996. *)
Lemma dust_sell_loses_equity :
  let self := _execute_backtest_trade (init 10000) (market_signal "X" "buy")
                                      (flat_bar 1 50000) in
  let b := flat_bar 2 50000 in
  let self' := _execute_backtest_trade self (market_signal "X" "sell") b in
  _calculate_current_equity self b == 10000 /\
  _calculate_current_equity self' b == 9996 /\
  ~ _calculate_current_equity self' b == _calculate_current_equity self b.
Proof.
  vm_compute. repeat split; intros H; discriminate H.
Qed.

Section RunProofs.

Variable SM : Type.
Variable analyze_market : SM -> list Bar -> list Signal * SM.
Variable sqrtQ : Q -> Q.

Local Abbreviation bar_step := (bar_step SM analyze_market).
Local Abbreviation simulate := (simulate SM analyze_market).
Local Abbreviation run_backtest := (run_backtest SM analyze_market sqrtQ).

Lemma signals_keep_equity_curve b signals :
  forall self,
    equity_curve
      (foldl (fun self signal => _execute_backtest_trade self signal b) self signals)
    = equity_curve self.
Proof.
  induction signals as [|s signals IH]; intros self; [reflexivity|].
  simpl. rewrite IH. apply fill_keeps_equity_curve.
Qed.

Lemma simulate_S test_data n acc :
  simulate test_data (S n) acc = bar_step test_data (simulate test_data n acc) n.
Proof.
  unfold BacktestEngine.simulate. rewrite seq_S, foldl_app. reflexivity.
Qed.

(** Before the 50th bar the iteration is skipped whole: no fill, no point. *)
Lemma bar_step_skips test_data acc i :
  (i < 49)%nat -> bar_step test_data acc i = acc.
Proof.
  intros Hi. unfold BacktestEngine.bar_step.
  assert (H : (length (take (S i) test_data) <? 50)%nat = true).
  { apply Nat.ltb_lt. rewrite length_take. lia. }
  rewrite H. reflexivity.
Qed.

(** From the 50th bar on the iteration appends one point, valued on the
    ledger as the fills of that bar leave it. *)
Lemma bar_step_records test_data acc i b :
  test_data !! i = Some b -> (49 <= i)%nat ->
  let self' := (bar_step test_data acc i).2 in
  equity_curve self'
  = equity_curve acc.2
    ++ [ {| ep_timestamp := timestamp b;
            ep_equity := _calculate_current_equity self' b;
            ep_capital := capital self';
            ep_kind := current_equity_kind self' |} ].
Proof.
  intros Hb Hi. unfold BacktestEngine.bar_step.
  assert (Hlen : (length (take (S i) test_data) <? 50)%nat = false).
  { apply Nat.ltb_ge. rewrite length_take.
    apply lookup_lt_Some in Hb. lia. }
  rewrite Hlen, (take_S_r _ _ _ Hb), last_snoc.
  destruct (analyze_market acc.1 (take i test_data ++ [b])) as [signals sm'].
  simpl. rewrite signals_keep_equity_curve. reflexivity.
Qed.

Lemma simulate_curve_length test_data acc :
  forall n, (n <= length test_data)%nat ->
    length (equity_curve (simulate test_data n acc).2)
    = (length (equity_curve acc.2) + (n - 49))%nat.
Proof.
  induction n as [|n IH]; intros Hn.
  - unfold BacktestEngine.simulate. simpl. lia.
  - rewrite simulate_S.
    destruct (lookup_lt_is_Some_2 test_data n) as [b Hb]; [lia|].
    destruct (Nat.lt_ge_cases n 49) as [Hlt|Hge].
    + rewrite bar_step_skips by exact Hlt. rewrite IH by lia. lia.
    + rewrite (bar_step_records _ _ _ _ Hb Hge), length_app, IH by lia.
      simpl. lia.
Qed.

(** C2, as the code has it. The loop appends no equity point for the first
    49 bars of the filtered series (the iteration is skipped whole) and
    exactly one for every bar from the 50th on, so a series of n bars adds
    n - 49 points (none when n < 50); each point carries that bar's
    timestamp and equity = cash + sum of quantity x that bar's close over the
    positions open after the bar's fills (a Python number while the capital
    is untouched and no position is open, a numpy float otherwise). *)
Theorem equity_point_per_bar_from_the_50th sm self data start_date end_date :
  let test_data := filter_period data start_date end_date in
  let after n := (simulate test_data n (sm, self)).2 in
  length (equity_curve (after (length test_data)))
  = (length (equity_curve self) + (length test_data - 49))%nat /\
  (forall i b, test_data !! i = Some b ->
     ((i < 49)%nat -> after (S i) = after i) /\
     ((49 <= i)%nat ->
      equity_curve (after (S i))
      = equity_curve (after i)
        ++ [ {| ep_timestamp := timestamp b;
                ep_equity :=
                  mark_to_market (close b) (capital (after (S i)))
                                 (positions (after (S i)));
                ep_capital := capital (after (S i));
                ep_kind := current_equity_kind (after (S i)) |} ])) /\
  (test_data <> [] ->
   (run_backtest sm self data start_date end_date).2 = after (length test_data)).
Proof.
  intros test_data after. repeat split.
  - unfold after. rewrite simulate_curve_length by lia. reflexivity.
  - intros Hi. unfold after. rewrite simulate_S, bar_step_skips by exact Hi.
    reflexivity.
  - intros Hi. unfold after. rewrite simulate_S.
    rewrite (bar_step_records _ _ _ _ H Hi). reflexivity.
  - intros Hne. unfold BacktestEngine.run_backtest. fold test_data.
    destruct test_data; [congruence|]. reflexivity.
Qed.

(** C6. With no trade on the ledger the metrics computation returns the
    dict with the error "Aucun trade exécuté": no exception and no numeric
    metric; and it returns that dict in no other case. A run over a
    non-empty period that executes no trade therefore returns it. *)
Theorem no_trades_is_reported self :
  trades self = [] ->
  _calculate_performance_metrics sqrtQ self = Error "Aucun trade exécuté" /\
  (forall other,
     trades other <> [] ->
     _calculate_performance_metrics sqrtQ other <> Error "Aucun trade exécuté") /\
  (forall sm data start_date end_date,
     filter_period data start_date end_date <> [] ->
     trades (run_backtest sm self data start_date end_date).2 = [] ->
     (run_backtest sm self data start_date end_date).1
     = Error "Aucun trade exécuté").
Proof.
  intros Hnone. repeat split.
  - unfold _calculate_performance_metrics. rewrite Hnone. reflexivity.
  - intros other Hsome. unfold _calculate_performance_metrics.
    destruct (trades other); [congruence|].
    destruct (last (equity_curve other)); [|discriminate].
    destruct (equity_curve other) as [|first_point rest]; [discriminate|].
    destruct (divide _ _ _); [|discriminate].
    destruct (period_returns _); [|discriminate].
    destruct (foldl drawdown_step _ _) as [[[? ?] ?]|]; discriminate.
  - intros sm data start_date end_date Hne.
    unfold BacktestEngine.run_backtest.
    destruct (filter_period data start_date end_date) eqn:E; [congruence|].
    simpl. intros Hrun. unfold _calculate_performance_metrics.
    rewrite Hrun. reflexivity.
Qed.

End RunProofs.

Lemma no_trades_is_reported_witness :
  (run_backtest unit silent_manager Qsqrt_approx tt (init 10000)
                [flat_bar 1 100; flat_bar 2 101] 0 10).1
  = Error "Aucun trade exécuté".
Proof.
  destruct (no_trades_is_reported unit silent_manager Qsqrt_approx (init 10000))
    as (_ & _ & Hrun).
  - reflexivity.
  - apply Hrun.
    + intros H; discriminate H.
    + reflexivity.
Defined.

(** Fifty-one bars: bars 50 and 51 are recorded, the first 49 are not. *)
Example fifty_one_bars_record_two_points :
  let data := map (fun i => flat_bar (Z.of_nat i) 100) (seq 0 51) in
  map ep_timestamp
      (equity_curve
         (run_backtest unit silent_manager Qsqrt_approx tt (init 10000) data 0 100).2)
  = [49%Z; 50%Z].
Proof. vm_compute. reflexivity. Qed.

(** C2 as stated fails: a run over a three-bar period processes three bars
    and records no equity point at all. *)
Lemma short_run_records_no_equity :
  let data := [flat_bar 1 100; flat_bar 2 101; flat_bar 3 102] in
  let run := run_backtest unit silent_manager Qsqrt_approx tt (init 10000) data 0 10 in
  length (filter_period data 0 10) = 3%nat /\
  equity_curve run.2 = [] /\
  length (equity_curve run.2) <> length (filter_period data 0 10).
Proof.
  vm_compute. repeat split. intros H; discriminate H.
Qed.

End BacktestEngineProofs.

(** ** Position sizing *)

Section RiskManagerProofs.
Import RiskManager.
Local Open Scope Q_scope.

Lemma Qsum_pos (l : list Q) :
  l <> [] -> Forall (fun x => 0 < x) l -> 0 < Qsum l.
Proof.
  intros Hne Hall. induction Hall as [|x l Hx Hl IH]; [congruence|].
  simpl. destruct l as [|y l].
  - simpl. lra.
  - assert (0 < Qsum (y :: l)) by (apply IH; discriminate). lra.
Qed.

Lemma Qsum_neg (l : list Q) :
  l <> [] -> Forall (fun x => x < 0) l -> Qsum l < 0.
Proof.
  intros Hne Hall. induction Hall as [|x l Hx Hl IH]; [congruence|].
  simpl. destruct l as [|y l].
  - simpl. lra.
  - assert (Qsum (y :: l) < 0) by (apply IH; discriminate). lra.
Qed.

Lemma count_pos {A} (l : list A) :
  l <> [] -> 0 < inject_Z (Z.of_nat (length l)).
Proof.
  intros Hne. destruct l; [congruence|].
  change 0 with (inject_Z 0). rewrite <- Zlt_Qlt. simpl length. lia.
Qed.

Lemma Qmean_pos (l : list Q) :
  l <> [] -> Forall (fun x => 0 < x) l -> 0 < Qmean l.
Proof.
  intros Hne Hall. unfold Qmean.
  apply Qlt_shift_div_l; [apply count_pos; exact Hne|].
  pose proof (Qsum_pos l Hne Hall). lra.
Qed.

Lemma Qmean_neg (l : list Q) :
  l <> [] -> Forall (fun x => x < 0) l -> Qmean l < 0.
Proof.
  intros Hne Hall. unfold Qmean.
  apply Qlt_shift_div_r; [apply count_pos; exact Hne|].
  pose proof (Qsum_neg l Hne Hall). lra.
Qed.

Lemma Qltb_lt a b : Qltb a b = true <-> a < b.
Proof.
  unfold Qltb. destruct (Qle_bool b a) eqn:E; simpl.
  - apply Qle_bool_iff in E. split; [discriminate | lra].
  - split; [|reflexivity]. intros _.
    destruct (Qlt_le_dec a b) as [H|H]; [exact H|].
    apply Qle_bool_iff in H. congruence.
Qed.

Lemma filtered_profits_pos (l : list TradeResult) :
  Forall (fun x => 0 < x)
         (map tr_profit (List.filter (fun t => Qltb 0 (tr_profit t)) l)).
Proof.
  apply List.Forall_forall. intros x Hx.
  apply List.in_map_iff in Hx as (t & <- & Ht).
  apply List.filter_In in Ht as [_ Ht]. apply Qltb_lt. exact Ht.
Qed.

Lemma filtered_profits_neg (l : list TradeResult) :
  Forall (fun x => x < 0)
         (map tr_profit (List.filter (fun t => Qltb (tr_profit t) 0) l)).
Proof.
  apply List.Forall_forall. intros x Hx.
  apply List.in_map_iff in Hx as (t & <- & Ht).
  apply List.filter_In in Ht as [_ Ht]. apply Qltb_lt. exact Ht.
Qed.

(** The statistics are the defaults without history; with history the
    average win and the average loss are positive, and the win rate is
    positive exactly when the history has a winning trade. *)
Lemma strategy_stats_shape self strategy_name :
  exists p w l,
    _get_strategy_stats self strategy_name = (p, w, l) /\
    0 < w /\ 0 < l /\ 0 <= p /\
    (history_of self strategy_name = [] -> p = 1 # 2 /\ w = 1 /\ l = 1) /\
    (history_of self strategy_name <> [] ->
     (p == 0 <-> wins_of self strategy_name = [])).
Proof.
  unfold _get_strategy_stats, wins_of, history_of.
  destruct (List.filter (is_strategy strategy_name) (trade_history self))
    as [|t ts] eqn:Hh.
  - exists (1 # 2), 1, 1. repeat split; try lra; congruence.
  - set (h := t :: ts).
    set (wins := List.filter (fun t => Qltb 0 (tr_profit t)) h).
    set (losses := List.filter (fun t => Qltb (tr_profit t) 0) h).
    eexists _, _, _. split; [reflexivity|].
    assert (Hn : 0 < inject_Z (Z.of_nat (length h))) by (apply count_pos; discriminate).
    repeat split.
    + destruct wins eqn:Hw; [lra|]. rewrite <- Hw.
      apply Qmean_pos; [rewrite Hw; discriminate | apply filtered_profits_pos].
    + destruct losses eqn:Hl; [lra|]. rewrite <- Hl.
      assert (Qmean (map tr_profit losses) < 0).
      { apply Qmean_neg; [rewrite Hl; discriminate | apply filtered_profits_neg]. }
      apply Qabs_case; intros; lra.
    + apply Qle_shift_div_l; [exact Hn|].
      change 0 with (inject_Z 0) at 1. rewrite Qmult_0_l.
      change 0 with (inject_Z 0). rewrite <- Zle_Qle. lia.
    + discriminate.
    + discriminate.
    + discriminate.
    + intros Hp. destruct wins as [|w ws]; [reflexivity|].
      exfalso.
      assert (0 < inject_Z (Z.of_nat (length (w :: ws)))) by (apply count_pos; discriminate).
      assert (0 < inject_Z (Z.of_nat (length (w :: ws))) / inject_Z (Z.of_nat (length h))).
      { apply Qlt_shift_div_l; [exact Hn|]. lra. }
      lra.
    + intros ->. simpl. unfold Qdiv. rewrite Qmult_0_l. reflexivity.
Qed.

Lemma clamp_kelly_bounds x : 0 <= clamp_kelly x /\ clamp_kelly x <= 25 # 100.
Proof.
  unfold clamp_kelly. split.
  - apply Q.le_max_l.
  - apply Q.max_lub; [lra | apply Q.le_min_l].
Qed.

Lemma Qeq_bool_false a b : ~ a == b -> Qeq_bool a b = false.
Proof.
  intros H. destruct (Qeq_bool a b) eqn:E; [|reflexivity].
  apply Qeq_bool_iff in E. contradiction.
Qed.

(** What the Kelly sizing computes, case by case. The size is balance x f
    with f = (b p - q)/b clamped to [0, 0.25] whenever the win rate is not
    zero; the statistics of a strategy without trade history are the
    defaults (0.5, 1, 1), for which f = 0 and the size is 0; the percentage
    size (balance x risk per trade) is returned exactly when the strategy
    has trades and none of them is a win; the average loss is never zero, so
    the second test of the fallback never fires. *)
Theorem kelly_sizing_cases self signal account_balance :
  let name := strategy signal in
  let size := _kelly_position_size self signal account_balance in
  (history_of self name = [] -> size == 0) /\
  (history_of self name <> [] -> wins_of self name = [] ->
   size = _percentage_position_size self signal account_balance) /\
  (forall p w l,
     _get_strategy_stats self name = (p, w, l) ->
     ~ l == 0 /\
     ((history_of self name = [] \/ wins_of self name <> []) ->
      let b := w / l in
      let f := clamp_kelly ((b * p - (1 - p)) / b) in
      size = account_balance * f /\ 0 <= f /\ f <= 25 # 100)).
Proof.
  intros name size. subst size. unfold _kelly_position_size. fold name.
  destruct (strategy_stats_shape self name)
    as (p & w & l & Hstats & Hw & Hl & Hp & Hdef & Hrate).
  rewrite Hstats. repeat split.
  - intros Hnone. destruct (Hdef Hnone) as (-> & -> & ->). vm_compute Qeq_bool.
    simpl orb. cbv iota zeta.
    set (f := clamp_kelly _).
    assert (Hf : f == 0) by (vm_compute; reflexivity).
    rewrite Hf. ring.
  - intros Hsome Hnowin.
    assert (Hz : p == 0) by (apply (Hrate Hsome); exact Hnowin).
    apply Qeq_bool_iff in Hz. rewrite Hz. reflexivity.
  - injection H as <- <- <-. intros Hz. lra.
  - injection H as <- <- <-.
    assert (Hpz : Qeq_bool p 0 = false).
    { apply Qeq_bool_false. intros Hz. destruct H0 as [Hnone|Hwin].
      - destruct (Hdef Hnone) as (-> & _). discriminate Hz.
      - destruct (history_of self name) as [|t ts] eqn:Hh.
        + apply Hwin. unfold wins_of. rewrite Hh. reflexivity.
        + apply Hwin. apply Hrate; [discriminate | exact Hz]. }
    assert (Hlz : Qeq_bool l 0 = false) by (apply Qeq_bool_false; lra).
    rewrite Hpz, Hlz. reflexivity.
  - apply clamp_kelly_bounds.
  - apply clamp_kelly_bounds.
Qed.

(** C3: the fallback misses the strategy without history. The code falls
    back to the percentage size when the statistics are degenerate
    ([win_rate == 0 or avg_loss == 0]), but a strategy without any recorded
    trade gets the default statistics (0.5, 1, 1), the test does not fire,
    the Kelly fraction is 0, and a balance of 10000 is sized at 0 where the
    percentage size is 200. *)
Lemma kelly_without_history_is_zero :
  let self := init (mkConfig None None None None) in
  let signal := mkSignal "RSI" "BTCUSDT" "buy" (7 # 10) "" in
  trade_history self = [] /\
  _kelly_position_size self signal 10000 == 0 /\
  _percentage_position_size self signal 10000 == 200 /\
  ~ _kelly_position_size self signal 10000
    == _percentage_position_size self signal 10000.
Proof.
  vm_compute. repeat split. intros H; discriminate H.
Qed.

(** Two losing trades and no win: the percentage size, two percent of the
    balance, is returned. *)
Example kelly_without_wins_is_percentage :
  let self :=
    foldl record_trade (init (mkConfig None None None None))
          [mkTradeResult (Some "RSI") (-50); mkTradeResult (Some "RSI") (-20)] in
  _kelly_position_size self (mkSignal "RSI" "BTCUSDT" "buy" (7 # 10) "") 10000 == 200.
Proof. vm_compute. reflexivity. Qed.

(** C7. When the recorded trades of the signal's strategy give a win rate
    of 0.6, an average win of 100 and an average loss of 50, the Kelly
    fraction is (2 x 0.6 - 0.4)/2 = 0.4, it is clamped to 0.25, and the
    sizing call returns 0.25 x balance, for every balance. *)
Theorem kelly_example_is_quarter_of_balance self signal account_balance p w l :
  _get_strategy_stats self (strategy signal) = (p, w, l) ->
  p == 6 # 10 -> w == 100 -> l == 50 ->
  let b := w / l in
  (b * p - (1 - p)) / b == 4 # 10 /\
  clamp_kelly ((b * p - (1 - p)) / b) == 25 # 100 /\
  _kelly_position_size self signal account_balance == (25 # 100) * account_balance /\
  (position_sizing_method self = "kelly" ->
   calculate_position_size self signal account_balance
   == (25 # 100) * account_balance).
Proof.
  intros Hstats Hp Hw Hl b.
  assert (Hf : (b * p - (1 - p)) / b == 4 # 10).
  { subst b. rewrite Hp, Hw, Hl. vm_compute. reflexivity. }
  assert (Hc : clamp_kelly ((b * p - (1 - p)) / b) == 25 # 100).
  { unfold clamp_kelly.
    assert (Hmin : Qmin (25 # 100) ((b * p - (1 - p)) / b) == 25 # 100)
      by (apply Q.min_l; rewrite Hf; lra).
    rewrite Q.max_r; [exact Hmin | rewrite Hmin; lra]. }
  assert (Hk : _kelly_position_size self signal account_balance
               == (25 # 100) * account_balance).
  { unfold _kelly_position_size. rewrite Hstats.
    rewrite (Qeq_bool_false p 0) by lra. rewrite (Qeq_bool_false l 0) by lra.
    simpl orb. cbv iota. fold b. rewrite Hc. ring. }
  split; [exact Hf|]. split; [exact Hc|]. split; [exact Hk|].
  intros Hmethod. unfold calculate_position_size. rewrite Hmethod. exact Hk.
Qed.

Lemma kelly_example_is_quarter_of_balance_witness :
  let self :=
    foldl record_trade (init (mkConfig None None None None)) sixty_percent_history in
  let signal := mkSignal "RSI" "BTCUSDT" "buy" (7 # 10) "" in
  calculate_position_size self signal 10000 == 2500.
Proof.
  intros self signal.
  destruct (kelly_example_is_quarter_of_balance self signal 10000
              (3 # 5) (300 # 3) (100 # 2)) as (_ & _ & _ & H).
  - vm_compute. reflexivity.
  - reflexivity.
  - reflexivity.
  - reflexivity.
  - rewrite H; reflexivity.
Defined.

End RiskManagerProofs.

(** ** The signal aggregator *)

Section StrategyManagerProofs.
Import StrategyManager.
Local Open Scope Q_scope.

(** *** The grouping dict *)

Lemma append_get_same d sym s :
  group_get (append_to_group d sym s) sym = group_get d sym ++ [s].
Proof.
  induction d as [|[k g] d IH]; simpl.
  - rewrite String.eqb_refl. reflexivity.
  - destruct (String.eqb k sym) eqn:E; simpl; rewrite E; [reflexivity | exact IH].
Qed.

Lemma append_get_other d sym s sym' :
  sym <> sym' ->
  group_get (append_to_group d sym s) sym' = group_get d sym'.
Proof.
  intros Hne. induction d as [|[k g] d IH]; simpl.
  - apply String.eqb_neq in Hne. rewrite Hne. reflexivity.
  - destruct (String.eqb k sym) eqn:E; simpl.
    + apply String.eqb_eq in E. subst k.
      apply String.eqb_neq in Hne. rewrite Hne. reflexivity.
    + destruct (String.eqb k sym'); [reflexivity | exact IH].
Qed.

Lemma append_keys d sym s k :
  k ∈ (append_to_group d sym s).*1 <-> k = sym \/ k ∈ d.*1.
Proof.
  induction d as [|[k' g] d IH]; simpl.
  - rewrite elem_of_cons, elem_of_nil. tauto.
  - destruct (String.eqb k' sym) eqn:E; simpl.
    + apply String.eqb_eq in E. subst k'. rewrite elem_of_cons. tauto.
    + rewrite !elem_of_cons, IH. tauto.
Qed.

Lemma append_NoDup d sym s :
  NoDup d.*1 -> NoDup (append_to_group d sym s).*1.
Proof.
  induction d as [|[k g] d IH]; simpl; intros Hnd.
  - apply NoDup_singleton.
  - apply NoDup_cons in Hnd as [Hk Hd].
    destruct (String.eqb k sym) eqn:E; simpl.
    + apply NoDup_cons. split; assumption.
    + apply NoDup_cons. split; [|apply IH; exact Hd].
      rewrite append_keys. intros [->|Hin]; [|contradiction].
      rewrite String.eqb_refl in E. discriminate.
Qed.

Lemma group_by_symbol_snoc signals s :
  group_by_symbol (signals ++ [s])
  = append_to_group (group_by_symbol signals) (symbol s) s.
Proof. unfold group_by_symbol. rewrite foldl_app. reflexivity. Qed.

Lemma group_by_symbol_NoDup signals : NoDup (group_by_symbol signals).*1.
Proof.
  induction signals as [|s signals IH] using rev_ind.
  - apply NoDup_nil_2.
  - rewrite group_by_symbol_snoc. apply append_NoDup. exact IH.
Qed.

(** The dict maps every symbol to its signals, in input order. *)
Lemma group_by_symbol_get signals sym :
  group_get (group_by_symbol signals) sym = group_of sym signals.
Proof.
  induction signals as [|s signals IH] using rev_ind; [reflexivity|].
  rewrite group_by_symbol_snoc. unfold group_of. rewrite filter_app.
  fold (group_of sym signals). rewrite <- IH.
  destruct (decide (symbol s = sym)) as [Heq|Hne].
  - subst sym. rewrite append_get_same.
    rewrite filter_cons_True by reflexivity. reflexivity.
  - rewrite append_get_other by exact Hne.
    rewrite filter_cons_False by exact Hne. simpl. rewrite app_nil_r. reflexivity.
Qed.

Lemma entry_is_group_get d k g :
  NoDup d.*1 -> (k, g) ∈ d -> group_get d k = g.
Proof.
  induction d as [|[k' g'] d IH]; simpl; intros Hnd Hin.
  - apply elem_of_nil in Hin. contradiction.
  - apply NoDup_cons in Hnd as [Hk Hd].
    apply elem_of_cons in Hin as [Heq|Hin].
    + injection Heq as -> ->. rewrite String.eqb_refl. reflexivity.
    + destruct (String.eqb k' k) eqn:E.
      * apply String.eqb_eq in E. subst k'. exfalso. apply Hk.
        apply list_elem_of_fmap. exists (k, g). split; [reflexivity | exact Hin].
      * apply IH; assumption.
Qed.

Lemma group_get_entry d k :
  group_get d k <> [] -> (k, group_get d k) ∈ d.
Proof.
  induction d as [|[k' g'] d IH]; simpl; intros Hne; [congruence|].
  destruct (String.eqb k' k) eqn:E.
  - apply String.eqb_eq in E. subst k'. apply elem_of_cons. left. reflexivity.
  - apply elem_of_cons. right. apply IH. exact Hne.
Qed.

(** *** The stable sort *)

Lemma insert_by_confidence_perm x l : insert_by_confidence x l ≡ₚ x :: l.
Proof.
  induction l as [|y l IH]; simpl; [reflexivity|].
  destruct (Qle_bool (confidence y) (confidence x)); [reflexivity|].
  rewrite IH. apply Permutation_swap.
Qed.

Lemma sort_by_confidence_perm l : sort_by_confidence l ≡ₚ l.
Proof.
  induction l as [|x l IH]; simpl; [reflexivity|].
  rewrite insert_by_confidence_perm, IH. reflexivity.
Qed.

(** The head of the sorted list is the first signal of maximal confidence
    in the order of the input. *)
Lemma sort_by_confidence_head l o rest :
  sort_by_confidence l = o :: rest ->
  exists pre post,
    l = pre ++ o :: post /\
    Forall (fun s => confidence s < confidence o) pre /\
    Forall (fun s => confidence s <= confidence o) post.
Proof.
  revert o rest. induction l as [|x l IH]; intros o rest Hs; [discriminate|].
  simpl in Hs. destruct (sort_by_confidence l) as [|y r] eqn:Hl.
  - simpl in Hs. injection Hs as <- <-.
    assert (l = []) as ->.
    { apply Permutation_nil_r. rewrite <- Hl. symmetry. apply sort_by_confidence_perm. }
    exists [], []. repeat split; constructor.
  - destruct (IH y r eq_refl) as (pre & post & -> & Hpre & Hpost).
    simpl in Hs. destruct (Qle_bool (confidence y) (confidence x)) eqn:E.
    + injection Hs as <- <-. apply Qle_bool_iff in E.
      exists [], (pre ++ y :: post). repeat split; [constructor|].
      apply Forall_app. split; [|constructor].
      * eapply Forall_impl; [exact Hpre|]. simpl. intros; lra.
      * exact E.
      * eapply Forall_impl; [exact Hpost|]. simpl. intros; lra.
    + injection Hs as <- <-.
      exists (x :: pre), post. repeat split; [|exact Hpost].
      constructor; [|exact Hpre].
      destruct (Qlt_le_dec (confidence x) (confidence y)) as [H|H]; [exact H|].
      apply Qle_bool_iff in H. congruence.
Qed.

(** *** Coherence *)

Lemma coherent_iff l :
  _signals_are_coherent l = true
  <-> forall s1 s2, s1 ∈ l -> s2 ∈ l -> side s1 = side s2.
Proof.
  unfold _signals_are_coherent.
  destruct (length l <=? 1)%nat eqn:Hlen.
  - apply Nat.leb_le in Hlen. split; [|reflexivity]. intros _ s1 s2 H1 H2.
    destruct l as [|a [|b l]]; simpl in Hlen; [| |lia].
    + apply elem_of_nil in H1. contradiction.
    + apply list_elem_of_singleton in H1, H2. congruence.
  - apply Nat.leb_gt in Hlen. rewrite bool_decide_eq_true. split.
    + intros Hsize s1 s2 H1 H2.
      apply size_1_elem_of in Hsize as [x Hx].
      assert (Hin : forall s, s ∈ l -> side s = x).
      { intros s Hs. apply (elem_of_singleton (C := gset string)). rewrite <- Hx.
        apply elem_of_list_to_set. apply list_elem_of_fmap. exists s. split; [reflexivity | exact Hs]. }
      rewrite (Hin s1 H1), (Hin s2 H2). reflexivity.
    + intros Hall. destruct l as [|a l]; [simpl in Hlen; lia|].
      assert (Hset : list_to_set (C := gset string) (map side (a :: l)) = {[ side a ]}).
      { apply set_eq. intros x. rewrite elem_of_list_to_set, elem_of_singleton. split.
        - intros Hx. apply list_elem_of_fmap in Hx as (s & -> & Hs).
          apply Hall; [exact Hs | apply elem_of_cons; left; reflexivity].
        - intros ->. apply list_elem_of_fmap. exists a.
          split; [reflexivity | apply elem_of_cons; left; reflexivity]. }
      rewrite Hset. apply size_singleton.
Qed.

Lemma coherent_sorted l :
  _signals_are_coherent (sort_by_confidence l) = true
  <-> forall s1 s2, s1 ∈ l -> s2 ∈ l -> side s1 = side s2.
Proof.
  rewrite coherent_iff. split; intros H s1 s2 H1 H2; apply H.
  - rewrite sort_by_confidence_perm. exact H1.
  - rewrite sort_by_confidence_perm. exact H2.
  - rewrite <- sort_by_confidence_perm. exact H1.
  - rewrite <- sort_by_confidence_perm. exact H2.
Qed.

(** *** The output *)

Lemma foldl_picks d :
  forall acc,
    foldl (fun best_signals '(sym, symbol_signals) =>
             let sorted := sort_by_confidence symbol_signals in
             if _signals_are_coherent sorted
             then best_signals ++ take 1 sorted
             else best_signals) acc d
    = acc ++ picks d.
Proof.
  induction d as [|[k g] d IH]; intros acc; simpl.
  - rewrite app_nil_r. reflexivity.
  - rewrite IH. unfold pick.
    destruct (_signals_are_coherent (sort_by_confidence g)).
    + rewrite <- app_assoc. reflexivity.
    + reflexivity.
Qed.

Lemma output_is_picks signals :
  _filter_and_prioritize_signals signals = picks (group_by_symbol signals).
Proof.
  unfold _filter_and_prioritize_signals. destruct signals; [reflexivity|].
  apply foldl_picks.
Qed.

Lemma pick_cases g :
  (pick g = [] /\ (g = [] \/ _signals_are_coherent (sort_by_confidence g) = false))
  \/ (exists o rest, pick g = [o] /\ sort_by_confidence g = o :: rest /\
                     _signals_are_coherent (sort_by_confidence g) = true).
Proof.
  unfold pick. destruct (_signals_are_coherent (sort_by_confidence g)) eqn:Hc.
  - destruct (sort_by_confidence g) as [|o rest] eqn:Hs.
    + left. split; [reflexivity|]. left.
      apply Permutation_nil_r. rewrite <- Hs. symmetry. apply sort_by_confidence_perm.
    + right. exists o, rest. repeat split.
  - left. split; [reflexivity | right; reflexivity].
Qed.

Lemma pick_elem g o :
  o ∈ pick g ->
  o ∈ g /\ _signals_are_coherent (sort_by_confidence g) = true /\
  exists rest, sort_by_confidence g = o :: rest.
Proof.
  intros Ho. destruct (pick_cases g) as [[Hnil _]|(o' & rest & Hp & Hs & Hc)].
  - rewrite Hnil in Ho. apply elem_of_nil in Ho. contradiction.
  - rewrite Hp in Ho. apply list_elem_of_singleton in Ho. subst o'.
    repeat split; [|exact Hc|exists rest; exact Hs].
    rewrite <- (sort_by_confidence_perm g), Hs. apply elem_of_cons. left. reflexivity.
Qed.

Lemma picks_elem d o :
  o ∈ picks d <-> exists k g, (k, g) ∈ d /\ o ∈ pick g.
Proof.
  induction d as [|[k g] d IH]; simpl.
  - split; [intros H; apply elem_of_nil in H; contradiction|].
    intros (k & g & H & _). apply elem_of_nil in H. contradiction.
  - rewrite elem_of_app, IH. split.
    + intros [Ho|(k' & g' & Hin & Ho)].
      * exists k, g. split; [apply elem_of_cons; left; reflexivity | exact Ho].
      * exists k', g'. split; [apply elem_of_cons; right; exact Hin | exact Ho].
    + intros (k' & g' & Hin & Ho). apply elem_of_cons in Hin as [Heq|Hin].
      * injection Heq as -> ->. left. exact Ho.
      * right. exists k', g'. split; assumption.
Qed.

Lemma picks_NoDup d :
  NoDup d.*1 ->
  (forall k g s, (k, g) ∈ d -> s ∈ g -> symbol s = k) ->
  NoDup (map symbol (picks d)).
Proof.
  induction d as [|[k g] d IH]; simpl; intros Hnd Hsym; [apply NoDup_nil_2|].
  apply NoDup_cons in Hnd as [Hk Hd].
  rewrite map_app. apply NoDup_app. repeat split.
  - destruct (pick_cases g) as [[-> _]|(o & rest & -> & _)].
    + apply NoDup_nil_2.
    + apply NoDup_singleton.
  - intros x Hx Hx'.
    apply list_elem_of_fmap in Hx as (o & -> & Ho).
    apply list_elem_of_fmap in Hx' as (o' & Heq & Ho').
    apply pick_elem in Ho as (Ho & _).
    apply picks_elem in Ho' as (k' & g' & Hin & Ho').
    apply pick_elem in Ho' as (Ho' & _).
    assert (symbol o = k)
      by (apply (Hsym k g); [apply elem_of_cons; left; reflexivity | exact Ho]).
    assert (symbol o' = k')
      by (apply (Hsym k' g'); [apply elem_of_cons; right; exact Hin | exact Ho']).
    apply Hk. apply list_elem_of_fmap. exists (k', g'). split; [|exact Hin].
    simpl. congruence.
  - apply IH; [exact Hd|]. intros k' g' s Hin Hs.
    apply (Hsym k' g'); [apply elem_of_cons; right; exact Hin | exact Hs].
Qed.

Lemma entry_is_group signals k g :
  (k, g) ∈ group_by_symbol signals -> g = group_of k signals.
Proof.
  intros Hin. rewrite <- group_by_symbol_get. symmetry.
  apply entry_is_group_get; [apply group_by_symbol_NoDup | exact Hin].
Qed.

(** C4. The aggregator returns at most one signal per symbol, each taken
    from the input; a symbol with both a 'buy' and a 'sell' signal has no
    entry; a symbol whose signals agree on the side has an entry, which is
    of maximal confidence among that symbol's signals and, among those of
    maximal confidence, the first in input order; and the output is a
    function of the input list. *)
Theorem aggregator_keeps_best_coherent_signal signals :
  let out := _filter_and_prioritize_signals signals in
  NoDup (map symbol out) /\
  (forall o, o ∈ out -> o ∈ signals) /\
  (forall s1 s2,
     s1 ∈ signals -> s2 ∈ signals -> symbol s1 = symbol s2 ->
     side s1 = "buy" -> side s2 = "sell" ->
     forall o, o ∈ out -> symbol o <> symbol s1) /\
  (forall sym,
     group_of sym signals <> [] ->
     (forall s1 s2, s1 ∈ group_of sym signals -> s2 ∈ group_of sym signals ->
                    side s1 = side s2) ->
     exists o pre post,
       o ∈ out /\ symbol o = sym /\
       group_of sym signals = pre ++ o :: post /\
       Forall (fun s => confidence s < confidence o) pre /\
       Forall (fun s => confidence s <= confidence o) post) /\
  (forall signals', signals' = signals ->
     _filter_and_prioritize_signals signals' = out).
Proof.
  intros out. subst out. rewrite output_is_picks.
  assert (Hentry : forall k g s,
             (k, g) ∈ group_by_symbol signals -> s ∈ g ->
             symbol s = k /\ s ∈ signals).
  { intros k g s Hin Hs. apply entry_is_group in Hin. subst g.
    apply list_elem_of_filter in Hs. exact Hs. }
  split; [|split; [|split; [|split]]].
  - apply picks_NoDup; [apply group_by_symbol_NoDup|].
    intros k g s Hin Hs. apply (Hentry k g s Hin Hs).
  - intros o Ho. apply picks_elem in Ho as (k & g & Hin & Ho).
    apply pick_elem in Ho as (Ho & _). apply (Hentry k g o Hin Ho).
  - intros s1 s2 H1 H2 Hsame Hbuy Hsell o Ho Hsym.
    apply picks_elem in Ho as (k & g & Hin & Ho).
    apply pick_elem in Ho as (Ho & Hcoh & _).
    destruct (Hentry k g o Hin Ho) as [Hk _].
    apply entry_is_group in Hin. subst g.
    assert (Hs1 : s1 ∈ group_of k signals)
      by (apply list_elem_of_filter; split; [congruence | exact H1]).
    assert (Hs2 : s2 ∈ group_of k signals)
      by (apply list_elem_of_filter; split; [congruence | exact H2]).
    pose proof (proj1 (coherent_sorted _) Hcoh s1 s2 Hs1 Hs2) as Hside.
    rewrite Hbuy, Hsell in Hside. discriminate Hside.
  - intros sym Hne Hagree.
    assert (Hin : (sym, group_of sym signals) ∈ group_by_symbol signals).
    { rewrite <- group_by_symbol_get. apply group_get_entry.
      rewrite group_by_symbol_get. exact Hne. }
    apply coherent_sorted in Hagree.
    destruct (pick_cases (group_of sym signals))
      as [[_ [Hnil|Hinc]]|(o & rest & Hp & Hs & _)]; [contradiction|congruence|].
    destruct (sort_by_confidence_head _ _ _ Hs) as (pre & post & Hsplit & Hpre & Hpost).
    exists o, pre, post. repeat split; [| |exact Hsplit|exact Hpre|exact Hpost].
    + apply picks_elem. exists sym, (group_of sym signals).
      split; [exact Hin|]. rewrite Hp. apply elem_of_cons. left. reflexivity.
    + assert (Ho : o ∈ group_of sym signals)
        by (rewrite Hsplit; apply elem_of_app; right; apply elem_of_cons; left; reflexivity).
      apply list_elem_of_filter in Ho as [Ho _]. exact Ho.
  - intros signals' ->. apply output_is_picks.
Qed.

End StrategyManagerProofs.

(** ** The indicator calculator *)

Section BaseStrategyProofs.
Import BaseStrategy.
Local Open Scope Q_scope.

Variable sqrtQ : Q -> Q.

Local Abbreviation calculate_indicators := (calculate_indicators sqrtQ).
Local Abbreviation rolling_std := (rolling_std sqrtQ).

Lemma length_window_le w i (s : list Q) : (length (window w i s) <= S i)%nat.
Proof. unfold window. rewrite length_drop, length_take. lia. Qed.

Lemma length_window_full w i (s : list Q) :
  (i < length s)%nat -> (w <= S i)%nat -> length (window w i s) = w.
Proof. intros Hi Hw. unfold window. rewrite length_drop, length_take. lia. Qed.

Lemma length_rolling_mean w s : length (rolling_mean w s) = length s.
Proof. unfold rolling_mean. rewrite length_map, length_seq. reflexivity. Qed.

Lemma length_rolling_std w s : length (rolling_std w s) = length s.
Proof. unfold BaseStrategy.rolling_std. rewrite length_map, length_seq. reflexivity. Qed.

Lemma length_ewm_mean span s : length (ewm_mean span s) = length s.
Proof. unfold ewm_mean. rewrite length_map, length_seq. reflexivity. Qed.

Lemma length_diff s : length (diff s) = length s.
Proof.
  destruct s as [|x s]; [reflexivity|]. simpl. f_equal.
  revert x. induction s as [|y s IH]; intros x; simpl; [reflexivity|].
  f_equal. apply IH.
Qed.

(** A rolling mean is NaN on every row before the [w]-th. *)
Lemma rolling_mean_early w s i v :
  rolling_mean w s !! i = Some v -> (S i < w)%nat -> v = NaN.
Proof.
  unfold rolling_mean. rewrite list_lookup_fmap. intros Hv Hi.
  destruct (seq 0 (length s) !! i) as [j|] eqn:Hj; [|discriminate].
  apply lookup_seq in Hj as [-> _]. simpl in Hv.
  pose proof (length_window_le w i s).
  assert (Hlt : (length (window w i s) <? w)%nat = true) by (apply Nat.ltb_lt; lia).
  rewrite Hlt in Hv. congruence.
Qed.

Lemma rolling_std_early w s i v :
  rolling_std w s !! i = Some v -> (S i < w)%nat -> v = NaN.
Proof.
  unfold BaseStrategy.rolling_std. rewrite list_lookup_fmap. intros Hv Hi.
  destruct (seq 0 (length s) !! i) as [j|] eqn:Hj; [|discriminate].
  apply lookup_seq in Hj as [-> _]. simpl in Hv.
  pose proof (length_window_le w i s).
  assert (Hlt : (length (window w i s) <? w)%nat = true) by (apply Nat.ltb_lt; lia).
  rewrite Hlt in Hv. congruence.
Qed.

(** From the [w]-th row on it is the mean of the last [w] rows. *)
Lemma rolling_mean_full w s i :
  (i < length s)%nat -> (w <= S i)%nat ->
  rolling_mean w s !! i = Some (Fin (Qmean (window w i s))).
Proof.
  intros Hi Hw. unfold rolling_mean. rewrite list_lookup_fmap.
  rewrite lookup_seq_lt by exact Hi. simpl.
  rewrite length_window_full by assumption.
  rewrite Nat.ltb_irrefl. reflexivity.
Qed.

Lemma rolling_mean_short w s :
  (length s < w)%nat -> Forall (eq NaN) (rolling_mean w s).
Proof.
  intros Hlen. apply Forall_lookup. intros i v Hv. symmetry.
  apply (rolling_mean_early w s i v Hv).
  apply lookup_lt_Some in Hv. rewrite length_rolling_mean in Hv. lia.
Qed.

Lemma rolling_std_short w s :
  (length s < w)%nat -> Forall (eq NaN) (rolling_std w s).
Proof.
  intros Hlen. apply Forall_lookup. intros i v Hv. symmetry.
  apply (rolling_std_early w s i v Hv).
  apply lookup_lt_Some in Hv. rewrite length_rolling_std in Hv. lia.
Qed.

Lemma zip_with_NaN_l (f : fnum -> fnum -> fnum) a b :
  (forall y, f NaN y = NaN) ->
  Forall (eq NaN) a -> Forall (eq NaN) (zip_with f a b).
Proof.
  intros Hf Ha. revert b. induction Ha as [|x a <- Ha IH]; intros b.
  - constructor.
  - destruct b as [|y b]; simpl; [constructor|].
    constructor; [symmetry; apply Hf | apply IH].
Qed.

Lemma fadd_NaN_l y : fadd NaN y = NaN.
Proof. reflexivity. Qed.

Lemma fsub_NaN_l y : fsub NaN y = NaN.
Proof. reflexivity. Qed.

Lemma fdiv_NaN_l y : fdiv NaN y = NaN.
Proof. reflexivity. Qed.

Lemma Forall_Fin_defined (l : list Q) :
  Forall (fun v => is_fin v = true) (map Fin l).
Proof. apply Forall_fmap. apply Forall_true. reflexivity. Qed.

(** The exponentially weighted mean of the first row is the row itself. *)
Lemma ewm_mean_first_row span x s :
  exists v, ewm_mean span (x :: s) !! 0%nat = Some v /\ v == x.
Proof.
  unfold ewm_mean. simpl. set (decay := 1 - _).
  eexists. split; [reflexivity|]. field.
Qed.

Ltac column_length :=
  repeat first [ rewrite length_map | rewrite length_zip_with
               | rewrite length_ewm_mean | rewrite length_rolling_mean
               | rewrite length_diff ];
  lia.

(** C5, as the code has it. On a series shorter than its rolling window an
    indicator is NaN on every row: rsi below 14 bars; bb_middle, bb_upper,
    bb_lower, sma_20 and volume_sma below 20; sma_50 below 50. The
    exponentially weighted columns (ema_12, ema_26, macd, macd_signal,
    macd_histogram) have no minimum window: they hold a number on every row
    of every series, from the first bar. *)
Theorem rolling_indicators_undefined_when_short data :
  let f := calculate_indicators data in
  ((length data < 14)%nat -> Forall (eq NaN) (rsi f)) /\
  ((length data < 20)%nat ->
   Forall (eq NaN) (bb_middle f) /\ Forall (eq NaN) (bb_upper f) /\
   Forall (eq NaN) (bb_lower f) /\ Forall (eq NaN) (sma_20 f) /\
   Forall (eq NaN) (volume_sma f)) /\
  ((length data < 50)%nat -> Forall (eq NaN) (sma_50 f)) /\
  (Forall (fun v => is_fin v = true) (ema_12 f) /\ length (ema_12 f) = length data) /\
  (Forall (fun v => is_fin v = true) (ema_26 f) /\ length (ema_26 f) = length data) /\
  (Forall (fun v => is_fin v = true) (macd f) /\ length (macd f) = length data) /\
  (Forall (fun v => is_fin v = true) (macd_signal f)
   /\ length (macd_signal f) = length data) /\
  (Forall (fun v => is_fin v = true) (macd_histogram f)
   /\ length (macd_histogram f) = length data).
Proof.
  intros f. subst f. unfold BaseStrategy.calculate_indicators. simpl.
  assert (Hclose : length (map close data) = length data) by apply length_map.
  assert (Hvol : length (map volume data) = length data) by apply length_map.
  repeat split.
  - intros Hlen. apply Forall_fmap.
    eapply Forall_impl.
    + apply (zip_with_NaN_l fdiv); [apply fdiv_NaN_l|].
      apply rolling_mean_short. unfold gains.
      rewrite length_map, length_diff, Hclose. exact Hlen.
    + intros x <-. reflexivity.
  - apply rolling_mean_short. rewrite Hclose. exact H.
  - apply (zip_with_NaN_l fadd); [apply fadd_NaN_l|].
    apply rolling_mean_short. rewrite Hclose. exact H.
  - apply (zip_with_NaN_l fsub); [apply fsub_NaN_l|].
    apply rolling_mean_short. rewrite Hclose. exact H.
  - apply rolling_mean_short. rewrite Hclose. exact H.
  - apply rolling_mean_short. rewrite Hvol. exact H.
  - intros Hlen. apply rolling_mean_short. rewrite Hclose. exact Hlen.
  - apply Forall_Fin_defined.
  - column_length.
  - apply Forall_Fin_defined.
  - column_length.
  - apply Forall_Fin_defined.
  - column_length.
  - apply Forall_Fin_defined.
  - column_length.
  - apply Forall_Fin_defined.
  - column_length.
Qed.

Lemma Qsum_nonneg (l : list Q) : Forall (fun x => 0 <= x) l -> 0 <= Qsum l.
Proof.
  induction 1 as [|x l Hx Hl IH]; simpl; [lra|]. lra.
Qed.

Lemma gains_nonneg delta : Forall (fun x => 0 <= x) (gains delta).
Proof.
  unfold gains. apply Forall_fmap. apply Forall_true. intros d. simpl.
  destruct d as [x| | |]; try lra.
  destruct (Qltb 0 x) eqn:E; [|lra].
  unfold Qltb in E. destruct (Qle_bool x 0) eqn:E'; [discriminate|].
  destruct (Qlt_le_dec 0 x) as [H|H]; [lra|].
  apply Qle_bool_iff in H. congruence.
Qed.

Lemma rsi_lookup data i :
  (13 <= i)%nat -> (i < length data)%nat ->
  let delta := diff (map close data) in
  rsi (calculate_indicators data) !! i
  = Some (rsi_of (fdiv (Fin (Qmean (window 14 i (gains delta))))
                       (Fin (Qmean (window 14 i (losses delta)))))).
Proof.
  intros H13 Hi delta.
  assert (Hg : (i < length (gains delta))%nat).
  { unfold gains, delta. rewrite length_map, length_diff, length_map. exact Hi. }
  assert (Hl : (i < length (losses delta))%nat).
  { unfold losses, delta. rewrite length_map, length_diff, length_map. exact Hi. }
  unfold BaseStrategy.calculate_indicators. simpl.
  rewrite list_lookup_fmap, lookup_zip_with. fold delta.
  rewrite (rolling_mean_full 14 (gains delta) i Hg) by lia.
  rewrite (rolling_mean_full 14 (losses delta) i Hl) by lia.
  reflexivity.
Qed.

(** C8, as the code has it. On a row with a full 14-bar window whose average
    loss is zero, the RSI is 100 when the window holds a gain (RS is
    infinite) and is undefined (NaN, from RS = 0/0) when the window holds no
    gain either; the average gain is never negative, so these are the only
    two cases. *)
Theorem rsi_without_losses data i :
  (13 <= i)%nat -> (i < length data)%nat ->
  let delta := diff (map close data) in
  let avg_gain := Qmean (window 14 i (gains delta)) in
  let avg_loss := Qmean (window 14 i (losses delta)) in
  avg_loss == 0 ->
  0 <= avg_gain /\
  (0 < avg_gain ->
   exists v, rsi (calculate_indicators data) !! i = Some (Fin v) /\ v == 100) /\
  (avg_gain == 0 -> rsi (calculate_indicators data) !! i = Some NaN).
Proof.
  intros H13 Hi delta avg_gain avg_loss Hloss.
  pose proof (rsi_lookup data i H13 Hi) as Hrsi. cbv zeta in Hrsi.
  fold delta in Hrsi. fold avg_gain avg_loss in Hrsi.
  apply Qeq_bool_iff in Hloss.
  split; [|split].
  - unfold avg_gain, Qmean.
    rewrite length_window_full;
      [| unfold gains, delta; rewrite length_map, length_diff, length_map; exact Hi
       | lia].
    apply Qle_shift_div_l; [reflexivity|].
    rewrite Qmult_0_l. apply Qsum_nonneg.
    unfold window. apply Forall_drop, Forall_take, gains_nonneg.
  - intros Hgain. exists (100 + - 0). split; [|reflexivity].
    rewrite Hrsi. unfold rsi_of, fdiv. rewrite Hloss.
    rewrite (Qeq_bool_false avg_gain 0) by lra.
    assert (Hlt : Qltb 0 avg_gain = true) by (apply Qltb_lt; exact Hgain).
    rewrite Hlt. reflexivity.
  - intros Hflat. apply Qeq_bool_iff in Hflat.
    rewrite Hrsi. unfold rsi_of, fdiv. rewrite Hloss, Hflat. reflexivity.
Qed.

End BaseStrategyProofs.

Lemma rsi_without_losses_witness :
  exists v,
    BaseStrategy.rsi (BaseStrategy.calculate_indicators Qsqrt_approx rising_bars) !! 13%nat
    = Some (Fin v) /\ (v == 100)%Q.
Proof.
  destruct (rsi_without_losses Qsqrt_approx rising_bars 13) as (_ & Hgain & _).
  - lia.
  - vm_compute. lia.
  - vm_compute. reflexivity.
  - apply Hgain. vm_compute. reflexivity.
Defined.

(** C8 as stated fails: on fourteen bars with the same close the window of
    row 13 holds no loss (and no gain), and the RSI of that row is NaN. *)
Lemma rsi_of_steady_prices_is_undefined :
  let delta := BaseStrategy.diff (map close steady_bars) in
  (exists avg_loss,
     BaseStrategy.rolling_mean 14 (BaseStrategy.losses delta) !! 13%nat
     = Some (Fin avg_loss) /\ (avg_loss == 0)%Q) /\
  BaseStrategy.rsi (BaseStrategy.calculate_indicators Qsqrt_approx steady_bars) !! 13%nat
  = Some NaN /\
  ~ (exists v,
       BaseStrategy.rsi (BaseStrategy.calculate_indicators Qsqrt_approx steady_bars)
         !! 13%nat = Some (Fin v) /\ (v == 100)%Q).
Proof.
  intros delta. split; [vm_compute; eexists; split; reflexivity|].
  split; [vm_compute; reflexivity|].
  intros (v & H & _). vm_compute in H. discriminate H.
Qed.

(** C5 as stated fails: on a single bar closing at 100 the exponentially
    weighted columns hold numbers, ema_12 = 100 and macd = 0, not NaN. *)
Lemma ewm_indicators_defined_on_first_bar :
  let f := BaseStrategy.calculate_indicators Qsqrt_approx [flat_bar 0 100] in
  (exists e, BaseStrategy.ema_12 f = [Fin e] /\ (e == 100)%Q) /\
  (exists m, BaseStrategy.macd f = [Fin m] /\ (m == 0)%Q) /\
  ~ Forall (eq NaN) (BaseStrategy.ema_12 f) /\
  ~ Forall (eq NaN) (BaseStrategy.macd f).
Proof.
  intros f. split; [|split; [|split]].
  - vm_compute. eexists. split; reflexivity.
  - vm_compute. eexists. split; reflexivity.
  - intros H. vm_compute in H. inversion H as [|? ? Hx]. discriminate Hx.
  - intros H. vm_compute in H. inversion H as [|? ? Hx]. discriminate Hx.
Qed.

(** ** The paper order path *)

Section PortfolioManagerProofs.
Import PortfolioManager.
Local Open Scope Q_scope.

Lemma buy_beyond_balance_rejected self now symbol amount price order_type :
  balance self < amount ->
  _place_paper_order self now symbol "buy" amount price order_type
  = (Rejected "Solde insuffisant", self).
Proof.
  intros Hcost. unfold _place_paper_order. simpl String.eqb. cbv iota zeta.
  assert (H : Qltb (balance self) amount = true) by (apply Qltb_lt; exact Hcost).
  rewrite H. reflexivity.
Qed.

Lemma sell_without_position_rejected self now symbol side amount price order_type :
  side <> "buy" ->
  positions self !! symbol = None ->
  _place_paper_order self now symbol side amount price order_type
  = (Rejected "Aucune position à vendre", self).
Proof.
  intros Hside Hnone. unfold _place_paper_order.
  apply String.eqb_neq in Hside. rewrite Hside, Hnone. reflexivity.
Qed.

(** C9. A paper buy whose cost exceeds the balance, and a paper sell on a
    symbol without open position, return the rejected outcome (success false,
    with an error) and leave the manager as it was: the balance, the
    positions, the trade history and the saved snapshot are unchanged. *)
Theorem rejected_order_changes_nothing
    self now symbol side amount price order_type :
  (side = "buy" /\ balance self < amount)
  \/ (side = "sell" /\ positions self !! symbol = None) ->
  let outcome := _place_paper_order self now symbol side amount price order_type in
  success outcome.1 = false /\
  (exists error, outcome.1 = Rejected error) /\
  outcome.2 = self /\
  balance outcome.2 = balance self /\
  positions outcome.2 = positions self /\
  trade_history outcome.2 = trade_history self /\
  (mode self = "paper" ->
   place_order self now symbol side amount price order_type = outcome).
Proof.
  intros Hcase outcome. subst outcome.
  assert (Hrej : exists error,
             _place_paper_order self now symbol side amount price order_type
             = (Rejected error, self)).
  { destruct Hcase as [[-> Hcost]|[-> Hnone]].
    - eexists. apply buy_beyond_balance_rejected. exact Hcost.
    - eexists. apply sell_without_position_rejected; [discriminate | exact Hnone]. }
  destruct Hrej as [error Hrej]. rewrite Hrej. simpl.
  repeat split; try reflexivity.
  - exists error. reflexivity.
  - intros Hmode. unfold place_order. rewrite Hmode. simpl. rewrite Hrej.
    reflexivity.
Qed.

Lemma rejected_order_changes_nothing_witness :
  (_place_paper_order fresh_portfolio "2024-01-01T00:00:00" "BTCUSDT" "buy"
                      20000 None "market").2 = fresh_portfolio
  /\ (_place_paper_order fresh_portfolio "2024-01-01T00:00:00" "BTCUSDT" "sell"
                         100 None "market").2 = fresh_portfolio.
Proof.
  split.
  - apply (rejected_order_changes_nothing fresh_portfolio "2024-01-01T00:00:00"
             "BTCUSDT" "buy" 20000 None "market").
    left. split; reflexivity.
  - apply (rejected_order_changes_nothing fresh_portfolio "2024-01-01T00:00:00"
             "BTCUSDT" "sell" 100 None "market").
    right. split; reflexivity.
Defined.

End PortfolioManagerProofs.

(** * Further properties *)

(** ** The simulation ledger: invariants of fills and runs *)

Section BacktestEngineMore.
Import BacktestEngine.
Local Open Scope Q_scope.

Lemma Qltb_false a b : Qltb a b = false <-> b <= a.
Proof.
  unfold Qltb. destruct (Qle_bool b a) eqn:E; simpl.
  - apply Qle_bool_iff in E. tauto.
  - split; [discriminate|]. intros H. apply Qle_bool_iff in H. congruence.
Qed.

Lemma position_size_nonneg self b :
  0 <= capital self -> 0 < close b -> 0 <= position_size self b.
Proof.
  intros Hcap Hc. unfold position_size.
  apply Qle_shift_div_l; [exact Hc|]. lra.
Qed.

(** Averaging into an open position keeps the cost basis: the new quantity
    is the old one plus the bought one, and new quantity x new average price
    = old quantity x old average price + bought quantity x fill price. *)
Theorem buy_average_conserves_cost_basis self signal b p :
  side signal = "buy" ->
  positions self !! symbol signal = Some p ->
  0 < capital self -> 0 < close b -> 0 < quantity p ->
  exists p',
    positions (_execute_backtest_trade self signal b) !! symbol signal = Some p' /\
    quantity p' = quantity p + position_size self b /\
    avg_price p'
    == (quantity p * avg_price p + position_size self b * close b)
       / (quantity p + position_size self b) /\
    quantity p' * avg_price p'
    == quantity p * avg_price p + position_size self b * close b /\
    entry_time p' = entry_time p /\
    capital (_execute_backtest_trade self signal b)
    == capital self - position_size self b * close b.
Proof.
  intros Hside Hp Hcap Hc Hq.
  assert (Hcost : position_size self b * close b <= capital self).
  { rewrite buy_cost by exact Hc. lra. }
  rewrite (buy_fill self signal b Hside Hcost). simpl. rewrite Hp.
  pose proof (position_size_pos self b Hcap Hc) as Hps.
  eexists. split; [apply lookup_insert_eq|]. simpl.
  repeat split; try reflexivity.
  field. lra.
Qed.

Lemma buy_average_conserves_cost_basis_witness :
  let self := _execute_backtest_trade (init 10000) (market_signal "X" "buy")
                                      (flat_bar 1 100) in
  exists p',
    positions (_execute_backtest_trade self (market_signal "X" "buy") (flat_bar 2 50))
      !! "X" = Some p' /\
    quantity p' * avg_price p' == 2 * 100 + (392 # 100) * 50.
Proof.
  intros self.
  destruct (buy_average_conserves_cost_basis self (market_signal "X" "buy")
              (flat_bar 2 50) (mkPosition (20000 # 10000) 100 1))
    as (p' & Hp' & _ & _ & Hbasis & _).
  - reflexivity.
  - reflexivity.
  - reflexivity.
  - reflexivity.
  - reflexivity.
  - exists p'. split; [exact Hp'|]. rewrite Hbasis. vm_compute. reflexivity.
Defined.

Lemma fill_keeps_ledger_ok self signal b :
  ledger_ok self -> 0 < close b ->
  ledger_ok (_execute_backtest_trade self signal b).
Proof.
  intros [Hcap Hpos] Hc.
  pose proof (position_size_nonneg self b Hcap Hc) as Hps.
  unfold _execute_backtest_trade.
  destruct (String.eqb (side signal) "buy").
  - destruct (Qle_bool _ _) eqn:Hcost; [|split; assumption].
    apply Qle_bool_iff in Hcost. split; simpl.
    + lra.
    + apply map_Forall_insert_2; [|exact Hpos].
      destruct (positions self !! symbol signal) as [p|] eqn:Hp; simpl.
      * pose proof (map_Forall_lookup_1 _ _ _ _ Hpos Hp) as Hq. simpl in Hq. lra.
      * exact Hps.
  - destruct (String.eqb (side signal) "sell"); [|split; assumption].
    destruct (positions self !! symbol signal) as [p|] eqn:Hp; [|split; assumption].
    pose proof (map_Forall_lookup_1 _ _ _ _ Hpos Hp) as Hq. simpl in Hq.
    assert (Hmin : 0 <= Qmin (position_size self b) (quantity p))
      by (apply Q.min_glb; assumption).
    assert (Hle : Qmin (position_size self b) (quantity p) <= quantity p)
      by apply Q.le_min_r.
    split; simpl.
    + assert (0 <= Qmin (position_size self b) (quantity p) * close b)
        by (apply Qmult_le_0_compat; lra).
      lra.
    + destruct (Qle_bool _ _).
      * apply map_Forall_delete. exact Hpos.
      * apply map_Forall_insert_2; [simpl; lra | exact Hpos].
Qed.

Lemma fill_extends_trades self signal b :
  exists new,
    trades (_execute_backtest_trade self signal b) = trades self ++ new /\
    Forall (fun t => t_side t = "sell") new.
Proof.
  unfold _execute_backtest_trade.
  destruct (String.eqb (side signal) "buy").
  - exists []. rewrite app_nil_r. split; [|constructor].
    destruct (Qle_bool _ _); reflexivity.
  - destruct (String.eqb (side signal) "sell") eqn:Hs.
    + destruct (positions self !! symbol signal).
      * eexists [_]. split; [reflexivity|]. constructor; [|constructor].
        simpl. apply String.eqb_eq. exact Hs.
      * exists []. rewrite app_nil_r. split; [reflexivity | constructor].
    + exists []. rewrite app_nil_r. split; [reflexivity | constructor].
Qed.

(** A sell at a positive close never sells more than is held or more than
    two percent of the cash buys, and what it leaves is either no position at
    all or one of more than 0.001 units. *)
Theorem sell_leaves_no_dust self signal b p :
  side signal = "sell" ->
  positions self !! symbol signal = Some p ->
  0 < close b ->
  let self' := _execute_backtest_trade self signal b in
  exists trade,
    trades self' = trades self ++ [trade] /\
    t_quantity trade <= quantity p /\
    t_quantity trade <= position_size self b /\
    (positions self' !! symbol signal = None \/
     exists p', positions self' !! symbol signal = Some p' /\
                quantity p' = quantity p - t_quantity trade /\
                1 # 1000 < quantity p').
Proof.
  intros Hside Hp Hclose self'. subst self'.
  rewrite (sell_fill self signal b p Hside Hp). simpl.
  eexists. split; [reflexivity|]. simpl.
  split; [apply Q.le_min_r|]. split; [apply Q.le_min_l|].
  destruct (Qle_bool _ _) eqn:E.
  - left. apply lookup_delete_eq.
  - right. eexists. split; [apply lookup_insert_eq|]. simpl.
    split; [reflexivity|].
    destruct (Qlt_le_dec (1 # 1000)
                (quantity p - Qmin (position_size self b) (quantity p)))
      as [H|H]; [exact H|].
    apply Qle_bool_iff in H. congruence.
Qed.

Lemma sell_leaves_no_dust_witness :
  let self := _execute_backtest_trade (init 10000) (market_signal "X" "buy")
                                      (flat_bar 1 100) in
  let self' := _execute_backtest_trade self (market_signal "X" "sell")
                                       (flat_bar 2 100) in
  exists p', positions self' !! "X" = Some p' /\ 1 # 1000 < quantity p'.
Proof.
  intros self self'.
  destruct (sell_leaves_no_dust self (market_signal "X" "sell") (flat_bar 2 100)
              (mkPosition (20000 # 10000) 100 1))
    as (trade & _ & _ & _ & [Hgone|(p' & Hp' & _ & Hq)]).
  - reflexivity.
  - reflexivity.
  - reflexivity.
  - vm_compute in Hgone. discriminate Hgone.
  - exists p'. split; assumption.
Defined.

Section RunMore.

Variable SM : Type.
Variable analyze_market : SM -> list Bar -> list Signal * SM.
Variable sqrtQ : Q -> Q.

Local Abbreviation bar_step := (bar_step SM analyze_market).
Local Abbreviation simulate := (simulate SM analyze_market).
Local Abbreviation run_backtest := (run_backtest SM analyze_market sqrtQ).

Lemma signals_keep_ledger_ok b signals :
  0 < close b ->
  forall self,
    ledger_ok self ->
    ledger_ok (foldl (fun self signal => _execute_backtest_trade self signal b)
                     self signals).
Proof.
  intros Hc. induction signals as [|s signals IH]; intros self Hok; [exact Hok|].
  simpl. apply IH. apply fill_keeps_ledger_ok; assumption.
Qed.

Lemma signals_extend_trades b signals :
  forall self,
    exists new,
      trades (foldl (fun self signal => _execute_backtest_trade self signal b)
                    self signals) = trades self ++ new /\
      Forall (fun t => t_side t = "sell") new.
Proof.
  induction signals as [|s signals IH]; intros self.
  - exists []. rewrite app_nil_r. split; [reflexivity | constructor].
  - simpl. destruct (IH (_execute_backtest_trade self s b)) as (new2 & -> & H2).
    destruct (fill_extends_trades self s b) as (new1 & -> & H1).
    exists (new1 ++ new2). rewrite app_assoc. split; [reflexivity|].
    apply Forall_app. split; assumption.
Qed.

(** What one iteration of the loop does from the 50th bar on. *)
Lemma bar_step_unfold test_data acc i b :
  test_data !! i = Some b -> (49 <= i)%nat ->
  exists signals sm' self',
    analyze_market acc.1 (take (S i) test_data) = (signals, sm') /\
    self' = foldl (fun self signal => _execute_backtest_trade self signal b)
                  acc.2 signals /\
    bar_step test_data acc i
    = (sm',
       {| initial_capital := initial_capital self';
          capital := capital self';
          capital_kind := capital_kind self';
          positions := positions self';
          trades := trades self';
          equity_curve :=
            equity_curve self'
            ++ [ {| ep_timestamp := timestamp b;
                    ep_equity := _calculate_current_equity self' b;
                    ep_capital := capital self';
                    ep_kind := current_equity_kind self' |} ] |}).
Proof.
  intros Hb Hi. unfold BacktestEngine.bar_step.
  assert (Hlen : (length (take (S i) test_data) <? 50)%nat = false).
  { apply Nat.ltb_ge. rewrite length_take.
    apply lookup_lt_Some in Hb. lia. }
  rewrite Hlen. rewrite (take_S_r _ _ _ Hb), last_snoc.
  destruct (analyze_market acc.1 (take i test_data ++ [b])) as [signals sm'].
  eexists signals, sm', _. split; [reflexivity|]. split; reflexivity.
Qed.

(** No overdraft and no short position: a run over bars with positive
    closes, started on a ledger with non-negative cash and quantities, keeps
    the cash and every position quantity non-negative, whatever the strategy
    signals. *)
Theorem run_keeps_ledger_nonnegative sm self data start_date end_date :
  ledger_ok self ->
  Forall (fun b => 0 < close b) data ->
  ledger_ok (run_backtest sm self data start_date end_date).2.
Proof.
  intros Hok Hdata.
  set (test_data := filter_period data start_date end_date).
  assert (Htd : Forall (fun b => 0 < close b) test_data).
  { apply Forall_forall. intros b Hb. unfold test_data, filter_period in Hb.
    apply list_elem_of_In, List.filter_In in Hb as [Hb _].
    apply list_elem_of_In in Hb.
    revert b Hb. apply Forall_forall. exact Hdata. }
  assert (Hsim : forall n, (n <= length test_data)%nat ->
                           ledger_ok (simulate test_data n (sm, self)).2).
  { induction n as [|n IH]; intros Hn; [exact Hok|].
    rewrite simulate_S.
    destruct (lookup_lt_is_Some_2 test_data n) as [b Hb]; [lia|].
    destruct (Nat.lt_ge_cases n 49) as [Hlt|Hge].
    - rewrite bar_step_skips by exact Hlt. apply IH. lia.
    - destruct (bar_step_unfold test_data (simulate test_data n (sm, self)) n b Hb Hge)
        as (signals & sm' & self' & _ & -> & ->).
      simpl. apply signals_keep_ledger_ok; [|apply IH; lia].
      revert Hb. apply (Forall_lookup_1 _ _ _ _ Htd). }
  unfold BacktestEngine.run_backtest. fold test_data.
  destruct (length test_data =? 0)%nat; [exact Hok|].
  simpl. apply Hsim. lia.
Qed.

(** The trade list only grows, and only by sells: a run appends to the
    trades it found, and every trade it appends has side 'sell' (a buy is
    never recorded as a trade). *)
Theorem run_records_only_sells sm self data start_date end_date :
  exists new,
    trades (run_backtest sm self data start_date end_date).2 = trades self ++ new /\
    Forall (fun t => t_side t = "sell") new.
Proof.
  set (test_data := filter_period data start_date end_date).
  assert (Hsim : forall n, (n <= length test_data)%nat ->
            exists new,
              trades (simulate test_data n (sm, self)).2 = trades self ++ new /\
              Forall (fun t => t_side t = "sell") new).
  { induction n as [|n IH]; intros Hn.
    - exists []. rewrite app_nil_r. split; [reflexivity | constructor].
    - destruct IH as (new & Hnew & Hsell); [lia|].
      rewrite simulate_S.
      destruct (lookup_lt_is_Some_2 test_data n) as [b Hb]; [lia|].
      destruct (Nat.lt_ge_cases n 49) as [Hlt|Hge].
      + rewrite bar_step_skips by exact Hlt. exists new. split; assumption.
      + destruct (bar_step_unfold test_data (simulate test_data n (sm, self)) n b Hb Hge)
          as (signals & sm' & self' & _ & -> & ->).
        simpl.
        destruct (signals_extend_trades b signals (simulate test_data n (sm, self)).2)
          as (more & -> & Hmore).
        exists (new ++ more). rewrite Hnew, app_assoc. split; [reflexivity|].
        apply Forall_app. split; assumption. }
  unfold BacktestEngine.run_backtest. fold test_data.
  destruct (length test_data =? 0)%nat.
  - exists []. rewrite app_nil_r. split; [reflexivity | constructor].
  - simpl. apply Hsim. lia.
Qed.

Lemma simulate_short test_data acc :
  forall n, (n <= 49)%nat -> simulate test_data n acc = acc.
Proof.
  induction n as [|n IH]; intros Hn; [reflexivity|].
  rewrite simulate_S, bar_step_skips by lia. apply IH. lia.
Qed.

(** A period of fewer than 50 bars is never traded: the run leaves the
    engine exactly as it was and reports on that engine, so a fresh engine
    answers with the no-trade error; an empty period answers with the
    no-data error. *)
Theorem short_period_is_never_traded sm self data start_date end_date :
  (length (filter_period data start_date end_date) < 50)%nat ->
  (run_backtest sm self data start_date end_date).2 = self /\
  (filter_period data start_date end_date = [] ->
   (run_backtest sm self data start_date end_date).1
   = Error "Aucune donnée pour la période spécifiée") /\
  (filter_period data start_date end_date <> [] ->
   (run_backtest sm self data start_date end_date).1
   = _calculate_performance_metrics sqrtQ self) /\
  (filter_period data start_date end_date <> [] -> trades self = [] ->
   (run_backtest sm self data start_date end_date).1 = Error "Aucun trade exécuté").
Proof.
  intros Hshort. unfold BacktestEngine.run_backtest.
  destruct (filter_period data start_date end_date) as [|b0 td] eqn:Htd.
  - simpl. repeat split; try reflexivity; congruence.
  - cbn [length Nat.eqb]. rewrite simulate_short by (simpl in Hshort; lia).
    cbn [fst snd]. repeat split; try reflexivity; try congruence.
    intros _ Hnone. unfold _calculate_performance_metrics. rewrite Hnone. reflexivity.
Qed.

Lemma simulate_curve_covers test_data acc :
  curve_covers_trades acc.2 ->
  forall n, (n <= length test_data)%nat ->
            curve_covers_trades (simulate test_data n acc).2.
Proof.
  intros Hacc. induction n as [|n IH]; intros Hn; [exact Hacc|].
  rewrite simulate_S.
  destruct (lookup_lt_is_Some_2 test_data n) as [b Hb]; [lia|].
  destruct (Nat.lt_ge_cases n 49) as [Hlt|Hge].
  - rewrite bar_step_skips by exact Hlt. apply IH. lia.
  - destruct (bar_step_unfold test_data (simulate test_data n acc) n b Hb Hge)
      as (signals & sm' & self' & _ & _ & ->).
    right. simpl. intros H. apply app_eq_nil in H as [_ H]. discriminate H.
Qed.

(** *** Python numbers on the ledger and the divisions of the metrics *)

(** A signal either leaves the engine as it was or fills, and a fill leaves
    a numpy float in the capital; neither touches the initial capital or
    the equity curve. *)
Lemma fill_capital_kind self signal b :
  let self' := _execute_backtest_trade self signal b in
  initial_capital self' = initial_capital self /\
  equity_curve self' = equity_curve self /\
  (self' = self \/ capital_kind self' = NpFloat).
Proof.
  unfold _execute_backtest_trade.
  destruct (String.eqb (side signal) "buy").
  - destruct (Qle_bool _ _); simpl; auto.
  - destruct (String.eqb (side signal) "sell"); [|auto].
    destruct (positions self !! symbol signal); simpl; auto.
Qed.

(** An equity that is a Python number is the capital itself: no position
    was valued. *)
Lemma python_equity self b :
  current_equity_kind self = PyNumber ->
  capital_kind self = PyNumber /\ _calculate_current_equity self b = capital self.
Proof.
  intros Hk.
  assert (H : positions self = ∅ /\ capital_kind self = PyNumber).
  { revert Hk. unfold current_equity_kind.
    apply (map_fold_weak_ind
             (fun r m => r = PyNumber -> m = ∅ /\ capital_kind self = PyNumber)).
    - intros Hk. split; [reflexivity | exact Hk].
    - intros i x m r _ _ H. discriminate H. }
  destruct H as [Hpos Hkind]. split; [exact Hkind|].
  unfold _calculate_current_equity. rewrite Hpos. apply map_fold_empty.
Qed.

Lemma fill_keeps_python_numbers c0 self signal b :
  python_numbers_are c0 self ->
  python_numbers_are c0 (_execute_backtest_trade self signal b).
Proof.
  intros (Hinit & Hcap & Hcurve).
  destruct (fill_capital_kind self signal b) as (Hi & Hc & [Hsame|Hnp]).
  - rewrite Hsame. split; [exact Hinit|]. split; assumption.
  - split; [rewrite Hi; exact Hinit|]. split.
    + rewrite Hnp. discriminate.
    + rewrite Hc. exact Hcurve.
Qed.

Lemma signals_keep_python_numbers c0 b signals :
  forall self,
    python_numbers_are c0 self ->
    python_numbers_are c0
      (foldl (fun self signal => _execute_backtest_trade self signal b)
             self signals).
Proof.
  induction signals as [|s signals IH]; intros self Hself; [exact Hself|].
  simpl. apply IH. apply fill_keeps_python_numbers. exact Hself.
Qed.

Lemma simulate_keeps_python_numbers c0 test_data acc :
  python_numbers_are c0 acc.2 ->
  forall n, (n <= length test_data)%nat ->
            python_numbers_are c0 (simulate test_data n acc).2.
Proof.
  intros Hacc. induction n as [|n IH]; intros Hn; [exact Hacc|].
  rewrite simulate_S.
  destruct (lookup_lt_is_Some_2 test_data n) as [b Hb]; [lia|].
  destruct (Nat.lt_ge_cases n 49) as [Hlt|Hge].
  - rewrite bar_step_skips by exact Hlt. apply IH. lia.
  - destruct (bar_step_unfold test_data (simulate test_data n acc) n b Hb Hge)
      as (signals & sm' & self' & _ & Hself' & ->).
    assert (Hinv : python_numbers_are c0 self')
      by (rewrite Hself'; apply signals_keep_python_numbers, IH; lia).
    destruct Hinv as (Hinit & Hcap & Hcurve).
    split; [exact Hinit|]. split; [exact Hcap|]. cbn [snd equity_curve].
    apply Forall_app. split; [exact Hcurve|].
    constructor; [|constructor]. cbn [ep_kind ep_equity]. intros Hk.
    destruct (python_equity self' b Hk) as [Hkind ->]. apply Hcap. exact Hkind.
Qed.

Lemma divide_defined python x y :
  (python = true -> ~ y == 0) -> exists q, divide python x y = Some q.
Proof.
  intros Hy. unfold divide. destruct python; [|eexists; reflexivity].
  rewrite Qeq_bool_false by (apply Hy; reflexivity). eexists; reflexivity.
Qed.

Lemma python_point_is_not_zero c0 point k :
  ~ c0 == 0 ->
  (ep_kind point = PyNumber -> ep_equity point = c0) ->
  k && is_python (ep_kind point) = true -> ~ ep_equity point == 0.
Proof.
  intros Hc0 Hpoint Hpy. apply andb_true_iff in Hpy as [_ Hpy].
  rewrite Hpoint; [exact Hc0|]. destruct (ep_kind point); [reflexivity | discriminate].
Qed.

Lemma period_returns_defined c0 curve :
  ~ c0 == 0 ->
  Forall (fun point => ep_kind point = PyNumber -> ep_equity point = c0) curve ->
  exists returns, period_returns curve = Some returns.
Proof.
  intros Hc0. induction 1 as [|prev rest Hprev Hrest IH]; [eexists; reflexivity|].
  destruct rest as [|cur rest]; [eexists; reflexivity|].
  destruct IH as [returns Hreturns].
  destruct (divide_defined (is_python (ep_kind cur) && is_python (ep_kind prev))
              (ep_equity cur - ep_equity prev) (ep_equity prev)) as [q Hq].
  { apply (python_point_is_not_zero c0); assumption. }
  exists (q :: returns).
  change (period_returns (prev :: cur :: rest))
    with (match divide (is_python (ep_kind cur) && is_python (ep_kind prev))
                       (ep_equity cur - ep_equity prev) (ep_equity prev),
                period_returns (cur :: rest) with
          | Some ret, Some returns => Some (ret :: returns)
          | _, _ => None
          end).
  rewrite Hq, Hreturns. reflexivity.
Qed.

Lemma drawdown_loop_defined c0 curve :
  ~ c0 == 0 ->
  Forall (fun point => ep_kind point = PyNumber -> ep_equity point = c0) curve ->
  forall k peak d,
    (k = PyNumber -> peak = c0) ->
    exists k' peak' d',
      foldl drawdown_step (Some (k, peak, d)) curve = Some (k', peak', d').
Proof.
  intros Hc0. induction 1 as [|point rest Hpoint Hrest IH]; intros k peak d Hpeak.
  - eexists _, _, _. reflexivity.
  - cbn [foldl]. unfold drawdown_step at 2.
    destruct (Qltb peak (ep_equity point)).
    + destruct (divide_defined (is_python (ep_kind point) && is_python (ep_kind point))
                  (ep_equity point - ep_equity point) (ep_equity point)) as [q ->].
      { apply (python_point_is_not_zero c0); assumption. }
      apply IH. exact Hpoint.
    + destruct (divide_defined (is_python k && is_python (ep_kind point))
                  (peak - ep_equity point) peak) as [q ->].
      { intros Hpy. apply andb_true_iff in Hpy as [Hpy _].
        rewrite Hpeak; [exact Hc0|]. destruct k; [reflexivity | discriminate]. }
      apply IH. exact Hpeak.
Qed.

Lemma drawdown_loop_raised curve : foldl drawdown_step None curve = None.
Proof. induction curve as [|point rest IH]; [reflexivity | exact IH]. Qed.

(** The two exceptions of the metrics: an empty equity curve with a trade on
    the ledger, or a division of two Python numbers by zero. *)
Lemma metrics_raise_cases self exn :
  _calculate_performance_metrics sqrtQ self = Raise exn ->
  (exn = "IndexError" /\ trades self <> [] /\ equity_curve self = [])
  \/ exn = "ZeroDivisionError".
Proof.
  unfold _calculate_performance_metrics.
  destruct (trades self) as [|t ts]; [discriminate|].
  destruct (equity_curve self) as [|first_point rest] eqn:Hcurve.
  - destruct (last []); intros H; injection H as <-; left; repeat split; discriminate.
  - destruct (last (first_point :: rest)) as [last_point|] eqn:Hlast.
    + destruct (divide _ _ _); [|intros H; injection H as <-; right; reflexivity].
      destruct (period_returns _); [|intros H; injection H as <-; right; reflexivity].
      destruct (foldl drawdown_step _ _) as [[[? ?] ?]|];
        [discriminate | intros H; injection H as <-; right; reflexivity].
    + apply last_None in Hlast. discriminate Hlast.
Qed.

(** With a non-zero initial capital no division of the metrics fails. *)
Lemma metrics_divisions_defined c0 self :
  ~ c0 == 0 -> python_numbers_are c0 self ->
  _calculate_performance_metrics sqrtQ self <> Raise "ZeroDivisionError".
Proof.
  intros Hc0 (Hinit & _ & Hcurve). unfold _calculate_performance_metrics.
  destruct (trades self) as [|t ts]; [discriminate|].
  destruct (last (equity_curve self)) as [last_point|]; [|discriminate].
  destruct (equity_curve self) as [|first_point rest] eqn:E; [discriminate|].
  destruct (divide_defined (is_python (ep_kind last_point))
              (ep_equity last_point - initial_capital self) (initial_capital self))
    as [total_return ->].
  { intros _. rewrite Hinit. exact Hc0. }
  destruct (period_returns_defined c0 (first_point :: rest) Hc0 Hcurve)
    as [returns ->].
  destruct (drawdown_loop_defined c0 (first_point :: rest) Hc0 Hcurve
              (ep_kind first_point) (ep_equity first_point) (Fin 0))
    as (k' & peak' & d' & ->).
  { inversion Hcurve; assumption. }
  discriminate.
Qed.

(** With a trade on the ledger and a first equity point that is the Python
    number 0, the drawdown loop divides 0 by 0 in Python numbers. *)
Lemma metrics_raise_on_python_zero self first_point rest :
  trades self <> [] ->
  equity_curve self = first_point :: rest ->
  ep_kind first_point = PyNumber -> ep_equity first_point == 0 ->
  _calculate_performance_metrics sqrtQ self = Raise "ZeroDivisionError".
Proof.
  intros Htrades Hcurve Hkind Hzero. unfold _calculate_performance_metrics.
  destruct (trades self) as [|t ts]; [congruence|].
  rewrite Hcurve.
  destruct (last (first_point :: rest)) as [last_point|] eqn:Hlast;
    [|apply last_None in Hlast; discriminate Hlast].
  assert (Hloop : foldl drawdown_step
                    (Some (ep_kind first_point, ep_equity first_point, Fin 0))
                    (first_point :: rest) = None).
  { cbn [foldl]. unfold drawdown_step at 2.
    assert (Hlt : Qltb (ep_equity first_point) (ep_equity first_point) = false)
      by (apply Qltb_false; lra).
    rewrite Hlt, Hkind. unfold divide. cbn [is_python andb].
    rewrite (proj2 (Qeq_bool_iff (ep_equity first_point) 0) Hzero).
    apply drawdown_loop_raised. }
  rewrite Hloop.
  destruct (divide _ _ _); [|reflexivity].
  destruct (period_returns _); reflexivity.
Qed.

(** The equity curve only grows along a run. *)
Lemma simulate_extends_curve test_data acc n :
  forall k, (n + k <= length test_data)%nat ->
    exists more,
      equity_curve (simulate test_data (n + k) acc).2
      = equity_curve (simulate test_data n acc).2 ++ more.
Proof.
  induction k as [|k IH]; intros Hk.
  - exists []. rewrite Nat.add_0_r, app_nil_r. reflexivity.
  - destruct IH as [more Hmore]; [lia|].
    rewrite Nat.add_succ_r, simulate_S.
    destruct (lookup_lt_is_Some_2 test_data (n + k)) as [b Hb]; [lia|].
    destruct (Nat.lt_ge_cases (n + k) 49) as [Hlt|Hge].
    + rewrite bar_step_skips by exact Hlt. exists more. exact Hmore.
    + rewrite (bar_step_records _ _ _ _ _ _ Hb Hge), Hmore, <- app_assoc.
      eexists. reflexivity.
Qed.

(** When the strategy is silent on the 50th bar, the first equity point of
    a fresh engine is its untouched capital, a Python number. *)
Lemma silent_first_bar sm c0 test_data :
  (50 <= length test_data)%nat ->
  (analyze_market sm (take 50 test_data)).1 = [] ->
  exists first_point rest,
    equity_curve (simulate test_data (length test_data) (sm, init c0)).2
    = first_point :: rest /\
    ep_kind first_point = PyNumber /\ ep_equity first_point = c0.
Proof.
  intros Hlen Hsilent.
  destruct (simulate_extends_curve test_data (sm, init c0) 50
              (length test_data - 50)) as [more Hmore]; [lia|].
  replace (50 + (length test_data - 50))%nat with (length test_data) in Hmore by lia.
  rewrite Hmore. clear Hmore.
  change 50%nat with (S 49) at 1. rewrite simulate_S, simulate_short by lia.
  destruct (lookup_lt_is_Some_2 test_data 49) as [b Hb]; [lia|].
  destruct (bar_step_unfold test_data (sm, init c0) 49 b Hb (Nat.le_refl _))
    as (signals & sm' & self' & Hsignals & Hself' & ->).
  cbn [fst] in Hsignals. rewrite Hsignals in Hsilent. cbn [fst] in Hsilent.
  subst signals. cbn [foldl snd] in Hself'. subst self'.
  eexists _, _. split; [reflexivity|]. split.
  - cbn [ep_kind]. unfold current_equity_kind. apply map_fold_empty.
  - cbn [ep_equity]. unfold _calculate_current_equity. apply map_fold_empty.
Qed.

(** When a run raises. On bars with positive closes (where the ledger of
    rationals is the code's), a run on a fresh engine raises nothing but
    ZeroDivisionError, and only when the engine was created with a capital
    of 0: with any other capital the result is the error dict or the metrics
    dict (the metrics never read an empty equity curve, and every Python
    number they divide by is the capital). A run on an engine created with
    capital 0 does raise ZeroDivisionError as soon as it records a trade
    and the strategy was silent on the 50th bar: the first equity point is
    then the Python number 0, and the drawdown loop divides 0 by 0. *)
Theorem run_raises_only_without_capital sm c0 data start_date end_date :
  Forall (fun b => 0 < close b) data ->
  let test_data := filter_period data start_date end_date in
  let run := run_backtest sm (init c0) data start_date end_date in
  (forall exn, run.1 = Raise exn -> exn = "ZeroDivisionError" /\ c0 == 0) /\
  (c0 == 0 -> trades run.2 <> [] ->
   (analyze_market sm (take 50 test_data)).1 = [] ->
   run.1 = Raise "ZeroDivisionError").
Proof.
  intros _ test_data run. subst run. unfold BacktestEngine.run_backtest.
  fold test_data.
  destruct (length test_data =? 0)%nat eqn:Hempty.
  - split; [intros exn H; discriminate H|]. intros _ Htrades. contradiction Htrades.
    reflexivity.
  - cbn [fst snd].
    set (self' := (simulate test_data (length test_data) (sm, init c0)).2).
    assert (Hnumbers : python_numbers_are c0 self').
    { apply simulate_keeps_python_numbers; [|lia].
      split; [reflexivity|]. split; [reflexivity | constructor]. }
    assert (Hcovers : curve_covers_trades self').
    { apply simulate_curve_covers; [left; reflexivity | lia]. }
    split.
    + intros exn Hraise.
      destruct (metrics_raise_cases self' exn Hraise) as [(_ & Htrades & Hcurve)| ->].
      * destruct Hcovers; contradiction.
      * split; [reflexivity|].
        destruct (Qeq_dec c0 0) as [Hz|Hnz]; [exact Hz|].
        contradiction (metrics_divisions_defined c0 self' Hnz Hnumbers).
    + intros Hzero Htrades Hsilent.
      assert (Hlen : (50 <= length test_data)%nat).
      { destruct (Nat.lt_ge_cases (length test_data) 50) as [Hshort|H]; [|exact H].
        contradiction Htrades. unfold self'.
        rewrite simulate_short by lia. reflexivity. }
      destruct (silent_first_bar sm c0 test_data Hlen Hsilent)
        as (first_point & rest & Hcurve & Hkind & Hequity).
      apply (metrics_raise_on_python_zero self' first_point rest);
        [exact Htrades | exact Hcurve | exact Hkind | rewrite Hequity; exact Hzero].
Qed.

End RunMore.

Lemma short_period_is_never_traded_witness :
  (run_backtest nat alternating_manager Qsqrt_approx 0%nat (init 10000)
                (take 49 fifty_two_bars) 0 100).2 = init 10000.
Proof.
  apply (short_period_is_never_traded nat alternating_manager Qsqrt_approx 0%nat (init 10000)
           (take 49 fifty_two_bars) 0 100).
  vm_compute. lia.
Defined.

Lemma run_raises_only_without_capital_witness :
  (run_backtest nat late_manager Qsqrt_approx 0%nat (init 0) fifty_two_bars 0 100).1
  = Raise "ZeroDivisionError".
Proof.
  apply (run_raises_only_without_capital nat late_manager Qsqrt_approx 0%nat 0
           fifty_two_bars 0 100).
  - apply Forall_fmap, Forall_true. intros i. reflexivity.
  - reflexivity.
  - vm_compute. intros H; discriminate H.
  - reflexivity.
Defined.

(** The same run on an engine created with a capital of 10000 returns the
    metrics. *)
Example funded_run_returns_metrics :
  exists m,
    (run_backtest nat late_manager Qsqrt_approx 0%nat (init 10000)
                  fifty_two_bars 0 100).1 = Metrics m.
Proof. vm_compute. eexists. reflexivity. Qed.

Lemma run_keeps_ledger_nonnegative_witness :
  ledger_ok (run_backtest nat alternating_manager Qsqrt_approx 0%nat (init 10000)
                          fifty_two_bars 0 100).2.
Proof.
  apply (run_keeps_ledger_nonnegative nat alternating_manager Qsqrt_approx 0%nat (init 10000) fifty_two_bars 0 100).
  - split; [discriminate | apply map_Forall_empty].
  - apply Forall_fmap, Forall_true. intros i. reflexivity.
Defined.

Section MetricsMore.

Variable sqrtQ : Q -> Q.

Lemma Qsum_filter_pos (l : list Q) : 0 <= Qsum (List.filter (fun p => Qltb 0 p) l).
Proof.
  induction l as [|x l IH]; simpl; [lra|].
  destruct (Qltb 0 x) eqn:E; [|exact IH].
  apply Qltb_lt in E. simpl. lra.
Qed.

Lemma count_ratio_bounds (n m : nat) :
  (n <= m)%nat -> (0 < m)%nat ->
  0 <= inject_Z (Z.of_nat n) / inject_Z (Z.of_nat m) <= 1.
Proof.
  intros Hnm Hm.
  assert (H0 : 0 < inject_Z (Z.of_nat m)).
  { change 0 with (inject_Z 0). rewrite <- Zlt_Qlt. lia. }
  assert (Hn : 0 <= inject_Z (Z.of_nat n)).
  { change 0 with (inject_Z 0). rewrite <- Zle_Qle. lia. }
  assert (Hle : inject_Z (Z.of_nat n) <= inject_Z (Z.of_nat m)).
  { rewrite <- Zle_Qle. lia. }
  split.
  - apply Qle_shift_div_l; [exact H0|]. lra.
  - apply Qle_shift_div_r; [exact H0|]. lra.
Qed.

(** The metrics dict is consistent with the ledger: it counts every trade,
    winners and losers add up to the total, the win rate lies in [0, 1], the
    profit factor is +inf or a non-negative number, and the final equity is
    the last point of the curve. *)
Theorem metrics_are_consistent self m :
  _calculate_performance_metrics sqrtQ self = Metrics m ->
  total_trades m = length (trades self) /\
  (0 < total_trades m)%nat /\
  (winning_trades m + losing_trades m = total_trades m)%nat /\
  0 <= win_rate m <= 1 /\
  (profit_factor m = PInf \/ exists q, profit_factor m = Fin q /\ 0 <= q) /\
  Some (final_equity m) = ep_equity <$> last (equity_curve self) /\
  m_trades m = trades self /\ m_equity_curve m = equity_curve self.
Proof.
  unfold _calculate_performance_metrics.
  destruct (trades self) as [|t ts] eqn:Ht; [discriminate|].
  destruct (last (equity_curve self)) as [last_point|]; [|discriminate].
  destruct (equity_curve self) as [|first_point rest]; [discriminate|].
  destruct (divide _ _ _) as [total_return|]; [|discriminate].
  destruct (period_returns _) as [returns|]; [|discriminate].
  destruct (foldl drawdown_step _ _) as [[[peak_kind peak] largest]|]; [|discriminate].
  assert (Hsome : (0 < length (t :: ts))%nat) by (simpl; lia).
  revert Hsome. generalize (t :: ts). intros all_trades Hsome.
  intros Hm. injection Hm as <-. cbn [total_trades winning_trades losing_trades
    win_rate profit_factor final_equity m_trades m_equity_curve].
  set (profits := map t_profit all_trades).
  assert (Hlen : length profits = length all_trades) by apply length_map.
  pose proof (List.filter_length_le (fun p => Qltb 0 p) profits) as Hwin.
  split; [reflexivity|]. split; [exact Hsome|]. split; [lia|].
  split; [apply count_ratio_bounds; [exact Hwin | rewrite Hlen; exact Hsome]|].
  split; [|repeat split].
  destruct (Qltb 0 _) eqn:Hloss; [|left; reflexivity].
  right. eexists. split; [reflexivity|].
  apply Qltb_lt in Hloss.
  apply Qle_shift_div_l; [exact Hloss|].
  rewrite Qmult_0_l. apply Qsum_filter_pos.
Qed.

(** The drawdown loop on positive equity values: no division fails, the
    peak stays positive and the largest drawdown is a number in [0, 1). *)
Lemma drawdown_loop_bounds curve :
  Forall (fun point => 0 < ep_equity point) curve ->
  forall k peak d,
    0 < peak -> 0 <= d < 1 ->
    exists k' peak' d',
      foldl drawdown_step (Some (k, peak, Fin d)) curve = Some (k', peak', Fin d') /\
      0 < peak' /\ 0 <= d' < 1.
Proof.
  induction 1 as [|point curve Hv Hcurve IH]; intros k peak d Hpeak Hd.
  - exists k, peak, d. repeat split; tauto.
  - cbn [foldl]. unfold drawdown_step at 2.
    set (v := ep_equity point) in *.
    assert (Hstep : forall k' peak',
              0 < peak' -> v <= peak' ->
              exists q, divide (is_python k' && is_python (ep_kind point))
                               (peak' - v) peak' = Some (Fin q) /\ 0 <= q < 1).
    { intros k' peak' Hp' Hvp. exists ((peak' - v) / peak'). split.
      - unfold divide, fdiv. rewrite (Qeq_bool_false peak' 0) by lra.
        destruct (is_python k' && is_python (ep_kind point)); reflexivity.
      - split.
        + apply Qle_shift_div_l; [exact Hp'|]. lra.
        + apply Qlt_shift_div_r; [exact Hp'|]. lra. }
    destruct (Qltb peak v) eqn:E.
    + destruct (Hstep (ep_kind point) v) as (q & -> & Hq); [exact Hv | lra |].
      unfold fgtb. destruct (Qltb d q); apply IH; assumption.
    + apply Qltb_false in E.
      destruct (Hstep k peak) as (q & -> & Hq); [exact Hpeak | exact E |].
      unfold fgtb. destruct (Qltb d q); apply IH; assumption.
Qed.

(** On an equity curve of positive values the reported maximum drawdown is a
    number in [0, 1): a loss of the whole peak is never reported. *)
Theorem max_drawdown_is_a_fraction self m :
  _calculate_performance_metrics sqrtQ self = Metrics m ->
  Forall (fun p => 0 < ep_equity p) (equity_curve self) ->
  exists d, max_drawdown m = Fin d /\ 0 <= d < 1.
Proof.
  unfold _calculate_performance_metrics.
  destruct (trades self) as [|t ts]; [discriminate|].
  destruct (last (equity_curve self)) as [last_point|]; [|discriminate].
  destruct (equity_curve self) as [|first_point rest] eqn:Hcurve; [discriminate|].
  intros Hm Hpos.
  assert (Hfirst : 0 < ep_equity first_point)
    by (inversion Hpos; assumption).
  destruct (drawdown_loop_bounds _ Hpos (ep_kind first_point)
              (ep_equity first_point) 0 Hfirst)
    as (k' & peak' & d' & Hloop & _ & Hd'); [lra|].
  rewrite Hloop in Hm.
  destruct (divide _ _ _) as [total_return|]; [|discriminate].
  destruct (period_returns _) as [returns|]; [|discriminate].
  injection Hm as <-. cbn [max_drawdown].
  exists d'. split; [reflexivity | exact Hd'].
Qed.

End MetricsMore.

Lemma metrics_are_consistent_witness :
  exists m,
    _calculate_performance_metrics Qsqrt_approx alternating_run.2 = Metrics m /\
    total_trades m = length (trades alternating_run.2) /\
    0 <= win_rate m <= 1.
Proof.
  destruct (_calculate_performance_metrics Qsqrt_approx alternating_run.2)
    as [msg|m|exn] eqn:Hm.
  - vm_compute in Hm. discriminate Hm.
  - exists m. split; [reflexivity|].
    destruct (metrics_are_consistent Qsqrt_approx alternating_run.2 m Hm)
      as (Htotal & _ & _ & Hrate & _).
    split; assumption.
  - vm_compute in Hm. discriminate Hm.
Defined.

Lemma max_drawdown_is_a_fraction_witness :
  exists m d,
    _calculate_performance_metrics Qsqrt_approx alternating_run.2 = Metrics m /\
    max_drawdown m = Fin d /\ 0 <= d < 1.
Proof.
  destruct (_calculate_performance_metrics Qsqrt_approx alternating_run.2)
    as [msg|m|exn] eqn:Hm.
  - vm_compute in Hm. discriminate Hm.
  - destruct (max_drawdown_is_a_fraction Qsqrt_approx alternating_run.2 m Hm)
      as (d & Hd & Hbounds).
    + vm_compute. repeat constructor.
    + exists m, d. repeat split; tauto.
  - vm_compute in Hm. discriminate Hm.
Defined.

End BacktestEngineMore.

(** ** Position sizing and the risk filter *)

Section RiskManagerMore.
Import RiskManager RiskFilter.
Local Open Scope Q_scope.

Lemma percentage_size_bounds self signal account_balance :
  0 <= account_balance -> 0 <= risk_per_trade self <= 1 ->
  0 <= _percentage_position_size self signal account_balance <= account_balance.
Proof.
  intros Hb Hr. unfold _percentage_position_size. fold (risk_per_trade self).
  split; nra.
Qed.

(** No sizing method asks for more than the balance or for a negative
    amount: with a non-negative balance, a risk per trade in [0, 2/3] (0.02
    by default) and a confidence in [0, 1], the position size lies between 0
    and the balance, whatever the configured method. *)
Theorem position_size_within_balance self signal account_balance :
  0 <= account_balance ->
  0 <= risk_per_trade self <= 2 # 3 ->
  0 <= confidence signal <= 1 ->
  0 <= calculate_position_size self signal account_balance <= account_balance.
Proof.
  intros Hb Hr Hc.
  assert (Hfixed : 0 <= _fixed_position_size account_balance <= account_balance).
  { unfold _fixed_position_size. split.
    - apply Q.min_glb; lra.
    - pose proof (Q.le_min_r 100 (account_balance * (1 # 10))). lra. }
  assert (Hpct : 0 <= _percentage_position_size self signal account_balance
                 <= account_balance)
    by (apply percentage_size_bounds; [exact Hb | lra]).
  unfold calculate_position_size.
  destruct (String.eqb _ "fixed"); [exact Hfixed|].
  destruct (String.eqb _ "percentage"); [exact Hpct|].
  destruct (String.eqb _ "kelly").
  - unfold _kelly_position_size.
    destruct (_get_strategy_stats self (strategy signal)) as [[p w] l].
    destruct (Qeq_bool p 0 || Qeq_bool l 0); [exact Hpct|].
    pose proof (clamp_kelly_bounds ((w / l * p - (1 - p)) / (w / l))) as [H0 H1].
    cbv zeta. split; nra.
  - destruct (String.eqb _ "volatility"); [|exact Hfixed].
    unfold _volatility_adjusted_size, _percentage_position_size.
    fold (risk_per_trade self).
    assert (Hm : 0 <= risk_per_trade self * ((1 # 2) + confidence signal) <= 1)
      by (split; nra).
    split; nra.
Qed.

Lemma position_size_within_balance_witness :
  0 <= calculate_position_size sixty_percent_manager
         (mkSignal "RSI" "BTCUSDT" "buy" (7 # 10) "") 10000 <= 10000.
Proof.
  apply position_size_within_balance.
  - discriminate.
  - split; discriminate.
  - split; discriminate.
Defined.

Lemma last_drop_lt {A} (l : list A) n :
  (n < length l)%nat -> last (drop n l) = last l.
Proof.
  intros Hn. rewrite !last_lookup, length_drop, lookup_drop. f_equal. lia.
Qed.

(** The history keeps the last 1000 results: after a trade is recorded the
    history ends with it, is a suffix of the old history followed by it, and
    has min(1000, old length + 1) entries; nothing else of the manager
    changes. *)
Theorem record_trade_caps_history self trade_result :
  let self' := record_trade self trade_result in
  last (trade_history self') = Some trade_result /\
  length (trade_history self') = Nat.min 1000 (S (length (trade_history self))) /\
  trade_history self' `suffix_of` trade_history self ++ [trade_result] /\
  ((length (trade_history self) < 1000)%nat ->
   trade_history self' = trade_history self ++ [trade_result]) /\
  position_sizing_method self' = position_sizing_method self /\
  config self' = config self /\ daily_pnl self' = daily_pnl self.
Proof.
  intros self'. subst self'. unfold record_trade. cbn [trade_history
    position_sizing_method config daily_pnl].
  set (history := trade_history self ++ [trade_result]).
  assert (Hlen : length history = S (length (trade_history self))).
  { unfold history. rewrite length_app. simpl. lia. }
  destruct (1000 <? length history)%nat eqn:E.
  - apply Nat.ltb_lt in E.
    split; [|split; [|split; [|split; [|repeat split]]]].
    + rewrite last_drop_lt by lia. unfold history. apply last_snoc.
    + rewrite length_drop. lia.
    + apply suffix_drop.
    + intros H. lia.
  - apply Nat.ltb_ge in E.
    split; [|split; [|split; [|split; [|repeat split]]]].
    + unfold history. apply last_snoc.
    + lia.
    + reflexivity.
    + intros _. reflexivity.
Qed.

Lemma other_strategy_not_counted strategy_name t history :
  is_strategy strategy_name t = false ->
  List.filter (is_strategy strategy_name) (history ++ [t])
  = List.filter (is_strategy strategy_name) history.
Proof.
  intros Hother. rewrite List.filter_app. simpl. rewrite Hother.
  apply app_nil_r.
Qed.

(** The statistics of a strategy, and so its Kelly size, depend on its own
    trades only: recording a trade of another strategy (or one without
    strategy key) changes neither, as long as the history is below its cap
    of 1000 entries. *)
Theorem kelly_ignores_other_strategies self trade_result signal account_balance :
  (length (trade_history self) < 1000)%nat ->
  tr_strategy trade_result <> Some (strategy signal) ->
  _get_strategy_stats (record_trade self trade_result) (strategy signal)
  = _get_strategy_stats self (strategy signal) /\
  _kelly_position_size (record_trade self trade_result) signal account_balance
  = _kelly_position_size self signal account_balance.
Proof.
  intros Hcap Hother.
  assert (Hnot : is_strategy (strategy signal) trade_result = false).
  { unfold is_strategy. destruct (tr_strategy trade_result) as [s|]; [|reflexivity].
    apply String.eqb_neq. congruence. }
  assert (Hstats : _get_strategy_stats (record_trade self trade_result) (strategy signal)
                   = _get_strategy_stats self (strategy signal)).
  { unfold _get_strategy_stats, record_trade. cbn [trade_history].
    assert (E : (1000 <? length (trade_history self ++ [trade_result]))%nat = false).
    { apply Nat.ltb_ge. rewrite length_app. simpl. lia. }
    rewrite E, other_strategy_not_counted by exact Hnot. reflexivity. }
  split; [exact Hstats|].
  unfold _kelly_position_size, _percentage_position_size. rewrite Hstats.
  reflexivity.
Qed.

Lemma kelly_ignores_other_strategies_witness :
  _kelly_position_size
    (record_trade sixty_percent_manager (mkTradeResult (Some "MACD") (-500)))
    (mkSignal "RSI" "BTCUSDT" "buy" (7 # 10) "") 10000
  = _kelly_position_size sixty_percent_manager
      (mkSignal "RSI" "BTCUSDT" "buy" (7 # 10) "") 10000.
Proof.
  apply (kelly_ignores_other_strategies sixty_percent_manager
           (mkTradeResult (Some "MACD") (-500))
           (mkSignal "RSI" "BTCUSDT" "buy" (7 # 10) "") 10000).
  - vm_compute. lia.
  - discriminate.
Defined.

Section FilterMore.

Variable P : Type.
Variable side_of : P -> string.

Local Abbreviation should_execute := (_should_execute_signal P side_of).
Local Abbreviation filter_signals := (filter_signals P side_of).

Lemma should_execute_iff self signal current_positions :
  should_execute self signal current_positions = true <->
  - max_daily_loss self <= daily_pnl self /\
  (size current_positions < 5)%nat /\
  (forall position, current_positions !! symbol signal = Some position ->
                    side_of position = side signal) /\
  5 # 10 <= confidence signal.
Proof.
  unfold RiskFilter._should_execute_signal.
  destruct (Qltb (daily_pnl self) (- max_daily_loss self)) eqn:Hloss.
  { apply Qltb_lt in Hloss. split; [discriminate|]. intros (H & _). lra. }
  assert (Hloss' : - max_daily_loss self <= daily_pnl self).
  { destruct (Qlt_le_dec (daily_pnl self) (- max_daily_loss self)) as [H|H];
      [|exact H]. apply Qltb_lt in H. congruence. }
  destruct (5 <=? size current_positions)%nat eqn:Hsize.
  { apply Nat.leb_le in Hsize. split; [discriminate|]. intros (_ & H & _). lia. }
  apply Nat.leb_gt in Hsize.
  destruct (current_positions !! symbol signal) as [position|] eqn:Hpos.
  - destruct (String.eqb (side_of position) (side signal)) eqn:Hside; simpl.
    + apply String.eqb_eq in Hside.
      destruct (Qltb (confidence signal) (5 # 10)) eqn:Hconf.
      * apply Qltb_lt in Hconf. split; [discriminate|]. intros (_ & _ & _ & H). lra.
      * split; [|reflexivity]. intros _. repeat split; try assumption.
        -- intros p [= <-]. exact Hside.
        -- destruct (Qlt_le_dec (confidence signal) (5 # 10)) as [H|H]; [|exact H].
           apply Qltb_lt in H. congruence.
    + apply String.eqb_neq in Hside. split; [discriminate|].
      intros (_ & _ & H & _). exfalso. apply Hside. apply H. reflexivity.
  - destruct (Qltb (confidence signal) (5 # 10)) eqn:Hconf.
    + apply Qltb_lt in Hconf. split; [discriminate|]. intros (_ & _ & _ & H). lra.
    + split; [|reflexivity]. intros _. repeat split; try assumption.
      * intros p [=].
      * destruct (Qlt_le_dec (confidence signal) (5 # 10)) as [H|H]; [|exact H].
        apply Qltb_lt in H. congruence.
Qed.

Lemma filter_blocked self signals current_positions :
  daily_pnl self < - max_daily_loss self \/ (5 <= size current_positions)%nat ->
  filter_signals self signals current_positions = [].
Proof.
  intros Hblocked. unfold RiskFilter.filter_signals.
  induction signals as [|s signals IH]; [reflexivity|]. simpl.
  destruct (should_execute self s current_positions) eqn:E; [|exact IH].
  apply should_execute_iff in E as (Hloss & Hsize & _). exfalso.
  destruct Hblocked; [lra | lia].
Qed.

(** The risk filter only removes signals: its output is a sub-list of its
    input, in the same order; a signal is kept exactly when the daily loss
    limit is not breached, fewer than five positions are open, no position
    of another side is open on its symbol and its confidence is at least
    0.5. When the limit is breached or five positions are open, nothing is
    kept. *)
Theorem risk_filter_contract self signals current_positions :
  filter_signals self signals current_positions `sublist_of` signals /\
  (forall signal,
     signal ∈ filter_signals self signals current_positions <->
     signal ∈ signals /\
     - max_daily_loss self <= daily_pnl self /\
     (size current_positions < 5)%nat /\
     (forall position, current_positions !! symbol signal = Some position ->
                       side_of position = side signal) /\
     5 # 10 <= confidence signal) /\
  (daily_pnl self < - max_daily_loss self \/ (5 <= size current_positions)%nat ->
   filter_signals self signals current_positions = []).
Proof.
  unfold RiskFilter.filter_signals. split; [|split].
  - induction signals as [|s signals IH]; simpl; [constructor|].
    destruct (should_execute self s current_positions).
    + apply sublist_skip. exact IH.
    + apply sublist_cons. exact IH.
  - intros signal. rewrite list_elem_of_In, List.filter_In, <- list_elem_of_In.
    rewrite should_execute_iff. tauto.
  - apply filter_blocked.
Qed.

(** The daily loss limit works as a breaker: once the accumulated P&L of
    the day is below minus the limit every signal is rejected, and after the
    daily reset (with a non-negative limit) the accumulated P&L no longer
    rejects any. *)
Theorem daily_loss_breaker self pnl signals current_positions :
  0 <= max_daily_loss self ->
  daily_pnl self + pnl < - max_daily_loss self ->
  filter_signals (update_daily_pnl self pnl) signals current_positions = [] /\
  daily_trades (update_daily_pnl self pnl) = (daily_trades self + 1)%nat /\
  (forall signal,
     signal ∈ filter_signals (reset_daily_stats (update_daily_pnl self pnl))
                signals current_positions <->
     signal ∈ signals /\
     (size current_positions < 5)%nat /\
     (forall position, current_positions !! symbol signal = Some position ->
                       side_of position = side signal) /\
     5 # 10 <= confidence signal).
Proof.
  intros Hlimit Hloss. split; [|split; [reflexivity|]].
  - apply filter_blocked. left. exact Hloss.
  - intros signal.
    unfold RiskFilter.filter_signals.
    rewrite list_elem_of_In, List.filter_In, <- list_elem_of_In.
    rewrite should_execute_iff. cbn [reset_daily_stats daily_pnl max_daily_loss
      update_daily_pnl].
    split; [tauto|]. intros (H1 & H2 & H3 & H4). repeat split; try assumption. lra.
Qed.

End FilterMore.

Lemma daily_loss_breaker_witness :
  filter_signals PortfolioManager.Position PortfolioManager.pos_side
    (update_daily_pnl (init (mkConfig None None None None)) (-1))
    [mkSignal "RSI" "BTCUSDT" "buy" (7 # 10) ""] ∅ = [].
Proof.
  apply (daily_loss_breaker PortfolioManager.Position PortfolioManager.pos_side
           (init (mkConfig None None None None)) (-1)
           [mkSignal "RSI" "BTCUSDT" "buy" (7 # 10) ""] ∅).
  - discriminate.
  - reflexivity.
Defined.

End RiskManagerMore.

(** ** The paper portfolio *)

Section PortfolioManagerMore.
Import PortfolioManager PortfolioReport.
Local Open Scope Q_scope.

Lemma weighted_sum_insert_fresh {A} (f : string -> A -> Q) cash (m : gmap string A) k p :
  m !! k = None ->
  weighted_sum f cash (<[k := p]> m) == weighted_sum f cash m + f k p.
Proof.
  intros Hk. unfold weighted_sum.
  apply (map_fold_insert Qeq (fun (k : string) (p : A) (acc : Q) => acc + f k p)).
  - intros j z x y Hxy. rewrite Hxy. reflexivity.
  - intros. ring.
  - exact Hk.
Qed.

Lemma weighted_sum_delete {A} (f : string -> A -> Q) cash (m : gmap string A) k p :
  m !! k = Some p ->
  weighted_sum f cash m == weighted_sum f cash (delete k m) + f k p.
Proof.
  intros Hk. unfold weighted_sum.
  apply (map_fold_delete Qeq (fun (k : string) (p : A) (acc : Q) => acc + f k p)).
  - intros j z x y Hxy. rewrite Hxy. reflexivity.
  - intros. ring.
  - exact Hk.
Qed.

Lemma weighted_sum_replace {A} (f : string -> A -> Q) cash (m : gmap string A) k p p' :
  m !! k = Some p ->
  weighted_sum f cash (<[k := p']> m) == weighted_sum f cash m - f k p + f k p'.
Proof.
  intros Hk. rewrite <- (insert_delete_eq m k p').
  rewrite weighted_sum_insert_fresh by apply lookup_delete_eq.
  rewrite (weighted_sum_delete f cash m k p Hk). ring.
Qed.

Lemma weighted_sum_cash {A} (f : string -> A -> Q) (m : gmap string A) :
  forall cash x, weighted_sum f (cash + x) m == weighted_sum f cash m + x.
Proof.
  induction m as [|k p m Hk IH] using map_ind; intros cash x.
  - unfold weighted_sum. rewrite !map_fold_empty. reflexivity.
  - rewrite !weighted_sum_insert_fresh by exact Hk. rewrite IH. ring.
Qed.

Lemma portfolio_value_is_weighted_sum self :
  get_portfolio_value self = weighted_sum table_value (balance self) (positions self).
Proof. reflexivity. Qed.

Lemma table_price_pos symbol : 0 < _get_current_price symbol.
Proof.
  unfold _get_current_price.
  repeat match goal with |- context [String.eqb ?a ?b] => destruct (String.eqb a b) end;
    reflexivity.
Qed.

(** The price an order is filled at is never zero: it is the given price
    unless that is absent or zero, and the table price, which is positive,
    otherwise. *)
Lemma fill_price_nonzero price symbol : ~ price_or_current price symbol == 0.
Proof.
  unfold price_or_current. pose proof (table_price_pos symbol).
  destruct price as [p|]; [|lra].
  destruct (Qeq_bool p 0) eqn:E; [lra|].
  intros Hz. apply Qeq_bool_iff in Hz. congruence.
Qed.

Lemma fill_price_pos price symbol :
  (forall p, price = Some p -> 0 <= p) -> 0 < price_or_current price symbol.
Proof.
  intros Hp. pose proof (fill_price_nonzero price symbol) as Hnz.
  unfold price_or_current in *. pose proof (table_price_pos symbol).
  destruct price as [p|]; [|lra].
  destruct (Qeq_bool p 0); [lra|]. specialize (Hp p eq_refl). lra.
Qed.

(** What an accepted buy does, field by field, when it does not average a
    held position to a quantity of zero. *)
Lemma paper_buy_fill self now symbol amount price order_type :
  amount <= balance self ->
  (forall p, positions self !! symbol = Some p ->
             ~ quantity p + amount / price_or_current price symbol == 0) ->
  let current_price := price_or_current price symbol in
  let quantity' := amount / current_price in
  _place_paper_order self now symbol "buy" amount price order_type
  = record_and_save
      (with_ledger self (balance self - amount)
         (<[symbol :=
              match positions self !! symbol with
              | Some p =>
                  {| quantity := quantity p + quantity';
                     avg_price :=
                       (quantity p * avg_price p + quantity' * current_price)
                       / (quantity p + quantity');
                     pos_side := pos_side p;
                     entry_time := entry_time p |}
              | None =>
                  {| quantity := quantity';
                     avg_price := current_price;
                     pos_side := "long";
                     entry_time := now |}
              end]> (positions self)))
      now symbol "buy" quantity' current_price amount 0.
Proof.
  intros Hcost Havg current_price quantity'. unfold _place_paper_order.
  simpl String.eqb. cbv iota zeta.
  assert (H : Qltb (balance self) amount = false).
  { destruct (Qltb (balance self) amount) eqn:E; [|reflexivity].
    apply Qltb_lt in E. lra. }
  rewrite H. destruct (positions self !! symbol) as [p|]; [|reflexivity].
  rewrite (Qeq_bool_false _ 0) by (apply Havg; reflexivity). reflexivity.
Qed.

(** A buy on a symbol without position is such a buy. *)
Lemma fresh_symbol_averages_nothing self symbol (x : Q) :
  positions self !! symbol = None ->
  forall p, positions self !! symbol = Some p -> ~ quantity p + x == 0.
Proof. intros Hnone p Hp. congruence. Qed.

(** A buy that averages a held position to a quantity of zero raises in the
    division of the new average price: the balance is debited already,
    nothing else is written. *)
Lemma paper_buy_raises self now symbol amount price order_type p :
  amount <= balance self ->
  positions self !! symbol = Some p ->
  quantity p + amount / price_or_current price symbol == 0 ->
  _place_paper_order self now symbol "buy" amount price order_type
  = (Raised "float division by zero",
     with_ledger self (balance self - amount) (positions self)).
Proof.
  intros Hcost Hp Hzero. unfold _place_paper_order.
  simpl String.eqb. cbv iota zeta.
  assert (H : Qltb (balance self) amount = false).
  { destruct (Qltb (balance self) amount) eqn:E; [|reflexivity].
    apply Qltb_lt in E. lra. }
  rewrite H, Hp. apply Qeq_bool_iff in Hzero. rewrite Hzero. reflexivity.
Qed.

(** What a sell on an open position does, field by field. *)
Lemma paper_sell_fill self now symbol side amount price order_type p :
  side <> "buy" ->
  positions self !! symbol = Some p ->
  let current_price := price_or_current price symbol in
  let sold := Qmin (amount / current_price) (quantity p) in
  _place_paper_order self now symbol side amount price order_type
  = record_and_save
      (with_ledger self (balance self + sold * current_price)
         (if Qle_bool (quantity p - sold) (1 # 1000)
          then delete symbol (positions self)
          else <[symbol := {| quantity := quantity p - sold;
                              avg_price := avg_price p;
                              pos_side := pos_side p;
                              entry_time := entry_time p |}]> (positions self)))
      now symbol side sold current_price amount
      (if String.eqb side "sell" then (current_price - avg_price p) * sold else 0).
Proof.
  intros Hside Hp current_price sold. unfold _place_paper_order.
  apply String.eqb_neq in Hside. rewrite Hside, Hp. reflexivity.
Qed.

(** The three outcomes of a paper order. A rejected order changes nothing.
    A filled order is recorded and saved: it appends exactly one record to
    the trade history, with the order's symbol, side and amount and the
    fill's quantity, price and profit (the realized profit for the side
    'sell', 0 for any other side); its order id is the new length of the
    history; and the snapshot saved to disk is the ledger as the order leaves
    it. An order raises only as a buy, affordable, that averages a held
    position to a quantity of exactly zero: the balance is debited by the
    amount and nothing else is written, neither position, record nor
    snapshot, and [place_order] answers with success False on that state. *)
Theorem paper_order_is_recorded self now symbol side amount price order_type :
  let outcome := _place_paper_order self now symbol side amount price order_type in
  match outcome.1 with
  | Rejected _ => outcome.2 = self
  | Filled order_id symbol' side' quantity' price' profit' =>
      exists record,
        trade_history outcome.2 = trade_history self ++ [record] /\
        order_id = length (trade_history outcome.2) /\
        tr_symbol record = symbol /\ symbol' = symbol /\
        tr_side record = side /\ side' = side /\
        tr_amount record = amount /\
        tr_quantity record = quantity' /\
        tr_price record = price' /\ price' = price_or_current price symbol /\
        tr_profit record = profit' /\ (side <> "sell" -> profit' = 0) /\
        saved outcome.2
        = Some (balance outcome.2, positions outcome.2, trade_history outcome.2) /\
        mode outcome.2 = mode self
  | Raised message =>
      side = "buy" /\ amount <= balance self /\
      (exists p, positions self !! symbol = Some p /\
                 quantity p + amount / price_or_current price symbol == 0) /\
      outcome.2 = with_ledger self (balance self - amount) (positions self) /\
      (mode self = "paper" ->
       place_order self now symbol side amount price order_type
       = (Rejected message, outcome.2))
  end.
Proof.
  intros outcome. subst outcome. unfold place_order, _place_paper_order.
  destruct (String.eqb side "buy") eqn:Hside.
  - apply String.eqb_eq in Hside. subst side. cbn [String.eqb].
    destruct (Qltb (balance self) amount) eqn:Hcost; [reflexivity|].
    apply Qltb_false in Hcost.
    destruct (positions self !! symbol) as [p|] eqn:Hp.
    + destruct (Qeq_bool (quantity p + amount / price_or_current price symbol) 0)
        eqn:Hzero.
      * cbn. apply Qeq_bool_iff in Hzero.
        split; [reflexivity|]. split; [exact Hcost|].
        split; [exists p; split; [reflexivity | exact Hzero]|].
        split; [reflexivity|]. intros ->. reflexivity.
      * cbn. eexists. repeat split.
    + cbn. eexists. repeat split.
  - destruct (positions self !! symbol) as [p|]; [|reflexivity].
    cbn. eexists. repeat split.
    intros Hsell. apply String.eqb_neq in Hsell. rewrite Hsell. reflexivity.
Qed.

Lemma record_and_save_ledger self now symbol side quantity' price' amount profit :
  let s' := (record_and_save self now symbol side quantity' price' amount profit).2 in
  balance s' = balance self /\ positions s' = positions self.
Proof. split; reflexivity. Qed.

(** No overdraft, no short position: an order for a non-negative amount, at
    the table price or at a non-negative given price, leaves the balance and
    every quantity non-negative and every position on the long side. *)
Theorem paper_order_keeps_portfolio_sound
    self now symbol side amount price order_type :
  portfolio_ok self ->
  0 <= amount ->
  (forall p, price = Some p -> 0 <= p) ->
  portfolio_ok (_place_paper_order self now symbol side amount price order_type).2.
Proof.
  intros [Hbal Hpos] Hamount Hprice.
  pose proof (fill_price_pos price symbol Hprice) as Hcp.
  assert (Hq : 0 <= amount / price_or_current price symbol)
    by (apply Qle_shift_div_l; [exact Hcp | lra]).
  destruct (String.eqb side "buy") eqn:Hside.
  - apply String.eqb_eq in Hside. subst side.
    destruct (Qlt_le_dec (balance self) amount) as [Hlt|Hle].
    + rewrite buy_beyond_balance_rejected by exact Hlt. split; assumption.
    + destruct (positions self !! symbol) as [p|] eqn:Hp.
      * destruct (map_Forall_lookup_1 _ _ _ _ Hpos Hp) as [Hqp Hlong].
        destruct (Qeq_dec (quantity p + amount / price_or_current price symbol) 0)
          as [Hzero|Hnz].
        -- rewrite (paper_buy_raises self now symbol amount price order_type p
                      Hle Hp Hzero).
           split; cbn; [lra | exact Hpos].
        -- rewrite paper_buy_fill;
             [|exact Hle | intros p0 Hp0; rewrite Hp in Hp0; injection Hp0 as <-; exact Hnz].
           split; cbn; [lra|].
           apply map_Forall_insert_2; [|exact Hpos].
           rewrite Hp. cbn. split; [lra | exact Hlong].
      * rewrite paper_buy_fill;
          [|exact Hle | apply fresh_symbol_averages_nothing; exact Hp].
        split; cbn; [lra|].
        apply map_Forall_insert_2; [|exact Hpos].
        rewrite Hp. split; [exact Hq | reflexivity].
  - apply String.eqb_neq in Hside.
    destruct (positions self !! symbol) as [p|] eqn:Hp.
    + rewrite (paper_sell_fill self now symbol side amount price order_type p Hside Hp).
      destruct (map_Forall_lookup_1 _ _ _ _ Hpos Hp) as [Hqp Hlong].
      set (sold := Qmin (amount / price_or_current price symbol) (quantity p)).
      assert (Hsold : 0 <= sold <= quantity p)
        by (split; [apply Q.min_glb; assumption | apply Q.le_min_r]).
      split; cbn.
      * assert (0 <= sold * price_or_current price symbol)
          by (apply Qmult_le_0_compat; lra).
        lra.
      * destruct (Qle_bool _ _).
        -- apply map_Forall_delete. exact Hpos.
        -- apply map_Forall_insert_2; [|exact Hpos]. cbn. split; [lra | exact Hlong].
    + rewrite sell_without_position_rejected by assumption. split; assumption.
Qed.

Lemma paper_order_keeps_portfolio_sound_witness :
  portfolio_ok
    (_place_paper_order fresh_portfolio "2024-01-01T00:00:00" "BTCUSDT" "buy"
                        900 None "market").2.
Proof.
  apply paper_order_keeps_portfolio_sound.
  - split; [discriminate | apply map_Forall_empty].
  - discriminate.
  - intros p H. discriminate H.
Defined.

(** A market order (no price given, so filled at the table price) leaves
    the portfolio value unchanged when it buys and is filled, when it is
    rejected, and when it sells and keeps the position open or sells all of
    it; a sell that leaves a remainder of at most 0.001 deletes the position,
    and the value drops by that remainder at the table price; a buy that
    raises (it averages the held position to a quantity of zero) has debited
    the balance and bought nothing, and the value drops by the amount. *)
Theorem market_order_preserves_portfolio_value
    self now symbol side amount order_type :
  let outcome := _place_paper_order self now symbol side amount None order_type in
  let self' := outcome.2 in
  (side = "buy" ->
   match outcome.1 with
   | Raised _ => get_portfolio_value self' == get_portfolio_value self - amount
   | _ => get_portfolio_value self' == get_portfolio_value self
   end) /\
  (positions self !! symbol = None ->
   get_portfolio_value self' == get_portfolio_value self) /\
  (side <> "buy" ->
   forall p, positions self !! symbol = Some p ->
     let remaining :=
       quantity p - Qmin (amount / _get_current_price symbol) (quantity p) in
     (1 # 1000 < remaining ->
      get_portfolio_value self' == get_portfolio_value self) /\
     (remaining <= 1 # 1000 ->
      get_portfolio_value self'
      == get_portfolio_value self - remaining * _get_current_price symbol)).
Proof.
  intros outcome self'. subst self' outcome.
  rewrite !portfolio_value_is_weighted_sum.
  pose proof (table_price_pos symbol) as Hcp.
  assert (Hfill : amount <= balance self ->
            (forall p, positions self !! symbol = Some p ->
                       ~ quantity p + amount / price_or_current None symbol == 0) ->
            weighted_sum table_value
              (balance (_place_paper_order self now symbol "buy" amount None order_type).2)
              (positions (_place_paper_order self now symbol "buy" amount None order_type).2)
            == weighted_sum table_value (balance self) (positions self)).
  { intros Hle Havg. rewrite (paper_buy_fill _ _ _ _ _ _ Hle Havg). cbn.
    unfold Qminus at 1. rewrite weighted_sum_cash.
    destruct (positions self !! symbol) as [p|] eqn:Hp.
    - rewrite (weighted_sum_replace _ _ _ _ p _ Hp). unfold table_value. cbn.
      field. lra.
    - rewrite (weighted_sum_insert_fresh _ _ _ _ _ Hp). unfold table_value. cbn.
      field. lra. }
  split; [|split].
  - intros ->. destruct (Qlt_le_dec (balance self) amount) as [Hlt|Hle].
    + rewrite buy_beyond_balance_rejected by exact Hlt. reflexivity.
    + case_eq (positions self !! symbol); [intros p Hp | intros Hp].
      * destruct (Qeq_dec (quantity p + amount / price_or_current None symbol) 0)
          as [Hzero|Hnz].
        -- rewrite (paper_buy_raises self now symbol amount None order_type p
                      Hle Hp Hzero).
           cbn. unfold Qminus at 1. rewrite weighted_sum_cash. ring.
        -- assert (Havg : forall p0, positions self !! symbol = Some p0 ->
                     ~ quantity p0 + amount / price_or_current None symbol == 0).
           { intros p0 Hp0. rewrite Hp in Hp0. injection Hp0 as <-. exact Hnz. }
           specialize (Hfill Hle Havg).
           rewrite (paper_buy_fill _ _ _ _ _ _ Hle Havg) in Hfill.
           rewrite (paper_buy_fill _ _ _ _ _ _ Hle Havg). exact Hfill.
      * assert (Havg : forall p0, positions self !! symbol = Some p0 ->
                   ~ quantity p0 + amount / price_or_current None symbol == 0)
          by (apply fresh_symbol_averages_nothing; exact Hp).
        specialize (Hfill Hle Havg).
        rewrite (paper_buy_fill _ _ _ _ _ _ Hle Havg) in Hfill.
        rewrite (paper_buy_fill _ _ _ _ _ _ Hle Havg). exact Hfill.
  - intros Hnone. destruct (String.eqb side "buy") eqn:Hside.
    + apply String.eqb_eq in Hside. subst side.
      destruct (Qlt_le_dec (balance self) amount) as [Hlt|Hle].
      * rewrite buy_beyond_balance_rejected by exact Hlt. reflexivity.
      * apply Hfill; [exact Hle | apply fresh_symbol_averages_nothing; exact Hnone].
    + apply String.eqb_neq in Hside.
      rewrite sell_without_position_rejected by assumption. reflexivity.
  - intros Hside p Hp remaining.
    rewrite (paper_sell_fill self now symbol side amount None order_type p Hside Hp).
    cbn. fold remaining. split.
    + intros Hrem.
      assert (Hkeep : Qle_bool remaining (1 # 1000) = false).
      { destruct (Qle_bool _ _) eqn:E; [|reflexivity].
        apply Qle_bool_iff in E. lra. }
      rewrite Hkeep, weighted_sum_cash, (weighted_sum_replace _ _ _ _ p _ Hp).
      unfold table_value, remaining. cbn. ring.
    + intros Hrem. apply Qle_bool_iff in Hrem. rewrite Hrem.
      rewrite weighted_sum_cash, (weighted_sum_delete _ (balance self) _ _ p Hp).
      unfold table_value, remaining. ring.
Qed.

(** Buying for an amount and selling for the same amount at the same price
    is a round trip: on a symbol without open position, the buy followed by
    the sell restores the balance and the positions, and the sell's record
    carries the whole bought quantity and a profit of zero. *)
Theorem paper_buy_then_sell_round_trip
    self now now' symbol amount price order_type order_type' :
  positions self !! symbol = None ->
  amount <= balance self ->
  let bought := (_place_paper_order self now symbol "buy" amount price order_type).2 in
  let sold := _place_paper_order bought now' symbol "sell" amount price order_type' in
  balance sold.2 == balance self /\
  positions sold.2 = positions self /\
  exists order_id quantity' profit,
    sold.1 = Filled order_id symbol "sell" quantity' (price_or_current price symbol)
                    profit /\
    quantity' == amount / price_or_current price symbol /\ profit == 0 /\
    order_id = (length (trade_history self) + 2)%nat.
Proof.
  intros Hnone Hcost bought sold. subst sold bought.
  pose proof (fill_price_nonzero price symbol) as Hcp.
  rewrite (paper_buy_fill self now symbol amount price order_type Hcost
             (fresh_symbol_averages_nothing self symbol _ Hnone)).
  rewrite Hnone. cbn [record_and_save snd].
  set (q := amount / price_or_current price symbol).
  set (held := {| quantity := q; avg_price := price_or_current price symbol;
                  pos_side := "long"; entry_time := now |}).
  rewrite (paper_sell_fill _ now' symbol "sell" amount price order_type' held);
    [|discriminate|cbn; apply lookup_insert_eq].
  cbn. fold q.
  assert (Hmin : Qmin q q == q) by (apply Q.min_l; lra).
  assert (Hdust : Qle_bool (q - Qmin q q) (1 # 1000) = true)
    by (apply Qle_bool_iff; rewrite Hmin; lra).
  rewrite Hdust. split; [|split].
  - rewrite Hmin. unfold q. field. exact Hcp.
  - rewrite delete_insert_id by exact Hnone. reflexivity.
  - eexists _, _, _. split; [reflexivity|]. split; [exact Hmin|]. split; [ring|].
    rewrite !length_app. simpl. lia.
Qed.

Lemma paper_buy_then_sell_round_trip_witness :
  let bought :=
    (_place_paper_order fresh_portfolio "t1" "ETHUSDT" "buy" 900 None "market").2 in
  positions (_place_paper_order bought "t2" "ETHUSDT" "sell" 900 None "market").2
  = positions fresh_portfolio.
Proof.
  intros bought.
  apply (paper_buy_then_sell_round_trip fresh_portfolio "t1" "t2" "ETHUSDT" 900 None
           "market" "market").
  - reflexivity.
  - discriminate.
Defined.

End PortfolioManagerMore.

(** ** The aggregator and the strategy runner *)

Section StrategyManagerMore.
Import StrategyManager StrategyRunner.
Local Open Scope Q_scope.

Lemma output_symbols_NoDup signals :
  NoDup (map symbol (_filter_and_prioritize_signals signals)).
Proof.
  rewrite output_is_picks. apply picks_NoDup; [apply group_by_symbol_NoDup|].
  intros k g s Hin Hs. apply entry_is_group in Hin. subst g.
  apply list_elem_of_filter in Hs as [Hs _]. exact Hs.
Qed.

Lemma output_from_input signals o :
  o ∈ _filter_and_prioritize_signals signals -> o ∈ signals.
Proof.
  rewrite output_is_picks. intros Ho.
  apply picks_elem in Ho as (k & g & Hin & Ho).
  apply pick_elem in Ho as (Ho & _).
  apply entry_is_group in Hin. subst g.
  apply list_elem_of_filter in Ho as [_ Ho]. exact Ho.
Qed.

Lemma append_fresh d sym s :
  sym ∉ d.*1 -> append_to_group d sym s = d ++ [(sym, [s])].
Proof.
  induction d as [|[k g] d IH]; simpl; intros Hfresh; [reflexivity|].
  apply not_elem_of_cons in Hfresh as [Hne Hfresh].
  assert (E : String.eqb k sym = false) by (apply String.eqb_neq; congruence).
  rewrite E, IH by exact Hfresh. reflexivity.
Qed.

Lemma group_distinct signals :
  NoDup (map symbol signals) ->
  group_by_symbol signals = map (fun s => (symbol s, [s])) signals.
Proof.
  induction signals as [|s signals IH] using rev_ind; intros Hnd; [reflexivity|].
  rewrite map_app in Hnd. apply NoDup_app in Hnd as (Hnd & Hdisj & _).
  rewrite group_by_symbol_snoc, IH by exact Hnd.
  rewrite append_fresh.
  - rewrite map_app. reflexivity.
  - intros Hin. apply (Hdisj (symbol s)).
    + apply list_elem_of_fmap in Hin as ([k g] & Hk & Hin).
      apply list_elem_of_fmap in Hin as (s' & [= -> ->] & Hs').
      simpl in Hk. rewrite Hk.
      apply list_elem_of_fmap. exists s'. split; [reflexivity | exact Hs'].
    + simpl. apply elem_of_cons. left. reflexivity.
Qed.

Lemma picks_singletons signals :
  picks (map (fun s => (symbol s, [s])) signals) = signals.
Proof.
  induction signals as [|s signals IH]; [reflexivity|].
  simpl. rewrite IH. reflexivity.
Qed.

(** Signals on pairwise distinct symbols pass the aggregator unchanged, in
    their order; the aggregator is therefore idempotent: applied to its own
    output it returns that output. *)
Theorem aggregator_is_idempotent signals :
  (NoDup (map symbol signals) -> _filter_and_prioritize_signals signals = signals) /\
  _filter_and_prioritize_signals (_filter_and_prioritize_signals signals)
  = _filter_and_prioritize_signals signals.
Proof.
  assert (Hfix : forall l, NoDup (map symbol l) ->
                           _filter_and_prioritize_signals l = l).
  { intros l Hnd. rewrite output_is_picks, group_distinct by exact Hnd.
    apply picks_singletons. }
  split; [apply Hfix|]. apply Hfix. apply output_symbols_NoDup.
Qed.

Section RunnerMore.

Variable S : Type.
Variable analyze : S -> list Bar -> option (list Signal) * S.

Local Abbreviation run_strategy := (run_strategy S analyze).
Local Abbreviation analyze_market := (analyze_market S analyze).

Lemma run_unkeyed market_data strategies :
  Forall (fun entry : string * S => market_data !! entry.1 = None) strategies ->
  forall acc,
    foldl (run_strategy market_data) acc strategies = (acc.1, acc.2 ++ strategies).
Proof.
  induction 1 as [|entry strategies Hentry _ IH]; intros acc; simpl.
  - rewrite app_nil_r. destruct acc; reflexivity.
  - unfold StrategyRunner.run_strategy at 2. rewrite Hentry, IH. simpl.
    rewrite <- app_assoc. reflexivity.
Qed.

Lemma run_collects market_data strategies :
  forall acc o,
    o ∈ (foldl (run_strategy market_data) acc strategies).1 ->
    o ∈ acc.1 \/
    exists name strategy data signals,
      (name, strategy) ∈ strategies /\ market_data !! name = Some data /\
      (analyze strategy data).1 = Some signals /\ o ∈ signals.
Proof.
  induction strategies as [|[name strategy] strategies IH]; intros acc o Ho.
  - left. exact Ho.
  - simpl in Ho. apply IH in Ho as [Ho|(n & s & d & l & Hin & Hd & Hl & Ho)].
    + unfold StrategyRunner.run_strategy in Ho. simpl in Ho.
      destruct (market_data !! name) as [data|] eqn:Hdata; [|left; exact Ho].
      destruct (analyze strategy data) as [result strategy'] eqn:Hrun.
      destruct result as [signals|]; simpl in Ho; [|left; exact Ho].
      apply elem_of_app in Ho as [Ho|Ho]; [left; exact Ho|].
      right. exists name, strategy, data, signals.
      split; [apply elem_of_cons; left; reflexivity|].
      split; [exact Hdata|]. rewrite Hrun. split; [reflexivity | exact Ho].
    + right. exists n, s, d, l.
      split; [apply elem_of_cons; right; exact Hin|]. tauto.
Qed.

(** A strategy is run only on the market data filed under its own name.
    Every signal [analyze_market] returns was returned by a strategy whose
    name is a key of the market data; when no strategy's name is a key (as
    with market data keyed by trading symbol), no strategy runs, the
    strategies are left as they were and no signal is returned. *)
Theorem strategies_run_on_their_own_key strategies market_data :
  (forall o, o ∈ (analyze_market strategies market_data).1 ->
     exists name strategy data signals,
       (name, strategy) ∈ strategies /\ market_data !! name = Some data /\
       (analyze strategy data).1 = Some signals /\ o ∈ signals) /\
  (Forall (fun entry : string * S => market_data !! entry.1 = None) strategies ->
   analyze_market strategies market_data = ([], strategies)).
Proof.
  unfold StrategyRunner.analyze_market. split.
  - destruct (foldl (run_strategy market_data) ([], []) strategies)
      as [all_signals strategies'] eqn:Hrun.
    simpl. intros o Ho. apply output_from_input in Ho.
    destruct (run_collects market_data strategies ([], []) o) as [Hnil|H].
    + rewrite Hrun. exact Ho.
    + simpl in Hnil. apply elem_of_nil in Hnil. contradiction.
    + exact H.
  - intros Hnone. rewrite run_unkeyed by exact Hnone. reflexivity.
Qed.

End RunnerMore.

End StrategyManagerMore.

(** ** One trading cycle *)

Section FortuneBotMore.
Import PortfolioManager PortfolioReport.
Local Open Scope Q_scope.

Variable price_of : Signal -> option Q.
Variable type_of : Signal -> string.

Local Abbreviation execute_trade := (FortuneBot.execute_trade price_of type_of).
Local Abbreviation trading_cycle := (FortuneBot.trading_cycle price_of type_of).

(** An order on a symbol without open position: a sell is rejected, and a
    buy leaves every other symbol as it was; what is recorded is a buy. *)
Lemma order_without_position self now symbol side amount price order_type :
  positions self !! symbol = None ->
  side = "buy" \/ side = "sell" ->
  let self' := (place_order self now symbol side amount price order_type).2 in
  (forall sym, sym <> symbol -> positions self' !! sym = positions self !! sym) /\
  exists new,
    trade_history self' = trade_history self ++ new /\
    Forall (fun r => tr_side r = "buy" /\ tr_profit r = 0) new.
Proof.
  intros Hnone Hside self'. subst self'. unfold place_order.
  assert (Hsame : forall s : state,
            (forall sym, sym <> symbol -> positions s !! sym = positions s !! sym) /\
            exists new, trade_history s = trade_history s ++ new /\
                        Forall (fun r => tr_side r = "buy" /\ tr_profit r = 0) new).
  { intros s. split; [reflexivity|]. exists []. rewrite app_nil_r.
    split; [reflexivity | constructor]. }
  destruct (String.eqb (mode self) "paper"); [|apply Hsame].
  destruct Hside as [-> | ->].
  - destruct (Qlt_le_dec (balance self) amount) as [Hlt|Hle].
    + rewrite buy_beyond_balance_rejected by exact Hlt. apply Hsame.
    + rewrite (paper_buy_fill _ _ _ _ _ _ Hle
                 (fresh_symbol_averages_nothing self symbol _ Hnone)).
      cbn. split.
      * intros sym Hne. apply lookup_insert_ne. congruence.
      * eexists [_]. split; [reflexivity|]. constructor; [|constructor].
        split; reflexivity.
  - rewrite sell_without_position_rejected; [apply Hsame | discriminate | exact Hnone].
Qed.

Lemma orders_without_position risk_manager now signals :
  forall portfolio,
    NoDup (map symbol signals) ->
    Forall (fun s => positions portfolio !! symbol s = None
                     /\ (side s = "buy" \/ side s = "sell")) signals ->
    let portfolio' :=
      foldl (fun portfolio signal => execute_trade risk_manager portfolio now signal)
            portfolio signals in
    (forall sym p, positions portfolio !! sym = Some p ->
                   positions portfolio' !! sym = Some p) /\
    exists new,
      trade_history portfolio' = trade_history portfolio ++ new /\
      Forall (fun r => tr_side r = "buy" /\ tr_profit r = 0) new.
Proof.
  induction signals as [|s signals IH]; intros portfolio Hnd Hall; simpl.
  - split; [tauto|]. exists []. rewrite app_nil_r. split; [reflexivity | constructor].
  - apply NoDup_cons in Hnd as [Hs Hnd].
    inversion Hall as [|? ? [Hnone Hside] Hrest]; subst.
    set (next := execute_trade risk_manager portfolio now s).
    assert (Hstep :
              (forall sym, sym <> symbol s ->
                           positions next !! sym = positions portfolio !! sym) /\
              exists new,
                trade_history next = trade_history portfolio ++ new /\
                Forall (fun r => tr_side r = "buy" /\ tr_profit r = 0) new)
      by (apply order_without_position; assumption).
    destruct Hstep as (Hother & new1 & Hnew1 & Hbuy1).
    destruct (IH next Hnd) as (Hkeep & new2 & Hnew2 & Hbuy2).
    { apply Forall_forall. intros s' Hs'.
      pose proof (proj1 (Forall_forall _ _) Hrest s' Hs') as [Hnone' Hside'].
      split; [|exact Hside'].
      rewrite Hother; [exact Hnone'|]. intros Heq. apply Hs.
      apply list_elem_of_fmap. exists s'. split; [congruence | exact Hs']. }
    split.
    + intros sym p Hp. apply Hkeep. rewrite Hother; [exact Hp|].
      intros ->. congruence.
    + exists (new1 ++ new2). rewrite Hnew2, Hnew1, app_assoc.
      split; [reflexivity|]. apply Forall_app. split; assumption.
Qed.

Lemma filter_keeps_NoDup_symbols (f : Signal -> bool) signals :
  NoDup (map symbol signals) -> NoDup (map symbol (List.filter f signals)).
Proof.
  induction signals as [|s signals IH]; simpl; intros Hnd; [exact Hnd|].
  apply NoDup_cons in Hnd as [Hs Hnd]. destruct (f s); simpl; [|apply IH; exact Hnd].
  apply NoDup_cons. split; [|apply IH; exact Hnd].
  intros Hin. apply Hs.
  apply list_elem_of_fmap in Hin as (s' & Heq & Hs').
  apply list_elem_of_In, List.filter_In in Hs' as [Hs' _].
  apply list_elem_of_fmap. exists s'. split; [exact Heq | apply list_elem_of_In; exact Hs'].
Qed.

(** A trading cycle never sells. On a portfolio whose positions are all on
    the long side (as paper orders create them), for the aggregated signals
    of a cycle with sides 'buy' or 'sell': the risk filter drops every signal
    on a held symbol (its side is never 'long'), a sell on a symbol that is
    not held is rejected by the portfolio, so every position held before the
    cycle is held unchanged after it and every trade the cycle records is a
    buy. *)
Theorem trading_cycle_never_sells risk_manager portfolio now raw_signals :
  map_Forall (fun (_ : string) (p : Position) => pos_side p = "long")
             (positions portfolio) ->
  Forall (fun s => side s = "buy" \/ side s = "sell") raw_signals ->
  let signals := StrategyManager._filter_and_prioritize_signals raw_signals in
  let portfolio' := trading_cycle risk_manager portfolio now signals in
  (forall s,
     s ∈ RiskFilter.filter_signals Position pos_side risk_manager signals
           (get_current_positions portfolio) ->
     positions portfolio !! symbol s = None) /\
  (forall sym p, positions portfolio !! sym = Some p ->
                 positions portfolio' !! sym = Some p) /\
  exists new,
    trade_history portfolio' = trade_history portfolio ++ new /\
    Forall (fun r => tr_side r = "buy" /\ tr_profit r = 0) new.
Proof.
  intros Hlong Hsides signals portfolio'.
  set (filtered := RiskFilter.filter_signals Position pos_side risk_manager signals
                     (get_current_positions portfolio)).
  assert (Hside : forall s, s ∈ filtered -> side s = "buy" \/ side s = "sell").
  { intros s Hs. unfold filtered, RiskFilter.filter_signals in Hs.
    apply list_elem_of_In, List.filter_In in Hs as [Hs _].
    apply list_elem_of_In, output_from_input in Hs.
    revert s Hs. apply Forall_forall. exact Hsides. }
  assert (Hfree : forall s, s ∈ filtered -> positions portfolio !! symbol s = None).
  { intros s Hs. pose proof (Hside s Hs) as Hbs.
    unfold filtered, RiskFilter.filter_signals in Hs.
    apply list_elem_of_In, List.filter_In in Hs as [_ Hs].
    apply should_execute_iff in Hs as (_ & _ & Hpos & _).
    unfold get_current_positions in Hpos.
    destruct (positions portfolio !! symbol s) as [p|] eqn:Hp; [|reflexivity].
    pose proof (Hpos p eq_refl) as Heq.
    pose proof (map_Forall_lookup_1 _ _ _ _ Hlong Hp) as Hl. simpl in Hl.
    rewrite Hl in Heq. destruct Hbs as [Hb|Hb]; rewrite Hb in Heq; discriminate Heq. }
  split; [exact Hfree|].
  apply orders_without_position.
  - apply filter_keeps_NoDup_symbols, output_symbols_NoDup.
  - apply Forall_forall. intros s Hs. split; [apply Hfree | apply Hside]; exact Hs.
Qed.

End FortuneBotMore.

Lemma trading_cycle_never_sells_witness :
  let held :=
    (PortfolioManager._place_paper_order fresh_portfolio "t0" "BTCUSDT" "buy"
                                         900 None "market").2 in
  let portfolio' :=
    FortuneBot.trading_cycle (fun _ => None) (fun _ => "market")
      sixty_percent_manager held "t1"
      (StrategyManager._filter_and_prioritize_signals
         [market_signal "BTCUSDT" "sell"; market_signal "ETHUSDT" "buy"]) in
  exists p,
    PortfolioManager.positions held !! "BTCUSDT" = Some p /\
    PortfolioManager.positions portfolio' !! "BTCUSDT" = Some p.
Proof.
  intros held portfolio'.
  destruct (trading_cycle_never_sells (fun _ => None) (fun _ => "market")
              sixty_percent_manager held "t1"
              [market_signal "BTCUSDT" "sell"; market_signal "ETHUSDT" "buy"])
    as (_ & Hkeep & _).
  - unfold held.
    rewrite paper_buy_fill;
      [|discriminate | apply fresh_symbol_averages_nothing; reflexivity].
    apply map_Forall_insert_2; [reflexivity | apply map_Forall_empty].
  - constructor; [right; reflexivity|]. constructor; [left; reflexivity|].
    constructor.
  - assert (Hheld : exists p, PortfolioManager.positions held !! "BTCUSDT" = Some p)
      by (vm_compute; eexists; reflexivity).
    destruct Hheld as [p Hp]. exists p. split; [exact Hp | apply Hkeep; exact Hp].
Defined.

(** ** The indicator calculator: ranges and shapes *)

Section BaseStrategyMore.
Import BaseStrategy.
Local Open Scope Q_scope.

Variable sqrtQ : Q -> Q.

Local Abbreviation calculate_indicators := (calculate_indicators sqrtQ).
Local Abbreviation rolling_std := (rolling_std sqrtQ).

Lemma Qmean_nonneg (l : list Q) : Forall (fun x => 0 <= x) l -> 0 <= Qmean l.
Proof.
  intros Hl. unfold Qmean. destruct l as [|x l].
  - simpl. unfold Qdiv. rewrite Qmult_0_l. lra.
  - apply Qle_shift_div_l; [apply count_pos; discriminate|].
    rewrite Qmult_0_l. apply Qsum_nonneg. exact Hl.
Qed.

Lemma losses_nonneg delta : Forall (fun x => 0 <= x) (losses delta).
Proof.
  unfold losses. apply Forall_fmap. apply Forall_true. intros d. simpl.
  destruct d as [x| | |]; try lra.
  destruct (Qltb x 0) eqn:E; [|lra]. apply Qltb_lt in E. lra.
Qed.

Lemma rolling_mean_nonneg w s i v :
  Forall (fun x => 0 <= x) s ->
  rolling_mean w s !! i = Some v ->
  v = NaN \/ exists q, v = Fin q /\ 0 <= q.
Proof.
  intros Hs. unfold rolling_mean. rewrite list_lookup_fmap.
  destruct (seq 0 (length s) !! i) as [j|] eqn:Hj; [|discriminate].
  apply lookup_seq in Hj as [-> _]. simpl.
  destruct (length (window w i s) <? w)%nat; intros [= <-]; [left; reflexivity|].
  right. eexists. split; [reflexivity|].
  apply Qmean_nonneg. unfold window. apply Forall_drop, Forall_take. exact Hs.
Qed.

Lemma rsi_of_ratio_range g l :
  0 <= g -> 0 <= l ->
  rsi_of (fdiv (Fin g) (Fin l)) = NaN \/
  exists q, rsi_of (fdiv (Fin g) (Fin l)) = Fin q /\ 0 <= q <= 100.
Proof.
  intros Hg Hl. unfold rsi_of.
  destruct (Qeq_bool l 0) eqn:Hl0.
  - destruct (Qeq_bool g 0) eqn:Hg0.
    + left. assert (Hin : fdiv (Fin g) (Fin l) = NaN)
        by (unfold fdiv; rewrite Hl0, Hg0; reflexivity).
      rewrite Hin. reflexivity.
    + assert (Hgpos : Qltb 0 g = true).
      { apply Qltb_lt. destruct (Qlt_le_dec 0 g) as [H|H]; [exact H|].
        assert (Hz : g == 0) by lra. apply Qeq_bool_iff in Hz. congruence. }
      assert (Hin : fdiv (Fin g) (Fin l) = PInf)
        by (unfold fdiv; rewrite Hl0, Hg0, Hgpos; reflexivity).
      rewrite Hin. right. eexists. split; [reflexivity|]. split; discriminate.
  - assert (Hlpos : 0 < l).
    { destruct (Qlt_le_dec 0 l) as [H|H]; [exact H|].
      assert (Hz : l == 0) by lra. apply Qeq_bool_iff in Hz. congruence. }
    assert (Hrs : 0 <= g / l) by (apply Qle_shift_div_l; [exact Hlpos | lra]).
    assert (Hin : fdiv (Fin g) (Fin l) = Fin (g / l))
      by (unfold fdiv; rewrite Hl0; reflexivity).
    rewrite Hin. cbn [fadd]. unfold fdiv.
    rewrite (Qeq_bool_false (1 + g / l) 0) by lra.
    right. eexists. split; [reflexivity|].
    assert (Hq : 0 < 100 / (1 + g / l) <= 100).
    { split.
      - apply Qlt_shift_div_l; lra.
      - apply Qle_shift_div_r; lra. }
    lra.
Qed.

(** The RSI is a percentage wherever it is defined: every row of the rsi
    column is NaN or a number between 0 and 100. *)
Theorem rsi_is_a_percentage data i v :
  rsi (calculate_indicators data) !! i = Some v ->
  v = NaN \/ exists q, v = Fin q /\ 0 <= q <= 100.
Proof.
  unfold BaseStrategy.calculate_indicators. cbn [rsi].
  rewrite list_lookup_fmap.
  destruct (zip_with fdiv _ _ !! i) as [rs|] eqn:Hrs; [|discriminate].
  apply lookup_zip_with_Some in Hrs as (g & l & -> & Hg & Hl).
  apply rolling_mean_nonneg in Hg; [|apply gains_nonneg].
  apply rolling_mean_nonneg in Hl; [|apply losses_nonneg].
  intros [= <-].
  destruct Hg as [->|(gq & -> & Hgq)]; [left; reflexivity|].
  destruct Hl as [->|(lq & -> & Hlq)]; [left; reflexivity|].
  apply rsi_of_ratio_range; assumption.
Qed.

(** The frame has the shape of its input: the rows are the bars given, and
    each of the twelve indicator columns has one entry per bar. *)
Theorem indicator_columns_match_rows data :
  let f := calculate_indicators data in
  rows f = data /\
  length (rsi f) = length data /\
  length (macd f) = length data /\
  length (macd_signal f) = length data /\
  length (macd_histogram f) = length data /\
  length (bb_middle f) = length data /\
  length (bb_upper f) = length data /\
  length (bb_lower f) = length data /\
  length (sma_20 f) = length data /\
  length (sma_50 f) = length data /\
  length (ema_12 f) = length data /\
  length (ema_26 f) = length data /\
  length (volume_sma f) = length data.
Proof.
  intros f. subst f. unfold BaseStrategy.calculate_indicators. simpl.
  assert (Hclose : length (map close data) = length data) by apply length_map.
  assert (Hvol : length (map volume data) = length data) by apply length_map.
  unfold gains, losses.
  repeat split;
    repeat first [ rewrite length_map | rewrite length_zip_with
                 | rewrite length_ewm_mean | rewrite length_rolling_mean
                 | rewrite length_rolling_std | rewrite length_diff ];
    lia.
Qed.

(** Weighted sums of values in [lo, hi] with weights 1, decay, decay^2, ...
    stay between lo and hi times the sum of the weights. *)
Lemma ewm_sums_bounds decay lo hi l :
  0 <= decay ->
  Forall (fun x => lo <= x <= hi) l ->
  let '(num, den) := ewm_sums decay l in
  0 <= den /\ lo * den <= num <= hi * den /\ (l <> [] -> 1 <= den).
Proof.
  intros Hd Hl. induction Hl as [|x l Hx Hl IH]; simpl.
  - split; [lra|]. split; [lra | congruence].
  - destruct (ewm_sums decay l) as [num den].
    destruct IH as (Hden & Hnum & _).
    assert (0 <= decay * den) by (apply Qmult_le_0_compat; assumption).
    split; [lra|]. split; [|intros _; lra].
    split; nra.
Qed.

Lemma ewm_mean_within span lo hi s :
  (1 <= span)%nat ->
  Forall (fun x => lo <= x <= hi) s ->
  Forall (fun x => lo <= x <= hi) (ewm_mean span s).
Proof.
  intros Hspan Hs. unfold ewm_mean. apply Forall_fmap, Forall_forall.
  intros i Hi. apply elem_of_seq in Hi as [_ Hi]. simpl in Hi. simpl.
  set (decay := 1 - 2 / (inject_Z (Z.of_nat span) + 1)).
  assert (Hdecay : 0 <= decay).
  { unfold decay.
    assert (H1 : 1 <= inject_Z (Z.of_nat span)).
    { change 1 with (inject_Z 1). rewrite <- Zle_Qle. lia. }
    assert (2 / (inject_Z (Z.of_nat span) + 1) <= 1)
      by (apply Qle_shift_div_r; lra).
    lra. }
  assert (Hprefix : Forall (fun x => lo <= x <= hi) (rev (take (S i) s)))
    by (apply Forall_rev, Forall_take; exact Hs).
  assert (Hne : rev (take (S i) s) <> []).
  { intros Hnil. apply (f_equal length) in Hnil.
    rewrite length_rev, length_take in Hnil. cbn [length] in Hnil. lia. }
  pose proof (ewm_sums_bounds decay lo hi _ Hdecay Hprefix) as Hb.
  destruct (ewm_sums decay (rev (take (S i) s))) as [num den].
  destruct Hb as (_ & Hnum & Hden). specialize (Hden Hne).
  split.
  - apply Qle_shift_div_l; lra.
  - apply Qle_shift_div_r; lra.
Qed.

(** The exponential averages stay within the prices: when every close lies
    in [lo, hi], so does every row of ema_12 and of ema_26, and every row of
    macd, their difference, lies in [lo - hi, hi - lo]. *)
Theorem ema_within_price_range data lo hi :
  Forall (fun b => lo <= close b <= hi) data ->
  let f := calculate_indicators data in
  Forall (fun v => exists q, v = Fin q /\ lo <= q <= hi) (ema_12 f) /\
  Forall (fun v => exists q, v = Fin q /\ lo <= q <= hi) (ema_26 f) /\
  Forall (fun v => exists q, v = Fin q /\ lo - hi <= q <= hi - lo) (macd f).
Proof.
  intros Hdata f. subst f. unfold BaseStrategy.calculate_indicators. simpl.
  assert (Hclose : Forall (fun x => lo <= x <= hi) (map close data))
    by (apply Forall_fmap; exact Hdata).
  pose proof (ewm_mean_within 12 lo hi _ ltac:(lia) Hclose) as H12.
  pose proof (ewm_mean_within 26 lo hi _ ltac:(lia) Hclose) as H26.
  repeat split.
  - apply Forall_fmap. eapply Forall_impl; [exact H12|].
    intros q Hq. exists q. split; [reflexivity | exact Hq].
  - apply Forall_fmap. eapply Forall_impl; [exact H26|].
    intros q Hq. exists q. split; [reflexivity | exact Hq].
  - apply Forall_fmap. apply Forall_lookup. intros i q Hq.
    apply lookup_zip_with_Some in Hq as (a & b & -> & Ha & Hb).
    pose proof (Forall_lookup_1 _ _ _ _ H12 Ha) as Ha'.
    pose proof (Forall_lookup_1 _ _ _ _ H26 Hb) as Hb'. simpl in Ha', Hb'.
    eexists. split; [reflexivity|]. unfold Qminus. lra.
Qed.

End BaseStrategyMore.

Lemma rsi_is_a_percentage_witness :
  exists v,
    BaseStrategy.rsi (BaseStrategy.calculate_indicators Qsqrt_approx rising_bars)
      !! 13%nat = Some v /\
    (v = NaN \/ exists q, v = Fin q /\ (0 <= q <= 100)%Q).
Proof.
  eexists. split; [vm_compute; reflexivity|].
  apply (rsi_is_a_percentage Qsqrt_approx rising_bars 13).
  vm_compute. reflexivity.
Defined.

Lemma ema_within_price_range_witness :
  Forall (fun v => exists q, v = Fin q /\ (100 <= q <= 114)%Q)
         (BaseStrategy.ema_12 (BaseStrategy.calculate_indicators Qsqrt_approx rising_bars)).
Proof.
  apply (ema_within_price_range Qsqrt_approx rising_bars 100 114).
  vm_compute. repeat constructor; intros H; discriminate H.
Defined.

(** ** The strategies *)

Section StrategiesMore.
Import Frame.
Local Open Scope Q_scope.

(** The final clamp [min(1.0, max(0.1, confidence))] gives a number in
    [0.1, 1] whatever the float it is applied to, and leaves a number of
    that interval unchanged. *)
Lemma clamp_confidence c :
  exists q, pymin (Fin 1) (pymax (Fin (1 # 10)) c) = Fin q /\ 1 # 10 <= q <= 1 /\
            (forall a, c = Fin a -> 1 # 10 <= a <= 1 -> q == a).
Proof.
  destruct c as [a| | |]; unfold pymax, pymin, fltb, fgtb.
  - destruct (Qltb (1 # 10) a) eqn:E1.
    + apply Qltb_lt in E1. destruct (Qltb a 1) eqn:E2.
      * apply Qltb_lt in E2. exists a. repeat split; try lra.
        intros a' [= <-] _. reflexivity.
      * apply Qltb_false in E2. exists 1. repeat split; try lra.
        intros a' [= <-] Ha. lra.
    + apply Qltb_false in E1. exists (1 # 10). simpl. repeat split; try lra.
      intros a' [= <-] Ha. lra.
  - exists 1. repeat split; try lra. intros a H. discriminate H.
  - exists (1 # 10). simpl. repeat split; try lra. intros a H. discriminate H.
  - exists (1 # 10). simpl. repeat split; try lra. intros a H. discriminate H.
Qed.

Lemma rsi_confidence_bounds data_point side :
  exists q,
    RSIStrategy._calculate_confidence data_point side = Fin q /\ 1 # 10 <= q <= 1.
Proof.
  unfold RSIStrategy._calculate_confidence. cbv zeta.
  match goal with
  | |- context [pymin (Fin 1) (pymax (Fin (1 # 10)) ?c)] =>
      destruct (clamp_confidence c) as (q & Hq & Hb & _)
  end.
  exists q. split; assumption.
Qed.

Lemma macd_factor_bounds h :
  exists q, pymin (Fin (3 # 10)) (fmul (fabs h) (Fin 100)) = Fin q /\ 0 <= q <= 3 # 10.
Proof.
  unfold pymin, fltb.
  destruct h as [a| | |]; simpl.
  - pose proof (Qabs_nonneg a) as Ha.
    destruct (Qltb (Qabs a * 100) (3 # 10)) eqn:E.
    + apply Qltb_lt in E. eexists. split; [reflexivity|]. lra.
    + eexists. split; [reflexivity|]. lra.
  - eexists. split; [reflexivity|]. lra.
  - eexists. split; [reflexivity|]. lra.
  - eexists. split; [reflexivity|]. lra.
Qed.

Lemma macd_confidence_bounds data_point side :
  exists q,
    MACDStrategy._calculate_confidence data_point side = Fin q /\
    65 # 100 <= q <= 1 /\ Qltb q (5 # 10) = false.
Proof.
  unfold MACDStrategy._calculate_confidence. cbv zeta.
  destruct (macd_factor_bounds (row_macd_histogram data_point)) as (m & -> & Hm).
  match goal with
  | |- context [fadd (fadd _ (Fin m)) ?t] => set (trend := t)
  end.
  assert (Ht : exists t, trend = Fin t /\ 0 <= t <= 1 # 10).
  { unfold trend.
    destruct (_ && _); [exists (1 # 10); split; [reflexivity | lra]|].
    destruct (_ && _); [exists (1 # 10); split; [reflexivity | lra]|].
    exists 0. split; [reflexivity | lra]. }
  destruct Ht as (t & -> & Ht). cbn [fadd].
  unfold pymax, pymin, fltb, fgtb.
  assert (E1 : Qltb (1 # 10) ((65 # 100) + m + t) = true) by (apply Qltb_lt; lra).
  rewrite E1.
  destruct (Qltb ((65 # 100) + m + t) 1) eqn:E2.
  - apply Qltb_lt in E2. eexists. split; [reflexivity|].
    split; [lra|]. apply Qltb_false. lra.
  - exists 1. split; [reflexivity|]. split; [lra | reflexivity].
Qed.

Lemma iloc_columns f i r :
  iloc f i = Some r ->
  BaseStrategy.rows f !! i = Some (bar r) /\
  BaseStrategy.rsi f !! i = Some (row_rsi r) /\
  BaseStrategy.volume_sma f !! i = Some (row_volume_sma r) /\
  BaseStrategy.macd f !! i = Some (row_macd r) /\
  BaseStrategy.macd_signal f !! i = Some (row_macd_signal r) /\
  BaseStrategy.macd_histogram f !! i = Some (row_macd_histogram r).
Proof.
  unfold iloc. intros H.
  repeat match type of H with
         | context [?l !! i] =>
             let E := fresh "E" in destruct (l !! i) eqn:E; simpl in H; [|discriminate H]
         end.
  injection H as <-. simpl. repeat split; reflexivity.
Qed.

Section Analyze.

Variable sqrtQ : Q -> Q.
Variable label : Z -> string.
Variable fmt : fnum -> string.

Lemma latest_volume_sma_undefined data latest :
  (length data < 20)%nat ->
  iloc_back (BaseStrategy.calculate_indicators sqrtQ data) 1 = Some latest ->
  row_volume_sma latest = NaN.
Proof.
  intros Hshort. unfold iloc_back. cbn [BaseStrategy.rows BaseStrategy.calculate_indicators].
  destruct (length data <? 1)%nat; [discriminate|]. intros Hrow.
  apply iloc_columns in Hrow as (_ & _ & Hv & _).
  cbn [BaseStrategy.volume_sma BaseStrategy.calculate_indicators] in Hv.
  apply (rolling_mean_early 20 _ _ _ Hv). lia.
Qed.

(** What the RSI strategy returns: at most one signal, of the RSI strategy,
    a buy or a sell, with a confidence in [0.1, 1]; and no signal at all on
    fewer than 20 bars, whatever its parameters, because the volume average
    of the latest row is undefined there and no comparison with it holds. *)
Theorem rsi_strategy_signals params data signals :
  RSIStrategy.analyze sqrtQ label fmt params data = Some signals ->
  (length signals <= 1)%nat /\
  ((length data < 20)%nat -> signals = []) /\
  ((length data <= RSIStrategy.rsi_period params)%nat -> signals = []) /\
  (forall s, s ∈ signals ->
     strategy s = "RSI" /\ (side s = "buy" \/ side s = "sell") /\
     1 # 10 <= confidence s <= 1).
Proof.
  unfold RSIStrategy.analyze.
  destruct (length data <? RSIStrategy.rsi_period params + 1)%nat eqn:Hlen.
  { intros [= <-]. split; [simpl; lia|]. split; [intros _; reflexivity|].
    split; [intros _; reflexivity|].
    intros s Hs. apply elem_of_nil in Hs. contradiction. }
  apply Nat.ltb_ge in Hlen.
  destruct (iloc_back _ 1) as [latest|] eqn:Hlatest; [|discriminate].
  destruct (iloc_back _ 2) as [previous|] eqn:Hprevious; [|discriminate].
  cbn [mbind option_bind].
  assert (Hconf : forall sd,
            1 # 10 <= to_Q (RSIStrategy._calculate_confidence latest sd) <= 1).
  { intros sd. destruct (rsi_confidence_bounds latest sd) as (q & -> & Hq). exact Hq. }
  assert (Hvol : (length data < 20)%nat ->
            fgtb (Fin (volume (bar latest)))
                 (fmul (row_volume_sma latest)
                       (Fin (RSIStrategy.min_volume_ratio params))) = false).
  { intros Hshort. rewrite (latest_volume_sma_undefined data latest Hshort Hlatest).
    reflexivity. }
  destruct (fleb _ _ && fgtb _ _ && fgtb _ _) eqn:Hbuy.
  - intros [= <-]. split; [simpl; lia|]. split; [|split].
    + intros Hshort. rewrite (Hvol Hshort), andb_false_r in Hbuy. discriminate Hbuy.
    + intros Hle. lia.
    + intros s Hs. apply list_elem_of_singleton in Hs. subst s. simpl.
      split; [reflexivity|]. split; [left; reflexivity | apply Hconf].
  - destruct (fgeb _ _ && fltb _ _ && fgtb _ _) eqn:Hsell.
    + intros [= <-]. split; [simpl; lia|]. split; [|split].
      * intros Hshort. rewrite (Hvol Hshort), andb_false_r in Hsell. discriminate Hsell.
      * intros Hle. lia.
      * intros s Hs. apply list_elem_of_singleton in Hs. subst s. simpl.
        split; [reflexivity|]. split; [right; reflexivity | apply Hconf].
    + intros [= <-]. split; [simpl; lia|]. split; [intros _; reflexivity|].
      split; [intros _; reflexivity|].
      intros s Hs. apply elem_of_nil in Hs. contradiction.
Qed.

(** What the MACD strategy returns: at most one signal, of the MACD
    strategy, a buy or a sell, with a confidence of at least 0.65, so that the
    confidence test of the risk filter never rejects it; and no signal on
    fewer than slow_period + signal_period bars. *)
Theorem macd_strategy_signals params data signals :
  MACDStrategy.analyze sqrtQ label fmt params data = Some signals ->
  (length signals <= 1)%nat /\
  ((length data < MACDStrategy.slow_period params
                  + MACDStrategy.signal_period params)%nat -> signals = []) /\
  (forall s, s ∈ signals ->
     strategy s = "MACD" /\ (side s = "buy" \/ side s = "sell") /\
     65 # 100 <= confidence s <= 1 /\ Qltb (confidence s) (5 # 10) = false).
Proof.
  unfold MACDStrategy.analyze.
  destruct (length data <? _ + _)%nat eqn:Hlen.
  { intros [= <-]. split; [simpl; lia|]. split; [intros _; reflexivity|].
    intros s Hs. apply elem_of_nil in Hs. contradiction. }
  apply Nat.ltb_ge in Hlen.
  destruct (iloc_back _ 1) as [latest|]; [|discriminate].
  destruct (iloc_back _ 2) as [previous|]; [|discriminate].
  cbn [mbind option_bind].
  assert (Hconf : forall sd,
            65 # 100 <= to_Q (MACDStrategy._calculate_confidence latest sd) <= 1 /\
            Qltb (to_Q (MACDStrategy._calculate_confidence latest sd)) (5 # 10) = false).
  { intros sd. destruct (macd_confidence_bounds latest sd) as (q & -> & Hq). exact Hq. }
  destruct (fleb _ _ && fgtb _ _ && fgtb _ _).
  - intros [= <-]. split; [simpl; lia|]. split; [intros; lia|].
    intros s Hs. apply list_elem_of_singleton in Hs. subst s. simpl.
    split; [reflexivity|]. split; [left; reflexivity | apply Hconf].
  - destruct (fgeb _ _ && fltb _ _ && fltb _ _).
    + intros [= <-]. split; [simpl; lia|]. split; [intros; lia|].
      intros s Hs. apply list_elem_of_singleton in Hs. subst s. simpl.
      split; [reflexivity|]. split; [right; reflexivity | apply Hconf].
    + intros [= <-]. split; [simpl; lia|]. split; [intros _; reflexivity|].
      intros s Hs. apply elem_of_nil in Hs. contradiction.
Qed.

End Analyze.

End StrategiesMore.

Lemma rsi_strategy_signals_witness :
  exists s,
    RSIStrategy.analyze Qsqrt_approx btc_label no_digits
      RSIStrategy.get_default_params rebound_bars = Some [s] /\
    side s = "buy" /\ (1 # 10 <= confidence s <= 1)%Q.
Proof.
  eexists. split; [vm_compute; reflexivity|].
  split; [reflexivity|].
  eapply (rsi_strategy_signals Qsqrt_approx btc_label no_digits
            RSIStrategy.get_default_params rebound_bars).
  - vm_compute. reflexivity.
  - apply elem_of_cons. left. reflexivity.
Defined.

Lemma macd_strategy_signals_witness :
  exists s,
    MACDStrategy.analyze Qsqrt_approx btc_label no_digits
      MACDStrategy.get_default_params breakout_bars = Some [s] /\
    side s = "buy" /\ (65 # 100 <= confidence s <= 1)%Q.
Proof.
  eexists. split; [vm_compute; reflexivity|].
  split; [reflexivity|].
  eapply (macd_strategy_signals Qsqrt_approx btc_label no_digits
            MACDStrategy.get_default_params breakout_bars).
  - vm_compute. reflexivity.
  - apply elem_of_cons. left. reflexivity.
Defined.

(** ** DCA amounts and the grid ladder *)

Section DCAMore.
Import DCAStrategy.
Local Open Scope Q_scope.

(** [max(lo, min(hi, y))] is a number in [lo, hi] for every float [y]. *)
Lemma clamp_between lo hi y :
  lo <= hi ->
  exists q, pymax (Fin lo) (pymin (Fin hi) y) = Fin q /\ lo <= q <= hi.
Proof.
  intros Hlh. unfold pymax, pymin, fltb, fgtb.
  destruct y as [a| | |].
  - destruct (Qltb a hi) eqn:E1.
    + apply Qltb_lt in E1. destruct (Qltb lo a) eqn:E2.
      * apply Qltb_lt in E2. exists a. split; [reflexivity | lra].
      * exists lo. split; [reflexivity | lra].
    + destruct (Qltb lo hi) eqn:E2.
      * exists hi. split; [reflexivity | lra].
      * exists lo. split; [reflexivity | lra].
  - destruct (Qltb lo hi) eqn:E2.
    + exists hi. split; [reflexivity | lra].
    + exists lo. split; [reflexivity | lra].
  - exists lo. split; [reflexivity | lra].
  - destruct (Qltb lo hi) eqn:E2.
    + exists hi. split; [reflexivity | lra].
    + exists lo. split; [reflexivity | lra].
Qed.

(** The DCA purchase amount is a number between half and twice the base
    amount for every volatility, NaN and the infinities included (a frame
    with too few rows gives a NaN volatility, and then twice the base
    amount). *)
Theorem dca_amount_is_bounded params volatility :
  0 <= base_amount params ->
  (exists q,
     _calculate_purchase_amount params volatility = Fin q /\
     base_amount params * (5 # 10) <= q <= base_amount params * 2) /\
  (exists q, _calculate_purchase_amount params NaN = Fin q /\
             q == base_amount params * 2).
Proof.
  intros Hbase. unfold _calculate_purchase_amount. cbv zeta. cbn [fmul]. split.
  - apply clamp_between. lra.
  - unfold pymin, pymax, fltb, fgtb. cbn.
    assert (E1 : Qltb (base_amount params * 2) (base_amount params * 2) = false)
      by (apply Qltb_false; lra).
    rewrite E1.
    destruct (Qltb (base_amount params * (5 # 10)) (base_amount params * 2)) eqn:E2.
    + eexists. split; [reflexivity|]. reflexivity.
    + apply Qltb_false in E2. eexists. split; [reflexivity|]. lra.
Qed.

Lemma dca_amount_is_bounded_witness :
  exists q,
    _calculate_purchase_amount get_default_params (Fin (1 # 100)) = Fin q /\
    25 <= q <= 100.
Proof.
  destruct (dca_amount_is_bounded get_default_params (Fin (1 # 100)))
    as ((q & Hq & Hb) & _).
  - discriminate.
  - exists q. split; [exact Hq|]. cbn in Hb. lra.
Defined.

(** The drawdown stop of the DCA strategy never triggers: whatever the
    purchase history and the parameters, [_check_max_drawdown] answers
    False, because the portfolio value it looks at is the constant 0. *)
Theorem dca_drawdown_stop_never_triggers params purchase_history :
  _check_max_drawdown params purchase_history = false.
Proof.
  unfold _check_max_drawdown, _calculate_current_portfolio_value.
  destruct purchase_history; reflexivity.
Qed.

End DCAMore.

Section GridMore.
Import GridStrategy.
Local Open Scope Q_scope.

Variable fmt4 : fnum -> string.

Lemma elem_of_range lo hi i : i ∈ range lo hi <-> (lo <= i < hi)%Z.
Proof.
  unfold range. rewrite list_elem_of_fmap. split.
  - intros (k & -> & Hk). apply elem_of_seq in Hk. lia.
  - intros Hi. exists (Z.to_nat (i - lo)). split; [lia|].
    apply elem_of_seq. lia.
Qed.

Lemma range_split lo m hi :
  (lo <= m <= hi)%Z -> range lo hi = range lo m ++ range m hi.
Proof.
  intros Hm. unfold range.
  replace (Z.to_nat (hi - lo)) with (Z.to_nat (m - lo) + Z.to_nat (hi - m))%nat by lia.
  rewrite seq_app, map_app. f_equal.
  apply list_eq. intros k. rewrite !list_lookup_fmap.
  destruct (decide (k < Z.to_nat (hi - m))%nat) as [Hk|Hk].
  - rewrite !lookup_seq_lt by exact Hk. simpl. f_equal. lia.
  - rewrite !lookup_seq_ge by lia. reflexivity.
Qed.

Lemma range_cons lo hi : (lo < hi)%Z -> range lo hi = lo :: range (lo + 1) hi.
Proof.
  intros Hlt. rewrite (range_split lo (lo + 1) hi) by lia.
  unfold range at 1. replace (Z.to_nat (lo + 1 - lo)) with 1%nat by lia.
  simpl. f_equal. f_equal. lia.
Qed.

Lemma off_center_level_is_quiet params c i :
  0 < c -> 1 # 999 <= grid_size params ->
  i <> 0%Z -> 0 < 1 + inject_Z i * grid_size params ->
  _should_place_order c (level_at params c i) = false.
Proof.
  intros Hc Hg Hi Hpos. unfold _should_place_order, level_at. cbn.
  set (g := grid_size params) in *. set (z := inject_Z i) in *.
  assert (Hp : 0 < c * (1 + z * g)) by (apply Qmult_lt_0_compat; assumption).
  rewrite (Qeq_bool_false (c * (1 + z * g)) 0) by lra.
  unfold fltb, fgtb. apply Qltb_false.
  apply Qle_shift_div_l; [exact Hp|].
  change ((1 # 1000) * (c * (1 + z * g)) <= Qabs (c - c * (1 + z * g))).
  destruct (Z.lt_ge_cases i 0) as [Hneg|Hnonneg].
  - assert (Hz : z <= -1).
    { unfold z. change (-1) with (inject_Z (-1)). rewrite <- Zle_Qle. lia. }
    assert (Hzg : z * g <= - g) by nra.
    assert (Habs : c - c * (1 + z * g) <= Qabs (c - c * (1 + z * g)))
      by apply Qle_Qabs.
    assert (H1 : c * (z * g) <= c * (- g)) by (apply Qmult_le_l; assumption).
    assert (H2 : c * (1 # 999) <= c * g) by (apply Qmult_le_l; assumption).
    lra.
  - assert (Hz : 1 <= z).
    { unfold z. change 1 with (inject_Z 1). rewrite <- Zle_Qle. lia. }
    assert (Hzg : g <= z * g) by nra.
    assert (Habs : - (c - c * (1 + z * g)) <= Qabs (c - c * (1 + z * g))).
    { rewrite <- Qabs_opp. apply Qle_Qabs. }
    assert (H1 : c * g <= c * (z * g)) by (apply Qmult_le_l; assumption).
    assert (H2 : c * (1 # 999) <= c * g) by (apply Qmult_le_l; assumption).
    lra.
Qed.

Lemma center_level_fires params c :
  0 < c -> _should_place_order c (level_at params c 0) = true.
Proof.
  intros Hc. unfold _should_place_order, level_at. cbn.
  set (g := grid_size params).
  change (inject_Z 0) with 0.
  rewrite (Qeq_bool_false (c * (1 + 0 * g)) 0) by lra.
  unfold fltb, fgtb. apply Qltb_lt.
  change (Qabs (c - c * (1 + 0 * g)) / (c * (1 + 0 * g)) < 1 # 1000).
  apply Qlt_shift_div_r; [lra|].
  apply Qabs_case; intros _; lra.
Qed.

Lemma quiet_levels params c l :
  0 < c -> 1 # 999 <= grid_size params ->
  Forall (fun i => i <> 0%Z /\ 0 < 1 + inject_Z i * grid_size params) l ->
  grid_signals fmt4 (map (level_at params c) l) c = [].
Proof.
  intros Hc Hg. induction 1 as [|i l [Hi Hpos] _ IH]; [reflexivity|].
  unfold grid_signals in *. simpl.
  rewrite off_center_level_is_quiet by assumption. exact IH.
Qed.

(** The bar on which the grid is built fires its center level. For a
    positive center price, a step of at least 1/999 and a ladder whose lowest
    level has a positive price: [_setup_grid] builds the levels
    center x (1 + i x step) for i from -n//2 to n//2, buys below the center
    and sells at and above it, and scanning that fresh grid at the center
    price yields exactly one signal, the sell of the center level. *)
Theorem fresh_grid_fires_center_sell params c :
  0 < c ->
  1 # 999 <= grid_size params ->
  (0 <= num_levels params)%Z ->
  inject_Z (- (- num_levels params / 2)) * grid_size params < 1 ->
  let grid := _setup_grid params c in
  grid = map (level_at params c)
             (range (- num_levels params / 2) (num_levels params / 2 + 1)) /\
  Forall (fun level => active level = true /\ filled level = false /\
                       (level_side level = "buy" <-> price level < c)) grid /\
  grid_signals fmt4 grid c = [_create_grid_signal fmt4 (level_at params c 0) c].
Proof.
  intros Hc Hg Hn Hlow grid. subst grid.
  set (lo := (- num_levels params / 2)%Z) in *.
  set (hi := (num_levels params / 2 + 1)%Z).
  assert (Hlo : (lo <= 0)%Z) by (unfold lo; apply Z.div_le_upper_bound; lia).
  assert (Hhi : (0 < hi)%Z) by (unfold hi; pose proof (Z.div_pos (num_levels params) 2); lia).
  assert (Hg0 : 0 < grid_size params) by lra.
  assert (Hpos : forall i, (lo <= i)%Z -> 0 < 1 + inject_Z i * grid_size params).
  { intros i Hi.
    assert (Hle : inject_Z lo <= inject_Z i) by (rewrite <- Zle_Qle; exact Hi).
    rewrite inject_Z_opp in Hlow. nra. }
  split; [reflexivity|]. split.
  - unfold _setup_grid. fold lo hi. apply Forall_fmap, Forall_forall.
    intros i Hi. apply elem_of_range in Hi. simpl.
    split; [reflexivity|]. split; [reflexivity|].
    destruct (Z.ltb_spec i 0) as [Hneg|Hnonneg].
    + split; [intros _|reflexivity].
      assert (Hz : inject_Z i <= -1).
      { change (-1) with (inject_Z (-1)). rewrite <- Zle_Qle. lia. }
      assert (Hig : inject_Z i * grid_size params < 0) by nra.
      assert (Hc0 : c * (inject_Z i * grid_size params) < c * 0)
        by (apply Qmult_lt_l; assumption).
      lra.
    + split; [discriminate|]. intros Hlt. exfalso.
      assert (Hz : 0 <= inject_Z i).
      { change 0 with (inject_Z 0). rewrite <- Zle_Qle. exact Hnonneg. }
      assert (Hig : 0 <= inject_Z i * grid_size params) by nra.
      assert (Hc0 : c * 0 <= c * (inject_Z i * grid_size params))
        by (apply Qmult_le_l; assumption).
      lra.
  - change (_setup_grid params c) with (map (level_at params c) (range lo hi)).
    rewrite (range_split lo 0 hi) by lia. rewrite (range_cons 0 hi) by lia.
    rewrite map_app. unfold grid_signals. rewrite flat_map_app. simpl.
    rewrite center_level_fires by exact Hc.
    fold (grid_signals fmt4 (map (level_at params c) (range lo 0)) c).
    fold (grid_signals fmt4 (map (level_at params c) (range (0 + 1) hi)) c).
    rewrite !quiet_levels; try assumption; [reflexivity| |].
    + apply Forall_forall. intros i Hi. apply elem_of_range in Hi.
      split; [lia | apply Hpos; lia].
    + apply Forall_forall. intros i Hi. apply elem_of_range in Hi.
      split; [lia | apply Hpos; lia].
Qed.

End GridMore.

Lemma fresh_grid_fires_center_sell_witness :
  GridStrategy.grid_signals no_digits
    (GridStrategy._setup_grid GridStrategy.get_default_params 100) 100
  = [GridStrategy._create_grid_signal no_digits
       (level_at GridStrategy.get_default_params 100 0) 100].
Proof.
  destruct (fresh_grid_fires_center_sell no_digits
              GridStrategy.get_default_params 100) as (_ & _ & Hfire).
  - reflexivity.
  - discriminate.
  - discriminate.
  - reflexivity.
  - exact Hfire.
Defined.
(** ** The drawdown of the risk metrics and the strategy performance *)

Section MetricsHelpers.
Import StrategyPerformance.
Local Open Scope Q_scope.

(** Python's [min] and [max] return an entry of the list, below (above)
    every entry. *)
Lemma py_min_elem (P : Q -> Prop) x l : P x -> Forall P l -> P (py_min x l).
Proof.
  intros Hx Hl. revert x Hx. unfold py_min.
  induction Hl as [|y l Hy _ IH]; intros x Hx; simpl; [exact Hx|].
  apply IH. destruct (Qltb y x); assumption.
Qed.

Lemma py_max_elem (P : Q -> Prop) x l : P x -> Forall P l -> P (py_max x l).
Proof.
  intros Hx Hl. revert x Hx. unfold py_max.
  induction Hl as [|y l Hy _ IH]; intros x Hx; simpl; [exact Hx|].
  apply IH. destruct (Qltb x y); assumption.
Qed.

Lemma py_min_le x l : py_min x l <= x /\ Forall (fun y => py_min x l <= y) l.
Proof.
  unfold py_min. revert x. induction l as [|y l IH]; intros x; simpl.
  - split; [lra | constructor].
  - destruct (IH (if Qltb y x then y else x)) as [H1 H2].
    destruct (Qltb y x) eqn:E.
    + apply Qltb_lt in E. split; [lra|]. constructor; [exact H1 | exact H2].
    + apply Qltb_false in E. split; [exact H1|]. constructor; [lra | exact H2].
Qed.

Lemma py_max_ge x l : x <= py_max x l /\ Forall (fun y => y <= py_max x l) l.
Proof.
  unfold py_max. revert x. induction l as [|y l IH]; intros x; simpl.
  - split; [lra | constructor].
  - destruct (IH (if Qltb x y then y else x)) as [H1 H2].
    destruct (Qltb x y) eqn:E.
    + apply Qltb_lt in E. split; [lra|]. constructor; [exact H1 | exact H2].
    + apply Qltb_false in E. split; [exact H1|]. constructor; [lra | exact H2].
Qed.

Lemma Qsum_between lo hi (l : list Q) :
  Forall (fun y => lo <= y <= hi) l ->
  lo * inject_Z (Z.of_nat (length l)) <= Qsum l <= hi * inject_Z (Z.of_nat (length l)).
Proof.
  induction 1 as [|y l Hy _ IH].
  - unfold Qsum. cbn [length foldr]. change (inject_Z (Z.of_nat 0)) with 0. lra.
  - cbn [length Qsum foldr]. fold (Qsum l).
    rewrite Nat2Z.inj_succ. unfold Z.succ. rewrite inject_Z_plus.
    change (inject_Z 1) with 1. lra.
Qed.

Lemma py_sum_from acc (l : list Q) : foldl Qplus acc l == acc + Qsum l.
Proof.
  revert acc. induction l as [|y l IH]; intros acc; simpl.
  - lra.
  - rewrite IH. fold (Qsum l). lra.
Qed.

End MetricsHelpers.

Section RiskMetricsMore.
Import RiskMetrics.
Local Open Scope Q_scope.

Local Abbreviation lowest := StrategyPerformance.py_min.
Local Abbreviation drop := (fun c m : Q => (c + - m) / m).

Lemma np_min_fin x l :
  foldl np_min2 (Fin x) (map Fin l) = Fin (lowest x l).
Proof.
  revert x. induction l as [|y l IH]; intros x; [reflexivity|].
  cbn [map foldl np_min2]. unfold fltb, fgtb.
  destruct (Qltb y x) eqn:E; unfold StrategyPerformance.py_min in *;
    cbn [foldl]; rewrite E; apply IH.
Qed.

Lemma np_min_nan l : foldl np_min2 NaN l = NaN.
Proof. induction l as [|y l IH]; [reflexivity | exact IH]. Qed.

(** The running maximum is an entry seen so far, and is above the current
    entry and above the maximum it started from. *)
Lemma running_max_above (P : Q -> Prop) m l :
  P m -> Forall P l ->
  Forall2 (fun c r => c <= r /\ m <= r /\ P r) l (maximum_accumulate_from m l).
Proof.
  intros Hm Hl. revert m Hm.
  induction Hl as [|y l Hy _ IH]; intros m Hm; simpl; [constructor|].
  assert (Hnext : y <= (if Qltb m y then y else m) /\
                  m <= (if Qltb m y then y else m) /\
                  P (if Qltb m y then y else m)).
  { destruct (Qltb m y) eqn:E.
    - apply Qltb_lt in E. split; [lra|]. split; [lra | exact Hy].
    - apply Qltb_false in E. split; [lra|]. split; [lra | exact Hm]. }
  constructor; [exact Hnext|].
  eapply Forall2_impl; [apply IH; apply Hnext|].
  intros c r (Hc & Hr & HP). simpl in Hc, Hr. split; [exact Hc|]. split; [lra | exact HP].
Qed.

(** With running maxima that are not zero, the drawdown column is a column
    of numbers. *)
Lemma drawdown_is_finite (R : Q -> Q -> Prop) cs rs :
  (forall c r, R c r -> ~ r == 0) ->
  Forall2 R cs rs ->
  zip_with (fun c m => fdiv (fsub (Fin c) (Fin m)) (Fin m)) cs rs
  = map Fin (zip_with drop cs rs).
Proof.
  intros Hnz. induction 1 as [|c r cs rs Hcr _ IH]; [reflexivity|].
  cbn [zip_with map]. rewrite IH. f_equal.
  cbn [fsub fneg fadd fdiv].
  rewrite (Qeq_bool_false r 0) by (apply (Hnz c r Hcr)). reflexivity.
Qed.

Lemma drops_satisfy (R : Q -> Q -> Prop) (P : Q -> Prop) cs rs :
  (forall c r, R c r -> P (drop c r)) ->
  Forall2 R cs rs -> Forall P (zip_with drop cs rs).
Proof.
  intros HP. induction 1 as [|c r cs rs Hcr _ IH]; simpl; constructor;
    [apply HP; exact Hcr | exact IH].
Qed.

Lemma drops_bounded (R : Q -> Q -> Prop) lo cs rs :
  (forall c r, R c r -> ~ r == 0) ->
  Forall2 R cs rs ->
  Forall (fun d => lo <= d) (zip_with drop cs rs) ->
  Forall2 (fun c m => (m - c) / m <= - lo) cs rs.
Proof.
  intros Hnz. induction 1 as [|c r cs rs Hcr _ IH]; simpl; intros Hall;
    [constructor|].
  apply Forall_cons in Hall as [Hd Hall].
  constructor; [|apply IH; exact Hall].
  assert (Hr : ~ r == 0) by (apply (Hnz c r Hcr)).
  assert (E1 : ((r - c) / r) == (- ((c + - r) / r))) by (field; exact Hr). rewrite E1.
  lra.
Qed.

(** What the risk metrics report as maximum drawdown, by the first profit of
    the history. A history that starts with a break-even trade gives NaN
    (0/0 in the first row of the drawdown column). A history whose cumulated
    profit is negative throughout gives 0: the running maximum is negative,
    so every relative drop comes out non-negative and the minimum taken is
    the 0 of the first row; the losses are not reported. A history that
    starts with a profit gives a non-negative number that bounds the drop
    of every row relative to its running maximum. *)
Theorem risk_max_drawdown_cases p rest :
  let profits := p :: rest in
  (p == 0 -> _calculate_max_drawdown profits = NaN) /\
  (Forall (fun c => c < 0) (cumsum profits) ->
   exists q, _calculate_max_drawdown profits = Fin q /\ q == 0) /\
  (0 < p ->
   exists q, _calculate_max_drawdown profits = Fin q /\ 0 <= q /\
             Forall2 (fun c m => (m - c) / m <= q)
                     (cumsum profits) (maximum_accumulate (cumsum profits))).
Proof.
  intros profits. subst profits.
  unfold _calculate_max_drawdown, cumsum. cbn [cumsum_from maximum_accumulate].
  set (c0 := 0 + p). set (cs := cumsum_from c0 rest).
  set (rs := maximum_accumulate_from c0 cs).
  cbn [zip_with np_min].
  split; [|split].
  - intros Hp.
    assert (Hc0 : c0 == 0) by (unfold c0; lra).
    cbn [fsub fneg fadd fdiv].
    rewrite (proj2 (Qeq_bool_iff c0 0) Hc0).
    rewrite (proj2 (Qeq_bool_iff (c0 + - c0) 0)) by lra.
    rewrite np_min_nan. reflexivity.
  - intros Hneg. apply Forall_cons in Hneg as [Hc0 Hcs].
    assert (HR : Forall2 (fun c r => c <= r /\ r < 0) cs rs).
    { eapply Forall2_impl;
        [apply (running_max_above (fun r => r < 0) c0 cs Hc0 Hcs)|].
      intros c r (H1 & _ & H2). split; assumption. }
    rewrite (drawdown_is_finite _ cs rs (fun c r H => Qlt_not_eq _ _ (proj2 H)) HR).
    cbn [fsub fneg fadd fdiv].
    rewrite (Qeq_bool_false c0 0) by lra.
    rewrite np_min_fin. cbn [fabs]. eexists. split; [reflexivity|].
    assert (Hlow : 0 <= lowest ((c0 + - c0) / c0) (zip_with drop cs rs)).
    { apply py_min_elem.
      - assert (E2 : ((c0 + - c0) / c0) == 0) by (field; lra). rewrite E2. lra.
      - apply (drops_satisfy _ _ cs rs) with (2 := HR). intros c r [Hcr Hr].
        assert (E3 : ((c + - r) / r) == ((r - c) / (- r))) by (field; lra). rewrite E3.
        apply Qle_shift_div_l; lra. }
    pose proof (proj1 (py_min_le ((c0 + - c0) / c0) (zip_with drop cs rs))) as Hle.
    assert (Hz : (c0 + - c0) / c0 == 0) by (field; lra).
    rewrite Hz in Hle at 2.
    apply Qabs_case; intros _; lra.
  - intros Hp.
    assert (Hc0 : 0 < c0) by (unfold c0; lra).
    assert (HR : Forall2 (fun c r => c <= r /\ 0 < r) cs rs).
    { eapply Forall2_impl;
        [apply (running_max_above (fun _ => True) c0 cs I); apply Forall_true; intros; exact I|].
      intros c r (H1 & H2 & _). split; [exact H1 | lra]. }
    assert (Hnz : forall c r : Q, c <= r /\ 0 < r -> ~ r == 0) by (intros c r [_ H]; lra).
    rewrite (drawdown_is_finite _ cs rs Hnz HR).
    cbn [fsub fneg fadd fdiv].
    rewrite (Qeq_bool_false c0 0) by lra.
    rewrite np_min_fin. cbn [fabs]. eexists. split; [reflexivity|].
    destruct (py_min_le ((c0 + - c0) / c0) (zip_with drop cs rs)) as [Hle Hall].
    assert (Hz : (c0 + - c0) / c0 == 0) by (field; lra).
    rewrite Hz in Hle at 2.
    assert (Habs : Qabs (lowest ((c0 + - c0) / c0) (zip_with drop cs rs))
                   == - lowest ((c0 + - c0) / c0) (zip_with drop cs rs)).
    { apply Qabs_neg. exact Hle. }
    split; [rewrite Habs; lra|].
    constructor.
    + rewrite Habs. assert (E4 : ((c0 - c0) / c0) == 0) by (field; lra). rewrite E4. lra.
    + eapply Forall2_impl; [apply (drops_bounded _ _ cs rs Hnz HR Hall)|].
      intros c r H. simpl in H. rewrite Habs. exact H.
Qed.

End RiskMetricsMore.

Lemma risk_max_drawdown_cases_witness :
  exists q, RiskMetrics._calculate_max_drawdown [(-1)%Q; (-2)%Q] = Fin q /\ (q == 0)%Q.
Proof.
  destruct (risk_max_drawdown_cases (-1)%Q [(-2)%Q]) as (_ & Hlosing & _).
  apply Hlosing. repeat constructor.
Defined.

Section StrategyPerformanceMore.
Import StrategyPerformance.
Local Open Scope Q_scope.

(** The performance metrics of a strategy are consistent with its history:
    the dict is empty exactly on an empty history, and never after a trade
    result was recorded; otherwise it counts every trade, the win rate lies
    in [0, 1], the average profit lies between the worst and the best profit
    of the history, and the total profit is the average times the number of
    trades. *)
Theorem performance_metrics_are_consistent history :
  (get_performance_metrics history = None <-> history = []) /\
  (forall profit,
     get_performance_metrics (update_performance history profit) <> None) /\
  (forall m, get_performance_metrics history = Some m ->
     total_trades m = length history /\
     0 <= win_rate m <= 1 /\
     max_loss m <= avg_profit m <= max_profit m /\
     max_loss m ∈ history /\ max_profit m ∈ history /\
     total_profit m == avg_profit m * inject_Z (Z.of_nat (total_trades m))).
Proof.
  split; [|split].
  - destruct history; simpl; split; intros H; congruence.
  - intros profit. unfold update_performance.
    destruct history; simpl; discriminate.
  - intros m Hm. destruct history as [|p rest]; [discriminate|].
    injection Hm as <-. cbn [total_trades win_rate avg_profit max_profit max_loss total_profit].
    set (profits := p :: rest).
    assert (Hn : 0 < inject_Z (Z.of_nat (length profits))).
    { change 0 with (inject_Z 0). rewrite <- Zlt_Qlt. simpl. lia. }
    destruct (py_min_le p rest) as [Hmin1 Hmin2].
    destruct (py_max_ge p rest) as [Hmax1 Hmax2].
    assert (Hall : Forall (fun y => py_min p rest <= y <= py_max p rest) profits).
    { constructor; [split; assumption|].
      apply Forall_and. split; assumption. }
    apply Qsum_between in Hall.
    split; [reflexivity|]. split; [|split; [|split; [|split]]].
    + apply count_ratio_bounds;
        [apply (List.filter_length_le (fun y => Qltb 0 y) (p :: rest)) | simpl; lia].
    + unfold Qmean. destruct Hall as [Hlo Hhi]. split.
      * apply Qle_shift_div_l; [exact Hn | exact Hlo].
      * apply Qle_shift_div_r; [exact Hn | exact Hhi].
    + apply (py_min_elem (fun y => y ∈ profits));
        [left | apply Forall_forall; intros y Hy; right; exact Hy].
    + apply (py_max_elem (fun y => y ∈ profits));
        [left | apply Forall_forall; intros y Hy; right; exact Hy].
    + unfold py_sum, Qmean. rewrite py_sum_from.
      change (S (length rest)) with (length profits).
      generalize dependent (inject_Z (Z.of_nat (length profits))).
      intros n Hn _. field. lra.
Qed.

End StrategyPerformanceMore.
